(** * BepInExProfileInstaller: install, enable/disable and uninstall of mods

  A shallow embedding of
  [src/r2mm/installing/profile_installers/BepInExProfileInstaller.ts].

  Strings are modelled as [string] over 8-bit characters, and
  [toLowerCase] folds the letters A-Z only: the model is exact for names
  of ASCII characters, and what JavaScript does to the letter case of
  other characters is outside it.  Statements that rest on a
  case-insensitive match, or on the absence of one, say so with an
  [isAscii] hypothesis.  Every call to the file-system provider is
  threaded through an abstract disk state and recorded, with its outcome,
  in the trace of the run. *)

From Stdlib Require Import String Ascii List Bool Arith Lia.
Import ListNotations.
Open Scope string_scope.
Open Scope list_scope.
Set Warnings "-register-all".

(** ** JavaScript string primitives used by the installer *)

Module JsString.
Local Open Scope string_scope.

Definition lower_ascii (c : ascii) : ascii :=
  let n := nat_of_ascii c in
  if ((65 <=? n)%nat && (n <=? 90)%nat)%bool then ascii_of_nat (n + 32) else c.

(** [s.toLowerCase()] on a string of ASCII characters: the letters A-Z are
  folded, every other character is kept. *)
Fixpoint toLowerCase (s : string) : string :=
  match s with
  | EmptyString => EmptyString
  | String c s' => String (lower_ascii c) (toLowerCase s')
  end.

(** [s.endsWith(t)]: the last [t.length] characters of [s] are [t]. *)
Definition endsWith (s t : string) : bool :=
  if (String.length t <=? String.length s)%nat
  then String.eqb (substring (String.length s - String.length t) (String.length t) s) t
  else false.

(** [s.substring(0, n)] for [0 <= n]. *)
Definition substring0 (n : nat) (s : string) : string := substring 0 n s.

(** The last four characters of a string that has that many. *)
Definition last4 (s : string) : string := substring (String.length s - 4) 4 s.

End JsString.
Import JsString.

(** ** Data model *)

(** [FileTree]: one directory level of a scanned location.  [getFiles] holds
  the paths of the files directly inside, [getDirectories] the child
  trees, each carrying its own [getDirectoryName]. *)
Inductive FileTree : Type :=
  mkFileTree (directoryName : string) (files : list string)
             (directories : list FileTree).

Definition getDirectoryName (t : FileTree) : string :=
  match t with mkFileTree n _ _ => n end.

Definition getFiles (t : FileTree) : list string :=
  match t with mkFileTree _ fs _ => fs end.

Definition getDirectories (t : FileTree) : list FileTree :=
  match t with mkFileTree _ _ ds => ds end.

(** Modelled from the spec: [FileTree.getRecursiveFiles] lives in
  model/file/FileTree.ts, which is not among the sources; the spec
  describes it as the recursive flattening that produces every file path
  at or below a node. *)
Fixpoint getRecursiveFiles (t : FileTree) : list string :=
  match t with
  | mkFileTree _ fs ds => fs ++ flat_map getRecursiveFiles ds
  end.

(** Every directory node of a tree, the root first, in scan order. *)
Fixpoint subtrees (t : FileTree) : list FileTree :=
  match t with
  | mkFileTree _ _ ds => t :: flat_map subtrees ds
  end.

Section FileTree_induction.
Variable P : FileTree -> Prop.
Hypothesis step : forall n fs ds, Forall P ds -> P (mkFileTree n fs ds).

Fixpoint FileTree_rect_nested (t : FileTree) : P t :=
  match t with
  | mkFileTree n fs ds =>
      step n fs ds
        ((fix all (l : list FileTree) : Forall P l :=
            match l with
            | [] => Forall_nil P
            | d :: l' => Forall_cons d (FileTree_rect_nested d) (all l')
            end) ds)
  end.
End FileTree_induction.

(** The deployment rule set ([RuleType] of InstallationRules): [rules] lists
  the entries of the JavaScript object in [Object.keys] order. *)
Record RuleType := mkRule {
  rules : list (string * string);
  _defaultPath : string
}.

Record ManifestV2 := mkManifest { getName : string }.

Record Profile := mkProfile { getPathOfProfile : string }.

Record ModLoaderPackageMapping := mkMapping {
  packageName : string;
  rootFolder : string
}.

(** [ModMode]; [applyModMode] only ever receives these two values. *)
Inductive ModMode := DISABLED | ENABLED.

(** [R2Error] and its subclass [FileWriteError]. *)
Inductive ErrorClass := R2ErrorClass | FileWriteErrorClass.

Record R2Error := mkError {
  errClass : ErrorClass;
  errName : string;
  errMessage : string;
  errSolution : string
}.

Definition newR2Error := mkError R2ErrorClass.
Definition newFileWriteError := mkError FileWriteErrorClass.

(** What a rejected provider call throws: an [R2Error] or any other
  [Error]. *)
Inductive Thrown :=
| ThrownError (message : string)
| ThrownR2 (e : R2Error).

(** [err.message] *)
Definition thrown_message (t : Thrown) : string :=
  match t with
  | ThrownError m => m
  | ThrownR2 e => errMessage e
  end.

Inductive Result (A : Type) :=
| Ok (a : A)
| Throw (t : Thrown).
Arguments Ok {A} a.
Arguments Throw {A} t.

(** Answer of [fs.lstat]. *)
Inductive Stats := StatFile | StatDirectory | StatOther.

Definition isFile (s : Stats) : bool :=
  match s with StatFile => true | _ => false end.

Definition isDirectory (s : Stats) : bool :=
  match s with StatDirectory => true | _ => false end.

(** ** The file-system provider and the trace of a run *)

(** One entry per provider call, with its outcome.  [Ev_enter] is no call:
  it records that [resolveBepInExTree] was invoked on a location, a folder
  name and a tree. *)
Inductive Event :=
| Ev_readdir (p : string) (r : Result (list string))
| Ev_lstat (p : string) (r : Result Stats)
| Ev_exists (p : string) (r : bool)
| Ev_unlink (p : string) (r : Result unit)
| Ev_rmdir (p : string) (r : Result unit)
| Ev_emptyDirectory (p : string) (r : Result unit)
| Ev_ensureDirectory (p : string) (r : Result unit)
| Ev_copyFile (src dest : string) (r : Result unit)
| Ev_copyFolder (src dest : string) (r : Result unit)
| Ev_rename (src dest : string) (r : Result unit)
| Ev_enter (location folderName : string) (tree : FileTree).

(** [FsProvider] (and the two [FileUtils] helpers built on it), over an
  abstract disk state. *)
Class FsProvider (Disk : Type) := {
  fs_readdir : string -> Disk -> Result (list string) * Disk;
  fs_lstat : string -> Disk -> Result Stats * Disk;
  fs_exists : string -> Disk -> bool * Disk;
  fs_unlink : string -> Disk -> Result unit * Disk;
  fs_rmdir : string -> Disk -> Result unit * Disk;
  fs_rename : string -> string -> Disk -> Result unit * Disk;
  fs_copyFile : string -> string -> Disk -> Result unit * Disk;
  fs_copyFolder : string -> string -> Disk -> Result unit * Disk;
  FileUtils_ensureDirectory : string -> Disk -> Result unit * Disk;
  FileUtils_emptyDirectory : string -> Disk -> Result unit * Disk
}.

(** Outcome of the call an event records, when it threw. *)
Definition result_thrown {A} (r : Result A) : option Thrown :=
  match r with Ok _ => None | Throw t => Some t end.

Definition ev_thrown (ev : Event) : option Thrown :=
  match ev with
  | Ev_readdir _ r => result_thrown r
  | Ev_lstat _ r => result_thrown r
  | Ev_exists _ _ => None
  | Ev_unlink _ r | Ev_rmdir _ r | Ev_emptyDirectory _ r
  | Ev_ensureDirectory _ r => result_thrown r
  | Ev_copyFile _ _ r | Ev_copyFolder _ _ r | Ev_rename _ _ r => result_thrown r
  | Ev_enter _ _ _ => None
  end.

Definition ev_ok (ev : Event) : Prop := ev_thrown ev = None.

(** Calls that change the disk, and the path they change. *)
Definition ev_mutates (ev : Event) : option string :=
  match ev with
  | Ev_unlink p _ | Ev_rmdir p _ | Ev_emptyDirectory p _
  | Ev_ensureDirectory p _ => Some p
  | Ev_copyFile _ d _ | Ev_copyFolder _ d _ => Some d
  | Ev_rename s _ _ => Some s
  | _ => None
  end.

(** *** A state-and-trace monad for asynchronous provider code *)

Section FsMonad.
Context {Disk : Type}.

Definition Fs (A : Type) : Type := Disk -> A * Disk * list Event.

Definition ret {A} (a : A) : Fs A := fun d => (a, d, []).

Definition bind {A B} (m : Fs A) (f : A -> Fs B) : Fs B :=
  fun d =>
    let '(a, d1, t1) := m d in
    let '(b, d2, t2) := f a d1 in
    (b, d2, t1 ++ t2).

(** Sequencing inside a [try] block: a throw skips the rest. *)
Definition bindT {A B} (m : Fs (Result A)) (f : A -> Fs (Result B))
  : Fs (Result B) :=
  bind m (fun r => match r with Ok a => f a | Throw t => ret (Throw t) end).

(** [for (const x of xs) { const e = await f(x); if (e instanceof R2Error)
    return e; }] *)
Definition forEach {A} (f : A -> Fs (option R2Error))
  : list A -> Fs (option R2Error) :=
  fix loop (xs : list A) : Fs (option R2Error) :=
    match xs with
    | [] => ret None
    | x :: xs' =>
        bind (f x) (fun e =>
          match e with
          | Some err => ret (Some err)
          | None => loop xs'
          end)
    end.

(** [for (const x of xs) { await f(x); }] inside a [try] block. *)
Definition forEachT {A} (f : A -> Fs (Result unit))
  : list A -> Fs (Result unit) :=
  fix loop (xs : list A) : Fs (Result unit) :=
    match xs with
    | [] => ret (Ok tt)
    | x :: xs' => bindT (f x) (fun _ => loop xs')
    end.

Definition result_of {A} (r : A * Disk * list Event) : A := fst (fst r).
Definition disk_of {A} (r : A * Disk * list Event) : Disk := snd (fst r).
Definition trace_of {A} (r : A * Disk * list Event) : list Event := snd r.

Context {provider : FsProvider Disk}.

Definition call {A} (f : Disk -> A * Disk) (ev : A -> Event) : Fs A :=
  fun d => let '(r, d') := f d in (r, d', [ev r]).

Definition readdir (p : string) := call (fs_readdir p) (Ev_readdir p).
Definition lstat (p : string) := call (fs_lstat p) (Ev_lstat p).
Definition exists_ (p : string) := call (fs_exists p) (Ev_exists p).
Definition unlink (p : string) := call (fs_unlink p) (Ev_unlink p).
Definition rmdir (p : string) := call (fs_rmdir p) (Ev_rmdir p).
Definition rename (s d : string) := call (fs_rename s d) (Ev_rename s d).
Definition copyFile (s d : string) := call (fs_copyFile s d) (Ev_copyFile s d).
Definition copyFolder (s d : string) :=
  call (fs_copyFolder s d) (Ev_copyFolder s d).
Definition ensureDirectory (p : string) :=
  call (FileUtils_ensureDirectory p) (Ev_ensureDirectory p).
Definition emptyDirectory (p : string) :=
  call (FileUtils_emptyDirectory p) (Ev_emptyDirectory p).

Definition enter (location folderName : string) (tree : FileTree) : Fs unit :=
  fun d => (tt, d, [Ev_enter location folderName tree]).
End FsMonad.
Arguments Fs Disk A : clear implicits.

Notation "x <- m ;; k" := (bind m (fun x => k))
  (at level 61, m at next level, right associativity).
Notation "x <~ m ;; k" := (bindT m (fun x => k))
  (at level 61, m at next level, right associativity).

(** ** The installer *)

(** [const modModeExtensions] *)
Definition modModeExtensions : list string :=
  [".dll"; ".language"; "skin.cfg"; ".hotmod"; ".h3mod"; ".deli"; ".ros"].

(** [Object.keys(o)] and [o[key]] on a rule object.  [o[key]] is only ever
  evaluated at a key taken from [Object.keys(o)]. *)
Definition Object_keys (o : list (string * string)) : list string := map fst o.

Definition Object_get (o : list (string * string)) (key : string) : string :=
  match find (fun kv => String.eqb (fst kv) key) o with
  | Some kv => snd kv
  | None => "undefined"
  end.

(** What the installer takes from its surroundings: Node's [path.join] and
  [path.basename], [ManagerInformation.APP_NAME], and the rendering of a
  [ModMode] value inside a template string. *)
Class Externals := {
  path_join : list string -> string;
  path_basename : string -> string;
  APP_NAME : string;
  mode_to_string : ModMode -> string
}.

Section Installer.
Context {Disk : Type} {provider : FsProvider Disk} {externals : Externals}.

(** [this.rule] *)
Variable rule : RuleType.

(** [MOD_LOADER_VARIANTS[GameManager.activeGame.internalFolderName]] *)
Variable bepInExVariant : list ModLoaderPackageMapping.

Local Infix "+++" := String.append (at level 60, right associativity).

(** [endFolderNames.find(folder => folder.toLowerCase() ===
    folderName.toLowerCase())] *)
Definition matchingEndFolderName (folderName : string) : option string :=
  find (fun folder => String.eqb (toLowerCase folder) (toLowerCase folderName))
       (Object_keys (rules rule)).

(** [bepInExVariant.find(value => value.packageName.toLowerCase() ===
    mod.getName().toLowerCase())] *)
Definition findVariant (mod_ : ManifestV2) : option ModLoaderPackageMapping :=
  find (fun value =>
          String.eqb (toLowerCase (packageName value)) (toLowerCase (getName mod_)))
       bepInExVariant.

(** *** uninstallMod *)

(** Lines 46-51: what the first loop does with one entry of the profile
  root. *)
Definition uninstallMod_profileRoot_entry (profile : Profile) (file : string)
  : Fs Disk (Result unit) :=
  let filePath := path_join [getPathOfProfile profile; file] in
  st <~ lstat filePath ;;
  if isFile st then
    if negb (String.eqb (toLowerCase file) "mods.yml")
    then unlink filePath
    else ret (Ok tt)
  else ret (Ok tt).

(** Lines 45-52: the body of the first [try]. *)
Definition uninstallMod_profileRoot (profile : Profile) : Fs Disk (Result unit) :=
  files <~ readdir (getPathOfProfile profile) ;;
  forEachT (uninstallMod_profileRoot_entry profile) files.

(** Lines 68-72: what the inner loop does with one entry [folder] of
  [BepInEx/<file>]. *)
Definition uninstallMod_bepInEx_folder (mod_ : ManifestV2)
           (bepInExLocation file folder : string) : Fs Disk (Result unit) :=
  let folderPath := path_join [bepInExLocation; file; folder] in
  if String.eqb folder (getName mod_) then
    st <~ lstat folderPath ;;
    if isDirectory st then
      _ <~ emptyDirectory folderPath ;;
      rmdir folderPath
    else ret (Ok tt)
  else ret (Ok tt).

(** Lines 66-74: what the outer loop does with one entry [file] of
  [BepInEx]. *)
Definition uninstallMod_bepInEx_entry (mod_ : ManifestV2)
           (bepInExLocation file : string) : Fs Disk (Result unit) :=
  st <~ lstat (path_join [bepInExLocation; file]) ;;
  if isDirectory st then
    folders <~ readdir (path_join [bepInExLocation; file]) ;;
    forEachT (uninstallMod_bepInEx_folder mod_ bepInExLocation file) folders
  else ret (Ok tt).

(** Lines 65-75: the body of the second [try]. *)
Definition uninstallMod_bepInEx (mod_ : ManifestV2) (bepInExLocation : string)
  : Fs Disk (Result unit) :=
  files <~ readdir bepInExLocation ;;
  forEachT (uninstallMod_bepInEx_entry mod_ bepInExLocation) files.

Definition uninstallMod (mod_ : ManifestV2) (profile : Profile)
  : Fs Disk (option R2Error) :=
  rootError <-
    match findVariant mod_ with
    | Some _ =>
        r <- uninstallMod_profileRoot profile ;;
        match r with
        | Ok _ => ret None
        | Throw err =>
            ret (Some (newFileWriteError
                         "Failed to delete BepInEx file from profile root"
                         (thrown_message err)
                         "Is the game still running?"))
        end
    | None => ret None
    end ;;
  match rootError with
  | Some e => ret (Some e)
  | None =>
      let bepInExLocation := path_join [getPathOfProfile profile; "BepInEx"] in
      present <- exists_ bepInExLocation ;;
      if (present : bool) then
        r <- uninstallMod_bepInEx mod_ bepInExLocation ;;
        match r with
        | Ok _ => ret None
        | Throw err =>
            ret (Some (newR2Error
                         "Failed to remove files"
                         (thrown_message err)
                         "Is the game still running? If so, close it and try again."))
        end
      else ret None
  end.

(** *** applyModMode *)

(** Lines 119-132: the body of the [try] for one file. *)
Definition applyModMode_file (mode : ModMode) (file : string) : Fs Disk (Result unit) :=
  match mode with
  | DISABLED =>
      forEachT (fun ext =>
        if endsWith (toLowerCase file) ext
        then rename file (file +++ ".old")
        else ret (Ok tt)) modModeExtensions
  | ENABLED =>
      forEachT (fun ext =>
        if endsWith (toLowerCase file) (ext +++ ".old")
        then rename file (substring0 (String.length file - String.length ".old") file)
        else ret (Ok tt)) modModeExtensions
  end.

(** Lines 118-141: the loop over the collected files. *)
Definition applyModMode_files (mode : ModMode) (files : list string)
  : Fs Disk (option R2Error) :=
  forEach (fun file =>
    r <- applyModMode_file mode file ;;
    match r with
    | Ok _ => ret None
    | Throw err =>
        ret (Some (newR2Error
                     ("Failed to rename file " +++ file +++ " with ModMode of "
                        +++ mode_to_string mode)
                     (thrown_message err)
                     "Ensure that the game is closed."))
    end) files.

Fixpoint applyModMode (mod_ : ManifestV2) (tree : FileTree) (profile : Profile)
         (location : string) (mode : ModMode) {struct tree} : Fs Disk (option R2Error) :=
  collected <-
    (fix directories (ds : list FileTree) (files : list string)
       : Fs Disk (R2Error + list string) :=
       match ds with
       | [] => ret (inr files)
       | directory :: ds' =>
           if negb (String.eqb (getDirectoryName directory) (getName mod_)) then
             applyError <-
               applyModMode mod_ directory profile
                 (path_join [location; getDirectoryName directory]) mode ;;
             match applyError with
             | Some e => ret (inl e)
             | None => directories ds' files
             end
           else directories ds' (files ++ getRecursiveFiles directory)
       end) (getDirectories tree) [] ;;
  match collected with
  | inl applyError => ret (Some applyError)
  | inr files => applyModMode_files mode files
  end.

(** Lines 108-117 as a function of their own: the loop over
  [tree.getDirectories()] that gathers [files]. *)
Definition applyModMode_directories (mod_ : ManifestV2) (profile : Profile)
           (location : string) (mode : ModMode)
  : list FileTree -> list string -> Fs Disk (R2Error + list string) :=
  fix directories (ds : list FileTree) (files : list string)
    : Fs Disk (R2Error + list string) :=
    match ds with
    | [] => ret (inr files)
    | directory :: ds' =>
        if negb (String.eqb (getDirectoryName directory) (getName mod_)) then
          applyError <-
            applyModMode mod_ directory profile
              (path_join [location; getDirectoryName directory]) mode ;;
          match applyError with
          | Some e => ret (inl e)
          | None => directories ds' files
          end
        else directories ds' (files ++ getRecursiveFiles directory)
    end.

(** *** resolveBepInExTree *)

(** Lines 213-250: the body of the loop over [tree.getFiles()]. *)
Definition resolveBepInExTree_file (profile : Profile) (location : string)
           (mod_ : ManifestV2) (file : string) : Fs Disk (option R2Error) :=
  let profileLocation :=
    if endsWith (toLowerCase file) ".mm.dll"
    then path_join [getPathOfProfile profile; "BepInEx"; "monomod"; getName mod_]
    else path_join [getPathOfProfile profile; _defaultPath rule; getName mod_] in
  made <- ensureDirectory profileLocation ;;
  match made with
  | Throw (ThrownR2 e) => ret (Some e)
  | Throw (ThrownError message) =>
      ret (Some (newFileWriteError
                   ("Failed to create directories for: " +++ profileLocation)
                   message
                   ("Try running " +++ APP_NAME +++ " as an administrator")))
  | Ok _ =>
      copied <- copyFile file (path_join [profileLocation; path_basename file]) ;;
      match copied with
      | Ok _ => ret None
      | Throw (ThrownR2 e) => ret (Some e)
      | Throw (ThrownError message) =>
          ret (Some (newFileWriteError
                       ("Failed to move mod: " +++ getName mod_ +++ " with file: "
                          +++ path_join [location; file])
                       message
                       ("Is the game still running? If not, try running "
                          +++ APP_NAME +++ " as an administrator")))
      end
  end.

(** Lines 178-210: the terminal branch, [folderName] matched a rule key. *)
Definition resolveBepInExTree_matched (profile : Profile) (location folderName : string)
           (mod_ : ManifestV2) (matchingEndFolderName : string) : Fs Disk (option R2Error) :=
  let profileLocation :=
    if negb (String.eqb (toLowerCase folderName) "config")
    then path_join [getPathOfProfile profile;
                    Object_get (rules rule) matchingEndFolderName; getName mod_]
    else path_join [getPathOfProfile profile;
                    Object_get (rules rule) matchingEndFolderName] in
  made <- ensureDirectory profileLocation ;;
  match made with
  | Throw err =>
      ret (Some (newFileWriteError
                   ("Failed to create directories for: " +++ profileLocation)
                   (thrown_message err)
                   ("Is the game still running? If not, try running "
                      +++ APP_NAME +++ " as an administrator")))
  | Ok _ =>
      copied <- copyFolder location profileLocation ;;
      match copied with
      | Ok _ => ret None
      | Throw err =>
          ret (Some (newFileWriteError
                       ("Failed to move mod: " +++ getName mod_
                          +++ " with directory of: " +++ profileLocation)
                       (thrown_message err)
                       ("Is the game still running? If not, try running "
                          +++ APP_NAME +++ " as an administrator")))
      end
  end.

Fixpoint resolveBepInExTree (profile : Profile) (location folderName : string)
         (mod_ : ManifestV2) (tree : FileTree) {struct tree} : Fs Disk (option R2Error) :=
  _ <- enter location folderName tree ;;
  match matchingEndFolderName folderName with
  | Some matching => resolveBepInExTree_matched profile location folderName mod_ matching
  | None =>
      fileError <-
        forEach (resolveBepInExTree_file profile location mod_) (getFiles tree) ;;
      match fileError with
      | Some e => ret (Some e)
      | None =>
          forEach (fun directory =>
                     resolveBepInExTree profile
                       (path_join [location; getDirectoryName directory])
                       (getDirectoryName directory) mod_ directory)
                  (getDirectories tree)
      end
  end.

End Installer.

(** ** An in-memory disk

  A concrete provider on which the installer can be run: the disk is the
  list of its absolute paths, each with what [lstat] answers for it. *)

Module MemFs.
Local Open Scope string_scope.

Definition disk : Type := list (string * Stats).

Definition lookup (p : string) (d : disk) : option Stats :=
  option_map snd (find (fun e => String.eqb (fst e) p) d).

Fixpoint strip_prefix (pre s : string) : option string :=
  match pre, s with
  | EmptyString, _ => Some s
  | String a pre', String b s' =>
      if Ascii.eqb a b then strip_prefix pre' s' else None
  | String _ _, EmptyString => None
  end.

Fixpoint has_slash (s : string) : bool :=
  match s with
  | EmptyString => false
  | String c s' => (Ascii.eqb c "/" || has_slash s')%bool
  end.

(** [below dir q]: the path of [q] relative to [dir], when [q] lies under it. *)
Definition below (dir q : string) : option string :=
  match strip_prefix (dir ++ "/") q with
  | Some "" => None
  | r => r
  end.

Definition children (dir : string) (d : disk) : list string :=
  flat_map (fun e =>
              match below dir (fst e) with
              | Some r => if has_slash r then [] else [r]
              | None => []
              end) d.

Definition remove (p : string) (d : disk) : disk :=
  filter (fun e => negb (String.eqb (fst e) p)) d.

Definition put (p : string) (st : Stats) (d : disk) : disk :=
  (remove p d ++ [(p, st)])%list.

Definition enoent {A} (p : string) : Result A :=
  Throw (ThrownError ("ENOENT: no such file or directory, " ++ p)).

Definition mem_readdir (p : string) (d : disk) : Result (list string) * disk :=
  match lookup p d with
  | Some StatDirectory => (Ok (children p d), d)
  | _ => (enoent p, d)
  end.

Definition mem_lstat (p : string) (d : disk) : Result Stats * disk :=
  match lookup p d with
  | Some st => (Ok st, d)
  | None => (enoent p, d)
  end.

Definition mem_exists (p : string) (d : disk) : bool * disk :=
  (match lookup p d with Some _ => true | None => false end, d).

Definition mem_unlink (p : string) (d : disk) : Result unit * disk :=
  match lookup p d with
  | Some StatDirectory => (Throw (ThrownError ("EISDIR: " ++ p)), d)
  | Some _ => (Ok tt, remove p d)
  | None => (enoent p, d)
  end.

Definition mem_rmdir (p : string) (d : disk) : Result unit * disk :=
  match lookup p d with
  | Some StatDirectory =>
      match children p d with
      | [] => (Ok tt, remove p d)
      | _ :: _ => (Throw (ThrownError ("ENOTEMPTY: " ++ p)), d)
      end
  | _ => (enoent p, d)
  end.

Definition mem_rename (s t : string) (d : disk) : Result unit * disk :=
  match lookup s d with
  | Some st => (Ok tt, put t st (remove s d))
  | None => (enoent s, d)
  end.

Definition mem_copyFile (s t : string) (d : disk) : Result unit * disk :=
  match lookup s d with
  | Some StatFile => (Ok tt, put t StatFile d)
  | _ => (enoent s, d)
  end.

Definition mem_copyFolder (s t : string) (d : disk) : Result unit * disk :=
  match lookup s d with
  | Some StatDirectory =>
      (Ok tt,
       fold_left (fun acc e =>
                    match below s (fst e) with
                    | Some r => put (t ++ "/" ++ r) (snd e) acc
                    | None => acc
                    end) d (put t StatDirectory d))
  | _ => (enoent s, d)
  end.

Definition mem_ensureDirectory (p : string) (d : disk) : Result unit * disk :=
  match lookup p d with
  | Some StatDirectory => (Ok tt, d)
  | Some _ => (Throw (ThrownError ("EEXIST: " ++ p)), d)
  | None => (Ok tt, put p StatDirectory d)
  end.

Definition mem_emptyDirectory (p : string) (d : disk) : Result unit * disk :=
  match lookup p d with
  | Some StatDirectory =>
      (Ok tt, filter (fun e => match below p (fst e) with
                               | Some _ => false
                               | None => true
                               end) d)
  | _ => (enoent p, d)
  end.

#[export] Instance provider : FsProvider disk := {
  fs_readdir := mem_readdir;
  fs_lstat := mem_lstat;
  fs_exists := mem_exists;
  fs_unlink := mem_unlink;
  fs_rmdir := mem_rmdir;
  fs_rename := mem_rename;
  fs_copyFile := mem_copyFile;
  fs_copyFolder := mem_copyFolder;
  FileUtils_ensureDirectory := mem_ensureDirectory;
  FileUtils_emptyDirectory := mem_emptyDirectory
}.

(** [path.join] on POSIX segments that need no normalisation (no [.] or
  [..], no doubled or trailing slash, at least one segment that is not
  empty): the non-empty segments, separated by a slash. *)
Definition posix_join (parts : list string) : string :=
  String.concat "/" (filter (fun s => negb (String.eqb s "")) parts).

Fixpoint basename_from (s acc : string) : string :=
  match s with
  | EmptyString => acc
  | String c s' =>
      if Ascii.eqb c "/" then basename_from s' ""
      else basename_from s' (acc ++ String c "")
  end.

(** [path.basename] on a POSIX path that does not end with a slash: what
  follows the last slash. *)
Definition posix_basename (p : string) : string := basename_from p "".

#[export] Instance externals : Externals := {
  path_join := posix_join;
  path_basename := posix_basename;
  APP_NAME := "r2modman";
  mode_to_string := fun m => match m with DISABLED => "0" | ENABLED => "1" end
}.

End MemFs.

(** ** A small profile to run the installer on *)

Module Sample.
Import MemFs.
Local Open Scope string_scope.

Definition profile : Profile := mkProfile "/profile".

Definition Foo : ManifestV2 := mkManifest "Foo".

(** The same name in lower case. *)
Definition foo : ManifestV2 := mkManifest "foo".

Definition loader : ManifestV2 := mkManifest "bbepis-BepInExPack".

Definition variants : list ModLoaderPackageMapping :=
  [mkMapping "bbepis-BepInExPack" "BepInExPack"].

Definition rule : RuleType :=
  mkRule [("plugins", "BepInEx/plugins"); ("patchers", "BepInEx/patchers");
          ("monomod", "BepInEx/monomod"); ("core", "BepInEx/core");
          ("config", "BepInEx/config")]
         "BepInEx/plugins".

(** The cached package of Foo 1.0.0. *)
Definition cache : string := "/cache/Foo/1.0.0".

Definition package : FileTree :=
  mkFileTree "1.0.0"
    ["/cache/Foo/1.0.0/manifest.json"; "/cache/Foo/1.0.0/Foo.MM.dll"]
    [mkFileTree "Plugins" ["/cache/Foo/1.0.0/Plugins/Foo.dll"] [];
     mkFileTree "extras" ["/cache/Foo/1.0.0/extras/readme.txt"]
       [mkFileTree "config" ["/cache/Foo/1.0.0/extras/config/foo.cfg"] []]].

(** What the scan of [/profile/BepInEx] finds once Foo is installed. *)
Definition installed : FileTree :=
  mkFileTree "BepInEx" []
    [mkFileTree "plugins" []
       [mkFileTree "Foo" ["/profile/BepInEx/plugins/Foo/Foo.dll";
                          "/profile/BepInEx/plugins/Foo/manifest.json"] []]].

Definition disk : MemFs.disk :=
  [("/cache/Foo/1.0.0", StatDirectory);
   ("/cache/Foo/1.0.0/manifest.json", StatFile);
   ("/cache/Foo/1.0.0/Foo.MM.dll", StatFile);
   ("/cache/Foo/1.0.0/Plugins", StatDirectory);
   ("/cache/Foo/1.0.0/Plugins/Foo.dll", StatFile);
   ("/cache/Foo/1.0.0/extras", StatDirectory);
   ("/cache/Foo/1.0.0/extras/readme.txt", StatFile);
   ("/cache/Foo/1.0.0/extras/config", StatDirectory);
   ("/cache/Foo/1.0.0/extras/config/foo.cfg", StatFile);
   ("/profile", StatDirectory);
   ("/profile/mods.yml", StatFile);
   ("/profile/doorstop_config.ini", StatFile);
   ("/profile/winhttp.dll", StatFile);
   ("/profile/BepInEx", StatDirectory);
   ("/profile/BepInEx/plugins", StatDirectory);
   ("/profile/BepInEx/plugins/Foo", StatDirectory);
   ("/profile/BepInEx/plugins/Foo/Foo.dll", StatFile);
   ("/profile/BepInEx/plugins/Foo/manifest.json", StatFile)].

End Sample.

(** ** Reading a trace *)

(** Fail-fast runs: either every call succeeded and no error is returned,
  or the call that threw is the last one of the trace, every call before
  it succeeded, and the one error returned carries the message of what was
  thrown. *)
Definition fail_fast (res : option R2Error) (tr : list Event) : Prop :=
  match res with
  | None => Forall ev_ok tr
  | Some e =>
      exists pre ev t,
        tr = pre ++ [ev] /\ Forall ev_ok pre /\
        ev_thrown ev = Some t /\ errMessage e = thrown_message t
  end.

(** The same for the body of a [try] block. *)
Definition fail_fastT {A} (res : Result A) (tr : list Event) : Prop :=
  match res with
  | Ok _ => Forall ev_ok tr
  | Throw t =>
      exists pre ev,
        tr = pre ++ [ev] /\ Forall ev_ok pre /\ ev_thrown ev = Some t
  end.

(** The [fs.rename] calls of a trace. *)
Definition rename_calls (tr : list Event) : list (string * string) :=
  flat_map (fun ev => match ev with
                      | Ev_rename s t _ => [(s, t)]
                      | _ => []
                      end) tr.

(** The name a file has after the calls of a trace, following the
  renames that succeeded. *)
Definition name_after (file : string) (tr : list Event) : string :=
  fold_left (fun current ev =>
               match ev with
               | Ev_rename s t (Ok _) =>
                   if String.eqb s current then t else current
               | _ => current
               end) tr file.

(** A file name carries one of the [modModeExtensions], whatever its
  letter case. *)
Definition hasModModeExtension (file : string) : Prop :=
  exists ext, In ext modModeExtensions /\ endsWith (toLowerCase file) ext = true.

(** A file name carries one of the [modModeExtensions] followed by [.old]. *)
Definition hasDisabledExtension (file : string) : Prop :=
  exists ext, In ext modModeExtensions /\
              endsWith (toLowerCase file) (ext ++ ".old")%string = true.

Section Reading.
Context {externals : Externals}.
Variable rule : RuleType.

(** The files an event of [resolveBepInExTree] takes care of: the source of
  a single-file copy, and every file at or below a folder whose name
  matched a rule key. *)
Definition files_handled (ev : Event) : list string :=
  match ev with
  | Ev_copyFile src _ _ => [src]
  | Ev_enter _ folderName tree =>
      match matchingEndFolderName rule folderName with
      | Some _ => getRecursiveFiles tree
      | None => []
      end
  | _ => []
  end.

(** The directories an event takes care of: an invocation on a folder that
  matched a rule key covers the folder and all that is below it, an
  invocation on any other folder covers that folder alone. *)
Definition directories_handled (ev : Event) : list FileTree :=
  match ev with
  | Ev_enter _ folderName tree =>
      match matchingEndFolderName rule folderName with
      | Some _ => subtrees tree
      | None => [tree]
      end
  | _ => []
  end.

(** Locations of the invocations whose folder name matched a rule key. *)
Definition matched_locations (tr : list Event) : list string :=
  flat_map (fun ev => match ev with
                      | Ev_enter location folderName _ =>
                          match matchingEndFolderName rule folderName with
                          | Some _ => [location]
                          | None => []
                          end
                      | _ => []
                      end) tr.

(** Sources of the whole-folder copies. *)
Definition folder_copies (tr : list Event) : list string :=
  flat_map (fun ev => match ev with
                      | Ev_copyFolder src _ _ => [src]
                      | _ => []
                      end) tr.

(** Every invocation recorded in the trace was made with the directory's
  own name as folder name. *)
Definition entered_by_own_name (tr : list Event) : Prop :=
  forall location folderName tree,
    In (Ev_enter location folderName tree) tr ->
    folderName = getDirectoryName tree.

(** The events of a trace tile a tree: each file and each directory of the
  tree is taken care of by exactly one event, in scan order, and the
  whole-folder copies are those of the invocations that matched a rule. *)
Definition handles_exactly_once (tr : list Event) (tree : FileTree) : Prop :=
  flat_map files_handled tr = getRecursiveFiles tree /\
  flat_map directories_handled tr = subtrees tree /\
  folder_copies tr = matched_locations tr.

(** Where the no-match branch puts a file. *)
Definition file_destination (profile : Profile) (mod_ : ManifestV2) (file : string)
  : string :=
  if endsWith (toLowerCase file) ".mm.dll"
  then path_join [getPathOfProfile profile; "BepInEx"; "monomod"; getName mod_]
  else path_join [getPathOfProfile profile; _defaultPath rule; getName mod_].

(** The calls the no-match branch makes for the files of one level when
  all of them succeed. *)
Definition file_events (profile : Profile) (mod_ : ManifestV2) (fs : list string)
  : list Event :=
  flat_map (fun file =>
              [Ev_ensureDirectory (file_destination profile mod_ file) (Ok tt);
               Ev_copyFile file
                 (path_join [file_destination profile mod_ file; path_basename file])
                 (Ok tt)]) fs.

(** Every single-file copy goes to the destination its file name decides. *)
Definition copies_by_name (profile : Profile) (mod_ : ManifestV2) (tr : list Event)
  : Prop :=
  forall src dest r,
    In (Ev_copyFile src dest r) tr ->
    dest = path_join [file_destination profile mod_ src; path_basename src].

(** The trace of the first pass of a successful uninstall over the listing
  [names] of the profile root: each entry is examined in turn; a regular
  file is unlinked unless its name is [mods.yml]; nothing else happens. *)
Inductive profileRoot_swept (profile : Profile) : list string -> list Event -> Prop :=
| swept_done : profileRoot_swept profile [] []
| swept_not_a_file file files st tr :
    isFile st = false ->
    profileRoot_swept profile files tr ->
    profileRoot_swept profile (file :: files)
      (Ev_lstat (path_join [getPathOfProfile profile; file]) (Ok st) :: tr)
| swept_reserved file files tr :
    toLowerCase file = "mods.yml" ->
    profileRoot_swept profile files tr ->
    profileRoot_swept profile (file :: files)
      (Ev_lstat (path_join [getPathOfProfile profile; file]) (Ok StatFile) :: tr)
| swept_deleted file files tr :
    toLowerCase file <> "mods.yml" ->
    profileRoot_swept profile files tr ->
    profileRoot_swept profile (file :: files)
      (Ev_lstat (path_join [getPathOfProfile profile; file]) (Ok StatFile)
         :: Ev_unlink (path_join [getPathOfProfile profile; file]) (Ok tt) :: tr).

(** A deletion of a mod's folder below [BepInEx]: [emptyDirectory] or
  [rmdir] of [BepInEx/<file>/<mod name>]. *)
Definition deletes_mod_folder (profile : Profile) (mod_ : ManifestV2) (ev : Event)
  : Prop :=
  exists file,
    let folderPath :=
      path_join [path_join [getPathOfProfile profile; "BepInEx"]; file; getName mod_] in
    (exists r, ev = Ev_emptyDirectory folderPath r) \/
    (exists r, ev = Ev_rmdir folderPath r).

(** A trace whose only calls that change the disk delete folders of the
  mod below [BepInEx]. *)
Definition quiet_or_mod_folder (profile : Profile) (mod_ : ManifestV2)
           (tr : list Event) : Prop :=
  Forall (fun ev => ev_mutates ev = None \/ deletes_mod_folder profile mod_ ev) tr.

End Reading.

(** Traces in which the only calls that change the disk are [unlink]s, each
  directly after an [lstat] of the same path that answered "regular
  file". *)
Inductive unlinks_follow_lstat : list Event -> Prop :=
| ufl_nil : unlinks_follow_lstat []
| ufl_other ev tr :
    ev_mutates ev = None -> unlinks_follow_lstat tr ->
    unlinks_follow_lstat (ev :: tr)
| ufl_unlink p r tr :
    unlinks_follow_lstat tr ->
    unlinks_follow_lstat (Ev_lstat p (Ok StatFile) :: Ev_unlink p r :: tr).

(** Computations all of whose runs are fail-fast. *)
Definition FailFast {Disk} (m : Fs Disk (option R2Error)) : Prop :=
  forall d, fail_fast (result_of (m d)) (trace_of (m d)).

Definition FailFastT {Disk A} (m : Fs Disk (Result A)) : Prop :=
  forall d, fail_fastT (result_of (m d)) (trace_of (m d)).

(** ** The rest of the installer: scanning, the loader bootstrap and the
  entry points *)

(** Modelled from the spec: [FileTree.buildFromLocation] lives in
  model/file/FileTree.ts, which is not among the sources; the installer
  uses its answer as [FileTree | R2Error], and the spec describes a scan
  as yielding a whole tree or an error, never a partial tree.  It is kept
  abstract here, together with [PathResolver.MOD_ROOT] and
  [mod.getVersionNumber().toString()].  The provider calls a scan makes
  are its own and are not recorded in the trace. *)
Class InstallEnvironment (Disk : Type) := {
  FileTree_buildFromLocation : string -> Disk -> (R2Error + FileTree) * Disk;
  PathResolver_MOD_ROOT : string;
  getVersionNumber : ManifestV2 -> string
}.

Section EntryPoints.
Context {Disk : Type} {provider : FsProvider Disk} {externals : Externals}
        {environment : InstallEnvironment Disk}.

(** [this.rule] *)
Variable rule : RuleType.

(** [MOD_LOADER_VARIANTS[GameManager.activeGame.internalFolderName]] *)
Variable bepInExVariant : list ModLoaderPackageMapping.

Local Infix "+++" := String.append (at level 60, right associativity).

Definition buildFromLocation (location : string) : Fs Disk (R2Error + FileTree) :=
  fun d => let '(r, d') := FileTree_buildFromLocation location d in (r, d', []).

(** *** disableMod and enableMod *)

Definition disableMod (mod_ : ManifestV2) (profile : Profile)
  : Fs Disk (option R2Error) :=
  let bepInExLocation := path_join [getPathOfProfile profile; "BepInEx"] in
  files <- buildFromLocation bepInExLocation ;;
  match files with
  | inl e => ret (Some e)
  | inr files => applyModMode mod_ files profile bepInExLocation DISABLED
  end.

Definition enableMod (mod_ : ManifestV2) (profile : Profile)
  : Fs Disk (option R2Error) :=
  let bepInExLocation := path_join [getPathOfProfile profile; "BepInEx"] in
  files <- buildFromLocation bepInExLocation ;;
  match files with
  | inl e => ret (Some e)
  | inr files => applyModMode mod_ files profile bepInExLocation ENABLED
  end.

(** *** getDescendantFiles *)

Definition getDescendantFiles (tree : option FileTree) (location : string)
  : Fs Disk (list string) :=
  ret [].

(** *** installModLoader *)

(** Lines 275-287: the body of the loop over [files.getFiles()]. *)
Definition installModLoader_file (profile : Profile) (file : string)
  : Fs Disk (option R2Error) :=
  copied <- copyFile file (path_join [getPathOfProfile profile; path_basename file]) ;;
  match copied with
  | Ok _ => ret None
  | Throw (ThrownR2 e) => ret (Some e)
  | Throw (ThrownError message) =>
      ret (Some (newFileWriteError
                   ("Failed to copy file for BepInEx installation: " +++ file)
                   message
                   ("Is the game still running? If not, try running "
                      +++ APP_NAME +++ " as an administrator")))
  end.

(** Lines 290-302: the body of the loop over [files.getDirectories()]. *)
Definition installModLoader_directory (profile : Profile) (location : string)
           (directory : FileTree) : Fs Disk (option R2Error) :=
  copied <- copyFolder
              (path_join [location; getDirectoryName directory])
              (path_join [getPathOfProfile profile;
                          path_basename (getDirectoryName directory)]) ;;
  match copied with
  | Ok _ => ret None
  | Throw err =>
      ret (Some (newFileWriteError
                   ("Failed to copy folder for BepInEx installation: "
                      +++ getDirectoryName directory)
                   (thrown_message err)
                   ("Is the game still running? If not, try running "
                      +++ APP_NAME +++ " as an administrator")))
  end.

(** Lines 304-316: the icon. *)
Definition installModLoader_icon (bieLocation : string) (profile : Profile)
  : Fs Disk (option R2Error) :=
  copied <- copyFile (path_join [bieLocation; "icon.png"])
                     (path_join [getPathOfProfile profile; "BepInEx"; "core";
                                 "icon.png"]) ;;
  match copied with
  | Ok _ => ret None
  | Throw err =>
      ret (Some (newFileWriteError
                   "Failed to copy icon asset for BepInEx installation"
                   (thrown_message err)
                   ("Is the game still running? If not, try running "
                      +++ APP_NAME +++ " as an administrator")))
  end.

(** Lines 274-317: what [installModLoader] does with the scanned payload. *)
Definition installModLoader_payload (bieLocation location : string)
           (profile : Profile) (files : FileTree) : Fs Disk (option R2Error) :=
  fileError <- forEach (installModLoader_file profile) (getFiles files) ;;
  match fileError with
  | Some e => ret (Some e)
  | None =>
      directoryError <-
        forEach (installModLoader_directory profile location)
                (getDirectories files) ;;
      match directoryError with
      | Some e => ret (Some e)
      | None => installModLoader_icon bieLocation profile
      end
  end.

Definition installModLoader (bieLocation : string)
           (bepInExVariant : ModLoaderPackageMapping) (profile : Profile)
  : Fs Disk (option R2Error) :=
  let location := path_join [bieLocation; rootFolder bepInExVariant] in
  files <- buildFromLocation location ;;
  match files with
  | inl e => ret (Some e)
  | inr files => installModLoader_payload bieLocation location profile files
  end.

(** *** installForManifestV2 and installMod *)

Definition installForManifestV2 (mod_ : ManifestV2) (profile : Profile)
           (location : string) : Fs Disk (option R2Error) :=
  files <- buildFromLocation location ;;
  match files with
  | inl e => ret (Some e)
  | inr files =>
      result <- resolveBepInExTree rule profile location (path_basename location)
                  mod_ files ;;
      match result with
      | Some e => ret (Some e)
      | None => ret None
      end
  end.

(** [cachedLocationOfMod] of [installMod]. *)
Definition cachedLocationOfMod (mod_ : ManifestV2) : string :=
  let cacheDirectory := path_join [PathResolver_MOD_ROOT; "cache"] in
  path_join [cacheDirectory; getName mod_; getVersionNumber mod_].

Definition installMod (mod_ : ManifestV2) (profile : Profile)
  : Fs Disk (option R2Error) :=
  match findVariant bepInExVariant mod_ with
  | Some variant => installModLoader (cachedLocationOfMod mod_) variant profile
  | None => installForManifestV2 mod_ profile (cachedLocationOfMod mod_)
  end.

End EntryPoints.

(** ** Reading the traces of the other operations *)

(** Fail-fast runs whose error is justified by the call that threw:
  [justifies e ev] says how the error returned relates to the last call. *)
Definition fail_fast_with (justifies : R2Error -> Event -> Prop)
           (res : option R2Error) (tr : list Event) : Prop :=
  match res with
  | None => Forall ev_ok tr
  | Some e =>
      exists pre ev,
        tr = pre ++ [ev] /\ Forall ev_ok pre /\ justifies e ev
  end.

Definition FailFastWith {Disk} (justifies : R2Error -> Event -> Prop)
           (m : Fs Disk (option R2Error)) : Prop :=
  forall d, fail_fast_with justifies (result_of (m d)) (trace_of (m d)).

(** The error is a [FileWriteError] that carries the message of what was
  thrown. *)
Definition wraps (e : R2Error) (t : Thrown) : Prop :=
  errClass e = FileWriteErrorClass /\ errMessage e = thrown_message t.

(** How an error of [resolveBepInExTree] relates to the call that threw: a
  folder copy is always wrapped; the copy of a loose file hands an
  [R2Error] on as it is and wraps anything else; a directory creation does
  the one or the other. *)
Definition resolve_error_origin (e : R2Error) (ev : Event) : Prop :=
  match ev with
  | Ev_copyFolder _ _ (Throw t) => wraps e t
  | Ev_copyFile _ _ (Throw (ThrownR2 e')) => e = e'
  | Ev_copyFile _ _ (Throw (ThrownError m)) => wraps e (ThrownError m)
  | Ev_ensureDirectory _ (Throw (ThrownR2 e')) => e = e' \/ wraps e (ThrownR2 e')
  | Ev_ensureDirectory _ (Throw (ThrownError m)) => wraps e (ThrownError m)
  | _ => False
  end.

(** How an error of [installModLoader] relates to the call that threw: it
  is the [R2Error] thrown itself, or a [FileWriteError] that carries the
  message; a folder copy is always wrapped. *)
Definition loader_error_origin (e : R2Error) (ev : Event) : Prop :=
  match ev with
  | Ev_copyFolder _ _ (Throw t) => wraps e t
  | Ev_copyFile _ _ (Throw (ThrownR2 e')) => e = e' \/ wraps e (ThrownR2 e')
  | Ev_copyFile _ _ (Throw (ThrownError m)) => wraps e (ThrownError m)
  | _ => False
  end.

(** Traces in which every copy directly follows the successful creation of
  the directory it copies into, and nothing but directory creations and
  copies is called. *)
Section EnsuredCopies.
Context {externals : Externals}.

Inductive ensured_copies : list Event -> Prop :=
| ec_nil : ensured_copies []
| ec_enter location folderName tree tr :
    ensured_copies tr ->
    ensured_copies (Ev_enter location folderName tree :: tr)
| ec_ensure_failed p t tr :
    ensured_copies tr ->
    ensured_copies (Ev_ensureDirectory p (Throw t) :: tr)
| ec_folder p src r tr :
    ensured_copies tr ->
    ensured_copies (Ev_ensureDirectory p (Ok tt) :: Ev_copyFolder src p r :: tr)
| ec_file p src r tr :
    ensured_copies tr ->
    ensured_copies (Ev_ensureDirectory p (Ok tt)
                      :: Ev_copyFile src (path_join [p; path_basename src]) r :: tr).

End EnsuredCopies.

(** The single-file copies of a trace, by source. *)
Definition file_copies (tr : list Event) : list string :=
  flat_map (fun ev => match ev with
                      | Ev_copyFile src _ _ => [src]
                      | _ => []
                      end) tr.

(** The files [applyModMode] works on, in the order it reaches them: first
  what the directories with another name than the mod's yield, then every
  file at or below the directories that carry exactly the mod's name. *)
Fixpoint toggleOrder (mod_ : ManifestV2) (tree : FileTree) : list string :=
  match tree with
  | mkFileTree _ _ ds =>
      flat_map (fun directory =>
                  if negb (String.eqb (getDirectoryName directory) (getName mod_))
                  then toggleOrder mod_ directory
                  else []) ds
      ++ flat_map (fun directory =>
                     if negb (String.eqb (getDirectoryName directory) (getName mod_))
                     then []
                     else getRecursiveFiles directory) ds
  end.

(** The rename the mode toggle makes for one file, if any. *)
Definition renamePlan (mode : ModMode) (file : string) : list (string * string) :=
  match mode with
  | DISABLED =>
      if existsb (fun ext => endsWith (toLowerCase file) ext) modModeExtensions
      then [(file, (file ++ ".old")%string)]
      else []
  | ENABLED =>
      if existsb (fun ext => endsWith (toLowerCase file) (ext ++ ".old")%string)
                 modModeExtensions
      then [(file, substring0 (String.length file - String.length ".old"%string) file)]
      else []
  end.

(** A run follows a plan of renames: it makes no other call than renames,
  these are the plan's, in order, up to where the run stopped, and a run
  that returns no error went through the whole plan. *)
Definition follows_plan (plan : list (string * string)) (res : option R2Error)
           (tr : list Event) : Prop :=
  (forall ev, In ev tr -> exists s t r, ev = Ev_rename s t r) /\
  exists rest, plan = rename_calls tr ++ rest /\ (res = None -> rest = []).

(** Traces of the second pass of [uninstallMod]: a folder is emptied only
  directly after [lstat] answered "directory" for it, and removed only
  directly after it was emptied; an emptied folder is removed next. *)
Inductive deletions_in_order : list Event -> Prop :=
| dio_nil : deletions_in_order []
| dio_other ev tr :
    (forall p r, ev <> Ev_emptyDirectory p r) ->
    (forall p r, ev <> Ev_rmdir p r) ->
    deletions_in_order tr ->
    deletions_in_order (ev :: tr)
| dio_empty_failed p t tr :
    deletions_in_order tr ->
    deletions_in_order (Ev_lstat p (Ok StatDirectory)
                          :: Ev_emptyDirectory p (Throw t) :: tr)
| dio_removed p r tr :
    deletions_in_order tr ->
    deletions_in_order (Ev_lstat p (Ok StatDirectory)
                          :: Ev_emptyDirectory p (Ok tt) :: Ev_rmdir p r :: tr).

Definition FollowsPlan {Disk} (plan : list (string * string))
           (m : Fs Disk (option R2Error)) : Prop :=
  forall d, follows_plan plan (result_of (m d)) (trace_of (m d)).

Section UninstallParts.
Context {Disk : Type} {provider : FsProvider Disk} {externals : Externals}.

(** Lines 44-60 of [uninstallMod]: the first [try] with its [catch]. *)
Definition uninstallMod_profileRoot_caught (profile : Profile)
  : Fs Disk (option R2Error) :=
  r <- uninstallMod_profileRoot profile ;;
  match r with
  | Ok _ => ret None
  | Throw err =>
      ret (Some (newFileWriteError
                   "Failed to delete BepInEx file from profile root"
                   (thrown_message err)
                   "Is the game still running?"))
  end.

(** Lines 62-85 of [uninstallMod]: what follows the first pass. *)
Definition uninstallMod_afterRoot (mod_ : ManifestV2) (profile : Profile)
  : Fs Disk (option R2Error) :=
  let bepInExLocation := path_join [getPathOfProfile profile; "BepInEx"] in
  present <- exists_ bepInExLocation ;;
  if (present : bool) then
    r <- uninstallMod_bepInEx mod_ bepInExLocation ;;
    match r with
    | Ok _ => ret None
    | Throw err =>
        ret (Some (newR2Error
                     "Failed to remove files"
                     (thrown_message err)
                     "Is the game still running? If so, close it and try again."))
    end
  else ret None.

End UninstallParts.

(** An error of [uninstallMod] and the call that threw: the error carries
  the message thrown and is of the given kind and name. *)
Definition uninstall_error (class : ErrorClass) (name : string)
           (e : R2Error) (ev : Event) : Prop :=
  exists t,
    ev_thrown ev = Some t /\ errMessage e = thrown_message t /\
    errClass e = class /\ errName e = name.

Section UninstallReading.
Context {externals : Externals}.

(** The trace of the inner loop of a successful second pass over the
  listing [folders] of [BepInEx/<file>]: only an entry that carries exactly
  the mod's name is examined, and if it is a directory it is emptied and
  removed. *)
Inductive modFolder_swept (mod_ : ManifestV2) (bepInExLocation file : string)
  : list string -> list Event -> Prop :=
| mfs_done : modFolder_swept mod_ bepInExLocation file [] []
| mfs_other_name folder folders tr :
    folder <> getName mod_ ->
    modFolder_swept mod_ bepInExLocation file folders tr ->
    modFolder_swept mod_ bepInExLocation file (folder :: folders) tr
| mfs_not_a_directory folders st tr :
    isDirectory st = false ->
    modFolder_swept mod_ bepInExLocation file folders tr ->
    modFolder_swept mod_ bepInExLocation file (getName mod_ :: folders)
      (Ev_lstat (path_join [bepInExLocation; file; getName mod_]) (Ok st) :: tr)
| mfs_removed folders tr :
    modFolder_swept mod_ bepInExLocation file folders tr ->
    modFolder_swept mod_ bepInExLocation file (getName mod_ :: folders)
      (Ev_lstat (path_join [bepInExLocation; file; getName mod_]) (Ok StatDirectory)
         :: Ev_emptyDirectory (path_join [bepInExLocation; file; getName mod_]) (Ok tt)
         :: Ev_rmdir (path_join [bepInExLocation; file; getName mod_]) (Ok tt)
         :: tr).

(** The trace of the outer loop of a successful second pass over the
  listing [files] of [BepInEx]: every entry is examined, and the entries
  that are directories are listed and swept. *)
Inductive bepInEx_swept (mod_ : ManifestV2) (bepInExLocation : string)
  : list string -> list Event -> Prop :=
| bs_done : bepInEx_swept mod_ bepInExLocation [] []
| bs_not_a_directory file files st tr :
    isDirectory st = false ->
    bepInEx_swept mod_ bepInExLocation files tr ->
    bepInEx_swept mod_ bepInExLocation (file :: files)
      (Ev_lstat (path_join [bepInExLocation; file]) (Ok st) :: tr)
| bs_directory file files folders inner tr :
    modFolder_swept mod_ bepInExLocation file folders inner ->
    bepInEx_swept mod_ bepInExLocation files tr ->
    bepInEx_swept mod_ bepInExLocation (file :: files)
      (Ev_lstat (path_join [bepInExLocation; file]) (Ok StatDirectory)
         :: Ev_readdir (path_join [bepInExLocation; file]) (Ok folders)
         :: inner ++ tr).

End UninstallReading.

Section MoreReading.
Context {externals : Externals}.

(** How an error of [applyModMode] relates to the call that threw: the
  call is a rename, the error is a plain [R2Error] whose name tells the
  file that was to be renamed and the mode, and it carries the message
  thrown. *)
Definition toggle_error_origin (mode : ModMode) (e : R2Error) (ev : Event) : Prop :=
  match ev with
  | Ev_rename file _ (Throw t) =>
      errClass e = R2ErrorClass /\
      errName e = ("Failed to rename file " ++ file ++ " with ModMode of "
                     ++ mode_to_string mode)%string /\
      errMessage e = thrown_message t
  | _ => False
  end.

(** The calls [installModLoader] makes: a file is copied to its base name
  directly under the profile root, a folder of the payload root to its
  base name directly under the profile root, and the icon into
  [BepInEx/core]. *)
Definition loader_copy (bieLocation location : string) (profile : Profile)
           (ev : Event) : Prop :=
  (exists file r,
      ev = Ev_copyFile file (path_join [getPathOfProfile profile; path_basename file]) r)
  \/ (exists name r,
         ev = Ev_copyFolder (path_join [location; name])
                (path_join [getPathOfProfile profile; path_basename name]) r)
  \/ (exists r,
         ev = Ev_copyFile (path_join [bieLocation; "icon.png"])
                (path_join [getPathOfProfile profile; "BepInEx"; "core"; "icon.png"]) r).

End MoreReading.

(** The calls by which an installation adds to the profile (with the ghost
  event of the resolver), and the calls by which an uninstall looks at the
  profile and removes from it. *)
Definition creates_or_copies (ev : Event) : bool :=
  match ev with
  | Ev_enter _ _ _ | Ev_ensureDirectory _ _ | Ev_copyFile _ _ _
  | Ev_copyFolder _ _ _ => true
  | _ => false
  end.

Definition reads_or_deletes (ev : Event) : bool :=
  match ev with
  | Ev_readdir _ _ | Ev_lstat _ _ | Ev_exists _ _ | Ev_unlink _ _
  | Ev_emptyDirectory _ _ | Ev_rmdir _ _ => true
  | _ => false
  end.

(** ** Letter case, in the words of the specification

  The specification speaks of names that match "case-insensitively".
  What that means is said here without [toLowerCase]: two names are equal
  letter case apart when they have the same length and agree character by
  character, an upper-case letter A-Z standing for its lower-case form.
  On names of ASCII characters this is what the comparison
  [a.toLowerCase() === b.toLowerCase()] decides in JavaScript.  Beyond
  ASCII, JavaScript folds letters the model's [toLowerCase] leaves alone;
  statements that depend on a match or on the absence of one therefore
  ask for ASCII names. *)

Module LetterCase.
Local Open Scope string_scope.

Definition isAsciiChar (c : ascii) : bool := (nat_of_ascii c <? 128)%nat.

Fixpoint isAscii (s : string) : bool :=
  match s with
  | EmptyString => true
  | String c s' => isAsciiChar c && isAscii s'
  end.

Definition isUpperCase (c : ascii) : bool :=
  ((65 <=? nat_of_ascii c)%nat && (nat_of_ascii c <=? 90)%nat)%bool.

(** The same character, or the upper- and the lower-case form of one
  letter. *)
Definition sameLetter (a b : ascii) : bool :=
  Ascii.eqb a b
  || (isUpperCase a && (nat_of_ascii b =? nat_of_ascii a + 32)%nat)
  || (isUpperCase b && (nat_of_ascii a =? nat_of_ascii b + 32)%nat).

Fixpoint equalIgnoringCase (s t : string) : bool :=
  match s, t with
  | EmptyString, EmptyString => true
  | String a s', String b t' => sameLetter a b && equalIgnoringCase s' t'
  | _, _ => false
  end.

(** The last characters of [s], as many as [t] has, equal [t] letter case
  apart. *)
Definition endsWithIgnoringCase (s t : string) : bool :=
  (String.length t <=? String.length s)%nat
  && equalIgnoringCase
       (substring (String.length s - String.length t) (String.length t) s) t.

End LetterCase.
Import LetterCase.

(** Every directory name and every file path of a tree is ASCII. *)
Fixpoint isAsciiTree (t : FileTree) : bool :=
  match t with
  | mkFileTree n fs ds =>
      isAscii n && forallb isAscii fs && forallb isAsciiTree ds
  end.

(** ** Calls that were really made

  A trace records calls and outcomes.  [runs_from d tr d'] says the record
  is true to the provider: started on disk [d], each call of [tr] was put
  to the provider on the disk the calls before it left, the outcome
  recorded is the provider's answer, and [d'] is the disk after the last
  call. *)

Section Performing.
Context {Disk : Type} {provider : FsProvider Disk}.

Definition performs (d : Disk) (ev : Event) (d' : Disk) : Prop :=
  match ev with
  | Ev_readdir p r => fs_readdir p d = (r, d')
  | Ev_lstat p r => fs_lstat p d = (r, d')
  | Ev_exists p r => fs_exists p d = (r, d')
  | Ev_unlink p r => fs_unlink p d = (r, d')
  | Ev_rmdir p r => fs_rmdir p d = (r, d')
  | Ev_emptyDirectory p r => FileUtils_emptyDirectory p d = (r, d')
  | Ev_ensureDirectory p r => FileUtils_ensureDirectory p d = (r, d')
  | Ev_copyFile s t r => fs_copyFile s t d = (r, d')
  | Ev_copyFolder s t r => fs_copyFolder s t d = (r, d')
  | Ev_rename s t r => fs_rename s t d = (r, d')
  | Ev_enter _ _ _ => d' = d
  end.

Inductive runs_from : Disk -> list Event -> Disk -> Prop :=
| runs_nil d : runs_from d [] d
| runs_cons d ev d1 tr d2 :
    performs d ev d1 -> runs_from d1 tr d2 -> runs_from d (ev :: tr) d2.

(** Computations whose trace is true to the provider on every disk. *)
Definition Genuine {A} (m : Fs Disk A) : Prop :=
  forall d, runs_from d (trace_of (m d)) (disk_of (m d)).

End Performing.

(** ** The deployment of a package, in the words of the specification *)

Section Deployment.
Context {externals : Externals}.
Variable rule : RuleType.

(** The rule key a folder name matches: the first key, in the order of the
  rule set, that equals the folder name letter case apart. *)
Definition ruleKeyFor (folderName : string) : option string :=
  find (fun key => equalIgnoringCase key folderName) (Object_keys (rules rule)).

(** Where a folder that matched [key] goes: below the rule's subpath,
  under the mod's name unless the folder is [config]. *)
Definition folder_destination (profile : Profile) (mod_ : ManifestV2)
           (folderName key : string) : string :=
  if equalIgnoringCase folderName "config"
  then path_join [getPathOfProfile profile; Object_get (rules rule) key]
  else path_join [getPathOfProfile profile; Object_get (rules rule) key; getName mod_].

(** Where a loose file goes: [monomod] for a patch file, the default path
  for any other, under the mod's name. *)
Definition loose_destination (profile : Profile) (mod_ : ManifestV2) (file : string)
  : string :=
  if endsWithIgnoringCase file ".mm.dll"
  then path_join [getPathOfProfile profile; "BepInEx"; "monomod"; getName mod_]
  else path_join [getPathOfProfile profile; _defaultPath rule; getName mod_].

(** One step of a deployment: a folder whose name matches a rule key is
  copied as a whole; any other folder is gone into, and each of its files
  placed singly. *)
Inductive Step :=
| WholeFolder (location folderName : string) (directory : FileTree) (dest : string)
| Descend (location folderName : string) (directory : FileTree)
| SingleFile (file dest : string).

(** The steps that deploy the tree found at [location] under the folder
  name [folderName]: a matched folder is terminal, an unmatched one is
  followed by its files and then by its directories, each at its own path
  and under its own name. *)
Fixpoint plan (profile : Profile) (mod_ : ManifestV2) (location folderName : string)
         (tree : FileTree) {struct tree} : list Step :=
  match ruleKeyFor folderName with
  | Some key =>
      [WholeFolder location folderName tree
         (folder_destination profile mod_ folderName key)]
  | None =>
      match tree with
      | mkFileTree _ fs ds =>
          Descend location folderName tree
            :: map (fun file => SingleFile file (loose_destination profile mod_ file)) fs
            ++ flat_map (fun directory =>
                           plan profile mod_
                             (path_join [location; getDirectoryName directory])
                             (getDirectoryName directory) directory) ds
      end
  end.

(** The calls of a step when all of them succeed, after the record that
  the folder was reached. *)
Definition events_of_step (s : Step) : list Event :=
  match s with
  | WholeFolder location folderName directory dest =>
      [Ev_enter location folderName directory;
       Ev_ensureDirectory dest (Ok tt);
       Ev_copyFolder location dest (Ok tt)]
  | Descend location folderName directory =>
      [Ev_enter location folderName directory]
  | SingleFile file dest =>
      [Ev_ensureDirectory dest (Ok tt);
       Ev_copyFile file (path_join [dest; path_basename file]) (Ok tt)]
  end.

(** The files and the directories of the tree a step takes care of. *)
Definition files_of_step (s : Step) : list string :=
  match s with
  | WholeFolder _ _ directory _ => getRecursiveFiles directory
  | Descend _ _ _ => []
  | SingleFile file _ => [file]
  end.

Definition directories_of_step (s : Step) : list FileTree :=
  match s with
  | WholeFolder _ _ directory _ => subtrees directory
  | Descend _ _ directory => [directory]
  | SingleFile _ _ => []
  end.

(** The folder name a step was taken under is the directory's own name. *)
Definition under_own_name (s : Step) : Prop :=
  match s with
  | WholeFolder _ folderName directory _ | Descend _ folderName directory =>
      folderName = getDirectoryName directory
  | SingleFile _ _ => True
  end.

(** The directories of a package that are reached without a rule match:
  the folder the deployment starts from when its folder name matches no
  rule key, and every directory with a name that matches no rule key
  inside a directory reached in this way. *)
Inductive reached_unmatched (folderName : string) (tree : FileTree)
  : FileTree -> Prop :=
| reached_start :
    ruleKeyFor folderName = None ->
    reached_unmatched folderName tree tree
| reached_inside parent directory :
    reached_unmatched folderName tree parent ->
    In directory (getDirectories parent) ->
    ruleKeyFor (getDirectoryName directory) = None ->
    reached_unmatched folderName tree directory.

(** The trace of the first pass of a successful uninstall over the listing
  of the profile root: each entry is examined in turn; a regular file is
  unlinked unless its name is [mods.yml] letter case apart; nothing else
  happens. *)
Inductive root_swept (profile : Profile) : list string -> list Event -> Prop :=
| root_swept_done : root_swept profile [] []
| root_swept_not_a_file file files st tr :
    isFile st = false ->
    root_swept profile files tr ->
    root_swept profile (file :: files)
      (Ev_lstat (path_join [getPathOfProfile profile; file]) (Ok st) :: tr)
| root_swept_reserved file files tr :
    equalIgnoringCase file "mods.yml" = true ->
    root_swept profile files tr ->
    root_swept profile (file :: files)
      (Ev_lstat (path_join [getPathOfProfile profile; file]) (Ok StatFile) :: tr)
| root_swept_deleted file files tr :
    equalIgnoringCase file "mods.yml" = false ->
    root_swept profile files tr ->
    root_swept profile (file :: files)
      (Ev_lstat (path_join [getPathOfProfile profile; file]) (Ok StatFile)
         :: Ev_unlink (path_join [getPathOfProfile profile; file]) (Ok tt) :: tr).

End Deployment.

(** A file name ends with one of the plugin extensions, letter case apart,
  and with one of them followed by [.old]. *)
Definition endsWithPluginExtension (file : string) : bool :=
  existsb (fun ext => endsWithIgnoringCase file ext) modModeExtensions.

Definition endsWithDisabledExtension (file : string) : bool :=
  existsb (fun ext => endsWithIgnoringCase file (ext ++ ".old")%string)
          modModeExtensions.

(** ** A scanner for the in-memory disk and a mod depot *)

Module MemScan.
Import MemFs.
Local Open Scope string_scope.

Definition scanError (location : string) : R2Error :=
  newR2Error "Error building file tree" ("ENOENT: " ++ location) "".

(** [FileTree.buildFromLocation] on the in-memory disk: the entries of a
  directory that are directories themselves become subtrees under their
  name, all others files under their path.  [fuel] bounds the depth. *)
Fixpoint scan (fuel : nat) (name location : string) (d : disk) : R2Error + FileTree :=
  match fuel with
  | O => inl (scanError location)
  | S fuel' =>
      match lookup location d with
      | Some StatDirectory =>
          fold_left
            (fun acc entry =>
               match acc with
               | inl e => inl e
               | inr (mkFileTree n fs ds) =>
                   let path := posix_join [location; entry] in
                   match lookup path d with
                   | Some StatDirectory =>
                       match scan fuel' entry path d with
                       | inl e => inl e
                       | inr sub => inr (mkFileTree n fs (ds ++ [sub])%list)
                       end
                   | _ => inr (mkFileTree n (fs ++ [path])%list ds)
                   end
               end)
            (children location d) (inr (mkFileTree name [] []))
      | _ => inl (scanError location)
      end
  end.

Definition versionOf (mod_ : ManifestV2) : string :=
  if String.eqb (getName mod_) "bbepis-BepInExPack" then "5.4.2100" else "1.0.0".

#[export] Instance environment : InstallEnvironment disk := {
  FileTree_buildFromLocation := fun location d => (scan (length d) "" location d, d);
  PathResolver_MOD_ROOT := "/mods";
  getVersionNumber := versionOf
}.

(** A depot with the loader package and Foo, and an empty profile. *)
Definition depot : disk :=
  [("/mods", StatDirectory);
   ("/mods/cache", StatDirectory);
   ("/mods/cache/bbepis-BepInExPack", StatDirectory);
   ("/mods/cache/bbepis-BepInExPack/5.4.2100", StatDirectory);
   ("/mods/cache/bbepis-BepInExPack/5.4.2100/icon.png", StatFile);
   ("/mods/cache/bbepis-BepInExPack/5.4.2100/manifest.json", StatFile);
   ("/mods/cache/bbepis-BepInExPack/5.4.2100/BepInExPack", StatDirectory);
   ("/mods/cache/bbepis-BepInExPack/5.4.2100/BepInExPack/winhttp.dll", StatFile);
   ("/mods/cache/bbepis-BepInExPack/5.4.2100/BepInExPack/doorstop_config.ini", StatFile);
   ("/mods/cache/bbepis-BepInExPack/5.4.2100/BepInExPack/BepInEx", StatDirectory);
   ("/mods/cache/bbepis-BepInExPack/5.4.2100/BepInExPack/BepInEx/core", StatDirectory);
   ("/mods/cache/bbepis-BepInExPack/5.4.2100/BepInExPack/BepInEx/core/BepInEx.dll",
    StatFile);
   ("/mods/cache/Foo", StatDirectory);
   ("/mods/cache/Foo/1.0.0", StatDirectory);
   ("/mods/cache/Foo/1.0.0/manifest.json", StatFile);
   ("/mods/cache/Foo/1.0.0/Foo.mm.dll", StatFile);
   ("/mods/cache/Foo/1.0.0/plugins", StatDirectory);
   ("/mods/cache/Foo/1.0.0/plugins/Foo.dll", StatFile);
   ("/profile", StatDirectory);
   ("/profile/mods.yml", StatFile)].

End MemScan.

(** ** Further inputs: a nested patch file, the reserved name in two letter
  cases, and a plugin disabled by hand *)

Module Edge.
Import MemFs.
Local Open Scope string_scope.

Definition Bar : ManifestV2 := mkManifest "Bar".

Definition cache : string := "/cache/Bar/1.0.0".

(** A package whose patch file lies in a folder below [plugins]. *)
Definition package : FileTree :=
  mkFileTree "1.0.0" ["/cache/Bar/1.0.0/manifest.json"]
    [mkFileTree "plugins" ["/cache/Bar/1.0.0/plugins/Bar.dll"]
       [mkFileTree "sub" ["/cache/Bar/1.0.0/plugins/sub/Patch.mm.dll"] []]].

Definition disk : MemFs.disk :=
  [("/cache/Bar/1.0.0", StatDirectory);
   ("/cache/Bar/1.0.0/manifest.json", StatFile);
   ("/cache/Bar/1.0.0/plugins", StatDirectory);
   ("/cache/Bar/1.0.0/plugins/Bar.dll", StatFile);
   ("/cache/Bar/1.0.0/plugins/sub", StatDirectory);
   ("/cache/Bar/1.0.0/plugins/sub/Patch.mm.dll", StatFile);
   ("/profile", StatDirectory);
   ("/profile/mods.yml", StatFile)].

(** A profile root that holds the reserved file in two letter cases. *)
Definition root : MemFs.disk :=
  [("/profile", StatDirectory);
   ("/profile/mods.yml", StatFile);
   ("/profile/MODS.YML", StatFile);
   ("/profile/winhttp.dll", StatFile)].

(** An enabled plugin next to one that was disabled by hand, with the
  suffix in upper case. *)
Definition toggled : MemFs.disk :=
  [("/profile/BepInEx/plugins/Foo", StatDirectory);
   ("/profile/BepInEx/plugins/Foo/Foo.dll", StatFile);
   ("/profile/BepInEx/plugins/Foo/Bar.dll.OLD", StatFile)].

End Edge.

(** * Properties *)

(** ** Strings *)

Module JsStringFacts.
Local Open Scope string_scope.

Lemma length_append (a b : string) :
  String.length (a ++ b) = String.length a + String.length b.
Proof. induction a as [|c a IH]; simpl; [reflexivity | now rewrite IH]. Qed.

Lemma append_assoc (a b c : string) : (a ++ b) ++ c = a ++ (b ++ c).
Proof. induction a as [|x a IH]; simpl; [reflexivity | now rewrite IH]. Qed.

Lemma append_nil_r (a : string) : a ++ "" = a.
Proof. induction a as [|x a IH]; simpl; [reflexivity | now rewrite IH]. Qed.

Lemma substring_all (s : string) : substring 0 (String.length s) s = s.
Proof. induction s as [|c s IH]; simpl; [reflexivity | now rewrite IH]. Qed.

Lemma substring_skip (p t : string) (m : nat) :
  substring (String.length p) m (p ++ t) = substring 0 m t.
Proof. induction p as [|c p IH]; simpl; [reflexivity | exact IH]. Qed.

Lemma substring0_append (p t : string) :
  substring 0 (String.length p) (p ++ t) = p.
Proof.
  induction p as [|c p IH]; simpl.
  - destruct t; reflexivity.
  - now rewrite IH.
Qed.

(** Splitting a string at position [n <= length s]. *)
Lemma substring_split (s : string) (n : nat) :
  n <= String.length s ->
  s = substring 0 n s ++ substring n (String.length s - n) s.
Proof.
  revert n; induction s as [|c s IH]; intros n Hn; simpl in *.
  - destruct n; [reflexivity | lia].
  - destruct n as [|n]; simpl.
    + now rewrite substring_all.
    + rewrite <- IH by lia. reflexivity.
Qed.

Lemma endsWith_append (p t : string) : endsWith (p ++ t) t = true.
Proof.
  unfold endsWith. rewrite length_append.
  replace (String.length t <=? String.length p + String.length t)%nat with true
    by (symmetry; apply Nat.leb_le; lia).
  replace (String.length p + String.length t - String.length t)
    with (String.length p) by lia.
  rewrite substring_skip, substring_all. apply String.eqb_refl.
Qed.

Lemma endsWith_inv (s t : string) :
  endsWith s t = true -> exists p, s = p ++ t.
Proof.
  unfold endsWith. destruct (Nat.leb_spec (String.length t) (String.length s)) as [Hle|];
    [|discriminate].
  intros H. apply String.eqb_eq in H.
  exists (substring 0 (String.length s - String.length t) s).
  pose proof (substring_split s (String.length s - String.length t)) as Hs.
  replace (String.length s - (String.length s - String.length t))
    with (String.length t) in Hs by lia.
  rewrite H in Hs. apply Hs. lia.
Qed.

Lemma endsWith_iff (s t : string) :
  endsWith s t = true <-> exists p, s = p ++ t.
Proof.
  split; [apply endsWith_inv|]. intros [p ->]. apply endsWith_append.
Qed.

(** Two suffixes of the same string that have the same length are equal. *)
Lemma append_same_length_inv (p q a b : string) :
  p ++ a = q ++ b -> String.length a = String.length b -> p = q /\ a = b.
Proof.
  revert q; induction p as [|c p IH]; intros q Heq Hlen.
  - destruct q as [|d q]; simpl in *; [now split|].
    apply (f_equal String.length) in Heq. simpl in Heq.
    rewrite length_append in Heq. lia.
  - destruct q as [|d q]; simpl in *.
    + apply (f_equal String.length) in Heq. simpl in Heq.
      rewrite length_append in Heq. lia.
    + injection Heq as -> Heq. destruct (IH q Heq Hlen) as [-> ->]. now split.
Qed.

Lemma endsWith_trans (s t u : string) :
  endsWith s t = true -> endsWith t u = true -> endsWith s u = true.
Proof.
  rewrite !endsWith_iff. intros [p ->] [q ->].
  exists (p ++ q). now rewrite append_assoc.
Qed.

Lemma endsWith_same_length (s a b : string) :
  endsWith s a = true -> endsWith s b = true ->
  String.length a = String.length b -> a = b.
Proof.
  rewrite !endsWith_iff. intros [p Hp] [q Hq] Hlen.
  rewrite Hp in Hq. now destruct (append_same_length_inv _ _ _ _ Hq Hlen).
Qed.

Lemma toLowerCase_append (a b : string) :
  toLowerCase (a ++ b) = toLowerCase a ++ toLowerCase b.
Proof. induction a as [|c a IH]; simpl; [reflexivity | now rewrite IH]. Qed.

Lemma lower_ascii_idem (c : ascii) : lower_ascii (lower_ascii c) = lower_ascii c.
Proof.
  destruct c as [[] [] [] [] [] [] [] []]; reflexivity.
Qed.

Lemma toLowerCase_idem (s : string) : toLowerCase (toLowerCase s) = toLowerCase s.
Proof.
  induction s as [|c s IH]; simpl; [reflexivity|].
  now rewrite lower_ascii_idem, IH.
Qed.

End JsStringFacts.
Import JsStringFacts.

(** ** Runs of the monad *)

Section MonadFacts.
Context {Disk : Type} {provider : FsProvider Disk}.

Lemma bind_unfold {A B} (m : Fs Disk A) (f : A -> Fs Disk B) (d : Disk) :
  bind m f d =
  (result_of (f (result_of (m d)) (disk_of (m d))),
   disk_of (f (result_of (m d)) (disk_of (m d))),
   trace_of (m d) ++ trace_of (f (result_of (m d)) (disk_of (m d)))).
Proof.
  unfold bind, result_of, disk_of, trace_of.
  destruct (m d) as [[a d1] t1]; simpl.
  destruct (f a d1) as [[b d2] t2]; reflexivity.
Qed.

Lemma bind_result {A B} (m : Fs Disk A) (f : A -> Fs Disk B) d :
  result_of (bind m f d) = result_of (f (result_of (m d)) (disk_of (m d))).
Proof. now rewrite bind_unfold. Qed.

Lemma bind_disk {A B} (m : Fs Disk A) (f : A -> Fs Disk B) d :
  disk_of (bind m f d) = disk_of (f (result_of (m d)) (disk_of (m d))).
Proof. now rewrite bind_unfold. Qed.

Lemma bind_trace {A B} (m : Fs Disk A) (f : A -> Fs Disk B) d :
  trace_of (bind m f d) =
  trace_of (m d) ++ trace_of (f (result_of (m d)) (disk_of (m d))).
Proof. now rewrite bind_unfold. Qed.

Lemma call_trace {A} (f : Disk -> A * Disk) (ev : A -> Event) d :
  trace_of (call f ev d) = [ev (result_of (call f ev d))].
Proof. unfold call, trace_of, result_of. now destruct (f d). Qed.

Lemma Forall_ok_app (a b : list Event) :
  Forall ev_ok a -> Forall ev_ok b -> Forall ev_ok (a ++ b).
Proof. intros; apply Forall_app; now split. Qed.

Lemma fail_fastT_ret {A} (a : A) (d : Disk) :
  fail_fastT (result_of (ret (Ok a) d)) (trace_of (ret (Ok a) d)).
Proof. constructor. Qed.

Lemma FailFastT_ret {A} (a : A) : FailFastT (@ret Disk _ (Ok a)).
Proof. intro d. constructor. Qed.

Lemma FailFastT_call {A} (f : Disk -> Result A * Disk) (ev : Result A -> Event) :
  (forall r, ev_thrown (ev r) = result_thrown r) ->
  FailFastT (call f ev).
Proof.
  intros Hev d. rewrite call_trace.
  destruct (result_of (call f ev d)) as [a|t] eqn:E; simpl.
  - constructor; [|constructor]. unfold ev_ok. now rewrite Hev.
  - exists [], (ev (Throw t)). repeat split; [constructor|]. now rewrite Hev.
Qed.

Lemma FailFastT_bindT {A B} (m : Fs Disk (Result A)) (f : A -> Fs Disk (Result B)) :
  FailFastT m -> (forall a, FailFastT (f a)) -> FailFastT (bindT m f).
Proof.
  intros Hm Hf d. unfold bindT. rewrite bind_result, bind_trace.
  specialize (Hm d). destruct (result_of (m d)) as [a|t]; simpl in *.
  - specialize (Hf a (disk_of (m d))).
    destruct (result_of (f a (disk_of (m d)))) as [b|t]; simpl in *.
    + now apply Forall_ok_app.
    + destruct Hf as (pre & ev & -> & Hpre & Hev).
      exists (trace_of (m d) ++ pre), ev. rewrite app_assoc.
      repeat split; [now apply Forall_ok_app | exact Hev].
  - rewrite app_nil_r. exact Hm.
Qed.

Lemma FailFastT_forEachT {A} (f : A -> Fs Disk (Result unit)) (xs : list A) :
  (forall x, FailFastT (f x)) -> FailFastT (forEachT f xs).
Proof.
  intros Hf. induction xs as [|x xs IH]; simpl.
  - apply FailFastT_ret.
  - apply FailFastT_bindT; [apply Hf | intros _; exact IH].
Qed.

Lemma FailFast_ret_None : FailFast (@ret Disk _ None).
Proof. intro d. constructor. Qed.

(** Sequencing two fail-fast steps, the second of which only runs when the
  first returned no error. *)
Lemma FailFast_bind (m k : Fs Disk (option R2Error)) :
  FailFast m -> FailFast k ->
  FailFast (bind m (fun e => match e with Some err => ret (Some err) | None => k end)).
Proof.
  intros Hm Hk d. rewrite bind_result, bind_trace.
  specialize (Hm d). destruct (result_of (m d)) as [e|]; simpl in *.
  - rewrite app_nil_r. exact Hm.
  - specialize (Hk (disk_of (m d))).
    destruct (result_of (k (disk_of (m d)))) as [e|]; simpl in *.
    + destruct Hk as (pre & ev & t & -> & Hpre & Hev & Hmsg).
      exists (trace_of (m d) ++ pre), ev, t. rewrite app_assoc.
      repeat split; [now apply Forall_ok_app | exact Hev | exact Hmsg].
    + now apply Forall_ok_app.
Qed.

Lemma FailFast_forEach {A} (f : A -> Fs Disk (option R2Error)) (xs : list A) :
  (forall x, In x xs -> FailFast (f x)) -> FailFast (forEach f xs).
Proof.
  induction xs as [|x xs IH]; intros Hf; simpl.
  - apply FailFast_ret_None.
  - apply FailFast_bind; [apply Hf; now left | apply IH; intros y Hy; apply Hf; now right].
Qed.

(** Leaving a [try] block: the catch clause turns what was thrown into one
  error that carries its message. *)
Lemma FailFast_catch {A} (m : Fs Disk (Result A)) (handler : Thrown -> R2Error) :
  FailFastT m ->
  (forall t, errMessage (handler t) = thrown_message t) ->
  FailFast (bind m (fun r => match r with
                             | Ok _ => ret None
                             | Throw t => ret (Some (handler t))
                             end)).
Proof.
  intros Hm Hh d. rewrite bind_result, bind_trace.
  specialize (Hm d). destruct (result_of (m d)) as [a|t]; simpl in *; rewrite app_nil_r.
  - exact Hm.
  - destruct Hm as (pre & ev & -> & Hpre & Hev).
    exists pre, ev, t. repeat split; auto.
Qed.

End MonadFacts.

(** ** Unfolding the recursive functions *)

Section InstallerFacts.
Context {Disk : Type} {provider : FsProvider Disk} {externals : Externals}.
Variable rule : RuleType.
Variable bepInExVariant : list ModLoaderPackageMapping.

Lemma resolveBepInExTree_eq profile location folderName mod_ tree :
  resolveBepInExTree rule profile location folderName mod_ tree =
  (_ <- enter location folderName tree ;;
   match matchingEndFolderName rule folderName with
   | Some matching =>
       resolveBepInExTree_matched rule profile location folderName mod_ matching
   | None =>
       fileError <-
         forEach (resolveBepInExTree_file rule profile location mod_) (getFiles tree) ;;
       match fileError with
       | Some e => ret (Some e)
       | None =>
           forEach (fun directory =>
                      resolveBepInExTree rule profile
                        (path_join [location; getDirectoryName directory])
                        (getDirectoryName directory) mod_ directory)
                   (getDirectories tree)
       end
   end).
Proof. destruct tree; reflexivity. Qed.

Lemma applyModMode_eq mod_ tree profile location mode :
  applyModMode mod_ tree profile location mode =
  (collected <-
     applyModMode_directories mod_ profile location mode (getDirectories tree) [] ;;
   match collected with
   | inl applyError => ret (Some applyError)
   | inr files => applyModMode_files mode files
   end).
Proof. destruct tree; reflexivity. Qed.

(** ** Fail-fast propagation *)

Lemma FailFast_enter location folderName tree (m : Fs Disk (option R2Error)) :
  FailFast m -> FailFast (_ <- enter location folderName tree ;; m).
Proof.
  intros Hm d. specialize (Hm d).
  unfold bind, enter, result_of, trace_of in *.
  destruct (m d) as [[[e|] d'] tr]; simpl in *.
  - destruct Hm as (pre & ev & t & -> & Hpre & Hev & Hmsg).
    exists (Ev_enter location folderName tree :: pre), ev, t.
    repeat split; auto. constructor; [reflexivity | exact Hpre].
  - constructor; [reflexivity | exact Hm].
Qed.

Lemma FailFast_resolve_file profile location mod_ file :
  FailFast (resolveBepInExTree_file rule profile location mod_ file).
Proof.
  intro d. unfold resolveBepInExTree_file.
  set (dest := if endsWith (toLowerCase file) ".mm.dll" then _ else _).
  unfold ensureDirectory, copyFile, bind, call, ret, result_of, trace_of.
  destruct (FileUtils_ensureDirectory dest d) as [[[]|[m|e]] d1]; simpl.
  - destruct (fs_copyFile file (path_join [dest; path_basename file]) d1)
      as [[[]|[m|e]] d2]; simpl.
    + repeat constructor.
    + exists [Ev_ensureDirectory dest (Ok tt)], 
             (Ev_copyFile file (path_join [dest; path_basename file])
                          (Throw (ThrownError m))), (ThrownError m).
      repeat split. repeat constructor.
    + exists [Ev_ensureDirectory dest (Ok tt)], 
             (Ev_copyFile file (path_join [dest; path_basename file])
                          (Throw (ThrownR2 e))), (ThrownR2 e).
      repeat split. repeat constructor.
  - exists [], (Ev_ensureDirectory dest (Throw (ThrownError m))), (ThrownError m).
    repeat split. constructor.
  - exists [], (Ev_ensureDirectory dest (Throw (ThrownR2 e))), (ThrownR2 e).
    repeat split. constructor.
Qed.

Lemma FailFast_resolve_matched profile location folderName mod_ matching :
  FailFast (resolveBepInExTree_matched rule profile location folderName mod_ matching).
Proof.
  intro d. unfold resolveBepInExTree_matched.
  set (dest := if negb _ then _ else _).
  unfold ensureDirectory, copyFolder, bind, call, ret, result_of, trace_of.
  destruct (FileUtils_ensureDirectory dest d) as [[[]|t] d1]; simpl.
  - destruct (fs_copyFolder location dest d1) as [[[]|t] d2]; simpl.
    + repeat constructor.
    + exists [Ev_ensureDirectory dest (Ok tt)],
             (Ev_copyFolder location dest (Throw t)), t.
      repeat split. repeat constructor.
  - exists [], (Ev_ensureDirectory dest (Throw t)), t.
    repeat split. constructor.
Qed.

Lemma FailFast_resolveBepInExTree profile mod_ tree :
  forall location folderName,
    FailFast (resolveBepInExTree rule profile location folderName mod_ tree).
Proof.
  induction tree as [n fs ds IH] using FileTree_rect_nested.
  intros location folderName. rewrite resolveBepInExTree_eq.
  apply FailFast_enter.
  destruct (matchingEndFolderName rule folderName) as [matching|].
  - apply FailFast_resolve_matched.
  - apply FailFast_bind.
    + apply FailFast_forEach. intros file _. apply FailFast_resolve_file.
    + apply FailFast_forEach. intros directory Hin. simpl in Hin.
      rewrite Forall_forall in IH. now apply IH.
Qed.

Lemma FailFastT_applyModMode_file mode file :
  FailFastT (applyModMode_file mode file).
Proof.
  destruct mode; unfold applyModMode_file; apply FailFastT_forEachT; intros ext;
    match goal with |- context [if ?c then _ else _] => destruct c end;
    try apply FailFastT_ret; apply FailFastT_call; reflexivity.
Qed.

Lemma FailFast_applyModMode_files mode files :
  FailFast (applyModMode_files mode files).
Proof.
  unfold applyModMode_files. apply FailFast_forEach. intros file _.
  apply (FailFast_catch (applyModMode_file mode file)
           (fun err => newR2Error _ (thrown_message err) _)).
  - apply FailFastT_applyModMode_file.
  - reflexivity.
Qed.

Lemma FailFast_applyModMode mod_ profile mode tree :
  forall location, FailFast (applyModMode mod_ tree profile location mode).
Proof.
  induction tree as [n fs ds IH] using FileTree_rect_nested.
  intros location. rewrite applyModMode_eq. simpl getDirectories.
  assert (Hdirs : forall files d,
             match result_of (applyModMode_directories mod_ profile location mode ds files d) with
             | inl e => fail_fast (Some e)
                          (trace_of (applyModMode_directories mod_ profile location mode ds files d))
             | inr _ => Forall ev_ok
                          (trace_of (applyModMode_directories mod_ profile location mode ds files d))
             end).
  { induction IH as [|directory ds' Hdir _ IHds]; intros files d; simpl.
    - constructor.
    - destruct (negb _).
      + rewrite bind_result, bind_trace.
        specialize (Hdir (path_join [location; getDirectoryName directory]) d).
        destruct (result_of (applyModMode mod_ directory profile _ mode d)) as [e|];
          simpl in *.
        * now rewrite app_nil_r.
        * specialize (IHds files
            (disk_of (applyModMode mod_ directory profile
                        (path_join [location; getDirectoryName directory]) mode d))).
          destruct (result_of (applyModMode_directories _ _ _ _ ds' files _)) as [e|fs'].
          -- destruct IHds as (pre & ev & t & -> & Hpre & Hev & Hmsg).
             eexists (_ ++ pre), ev, t. rewrite app_assoc.
             repeat split; [now apply Forall_ok_app | exact Hev | exact Hmsg].
          -- now apply Forall_ok_app.
      + apply IHds. }
  intro d. rewrite bind_result, bind_trace. specialize (Hdirs [] d).
  destruct (result_of (applyModMode_directories mod_ profile location mode ds [] d))
    as [e|files]; simpl.
  - now rewrite app_nil_r.
  - pose proof (FailFast_applyModMode_files mode files
                  (disk_of (applyModMode_directories mod_ profile location mode ds [] d)))
      as Hfiles.
    destruct (result_of (applyModMode_files mode files _)) as [e|]; simpl in *.
    + destruct Hfiles as (pre & ev & t & -> & Hpre & Hev & Hmsg).
      eexists (_ ++ pre), ev, t. rewrite app_assoc.
      repeat split; [now apply Forall_ok_app | exact Hev | exact Hmsg].
    + now apply Forall_ok_app.
Qed.

End InstallerFacts.

(** ** Successful runs of [resolveBepInExTree] *)

Section ResolveFacts.
Context {Disk : Type} {provider : FsProvider Disk} {externals : Externals}.
Variable rule : RuleType.

(** A loop that returns no error ran its body on every element, and every
  one of these runs returned no error. *)
Lemma forEach_success {A} (f : A -> Fs Disk (option R2Error)) (xs : list A) :
  forall d,
    result_of (forEach f xs d) = None ->
    exists trs,
      trace_of (forEach f xs d) = concat trs /\
      Forall2 (fun x tr => exists d', result_of (f x d') = None /\ tr = trace_of (f x d'))
              xs trs.
Proof.
  induction xs as [|x xs IH]; intros d Hres; simpl in *.
  - exists []. split; [reflexivity | constructor].
  - rewrite bind_result in Hres. rewrite bind_trace.
    destruct (result_of (f x d)) as [e|] eqn:Ex; [discriminate|].
    destruct (IH _ Hres) as (trs & Htr & Hall).
    exists (trace_of (f x d) :: trs). simpl. rewrite Htr. split; [reflexivity|].
    constructor; [|exact Hall]. exists d. now split.
Qed.

Lemma flat_map_concat_Forall2 {A B} (g : Event -> list B) (h : A -> list B)
      (xs : list A) (trs : list (list Event)) :
  Forall2 (fun x tr => flat_map g tr = h x) xs trs ->
  flat_map g (concat trs) = flat_map h xs.
Proof.
  induction 1 as [|x tr xs trs Hx _ IH]; simpl; [reflexivity|].
  now rewrite flat_map_app, Hx, IH.
Qed.

Lemma resolve_file_success profile location mod_ file d :
  result_of (resolveBepInExTree_file rule profile location mod_ file d) = None ->
  trace_of (resolveBepInExTree_file rule profile location mod_ file d) =
  [Ev_ensureDirectory (file_destination rule profile mod_ file) (Ok tt);
   Ev_copyFile file
     (path_join [file_destination rule profile mod_ file; path_basename file]) (Ok tt)].
Proof.
  unfold resolveBepInExTree_file, file_destination.
  set (dest := if endsWith (toLowerCase file) ".mm.dll" then _ else _).
  unfold ensureDirectory, copyFile, bind, call, ret, result_of, trace_of.
  destruct (FileUtils_ensureDirectory dest d) as [[[]|[m|e]] d1]; simpl;
    try discriminate.
  destruct (fs_copyFile file (path_join [dest; path_basename file]) d1)
    as [[[]|[m|e]] d2]; simpl; try discriminate.
  reflexivity.
Qed.

Lemma resolve_matched_success profile location folderName mod_ matching d :
  let dest :=
    if negb (String.eqb (toLowerCase folderName) "config")
    then path_join [getPathOfProfile profile; Object_get (rules rule) matching;
                    getName mod_]
    else path_join [getPathOfProfile profile; Object_get (rules rule) matching] in
  result_of (resolveBepInExTree_matched rule profile location folderName mod_ matching d)
    = None ->
  trace_of (resolveBepInExTree_matched rule profile location folderName mod_ matching d) =
  [Ev_ensureDirectory dest (Ok tt); Ev_copyFolder location dest (Ok tt)].
Proof.
  intros dest. unfold resolveBepInExTree_matched. fold dest.
  unfold ensureDirectory, copyFolder, bind, call, ret, result_of, trace_of.
  destruct (FileUtils_ensureDirectory dest d) as [[[]|t] d1]; simpl; try discriminate.
  destruct (fs_copyFolder location dest d1) as [[[]|t] d2]; simpl; try discriminate.
  reflexivity.
Qed.

(** The shape of a successful run that took the no-match branch. *)
Lemma resolve_unmatched_success profile location folderName mod_ tree d :
  matchingEndFolderName rule folderName = None ->
  result_of (resolveBepInExTree rule profile location folderName mod_ tree d) = None ->
  exists dirTraces,
    trace_of (resolveBepInExTree rule profile location folderName mod_ tree d) =
    Ev_enter location folderName tree
      :: flat_map (fun file =>
           [Ev_ensureDirectory (file_destination rule profile mod_ file) (Ok tt);
            Ev_copyFile file
              (path_join [file_destination rule profile mod_ file; path_basename file])
              (Ok tt)]) (getFiles tree)
      ++ concat dirTraces /\
    Forall2 (fun directory tr =>
               exists d',
                 result_of (resolveBepInExTree rule profile
                              (path_join [location; getDirectoryName directory])
                              (getDirectoryName directory) mod_ directory d') = None /\
                 tr = trace_of (resolveBepInExTree rule profile
                                  (path_join [location; getDirectoryName directory])
                                  (getDirectoryName directory) mod_ directory d'))
            (getDirectories tree) dirTraces.
Proof.
  intros Hno. rewrite resolveBepInExTree_eq, Hno.
  rewrite bind_result, bind_trace. cbn [enter trace_of result_of disk_of fst snd].
  rewrite bind_result, bind_trace.
  destruct (result_of (forEach (resolveBepInExTree_file rule profile location mod_)
                               (getFiles tree) d)) as [e|] eqn:Efiles.
  - discriminate.
  - intros Hdirs.
    destruct (forEach_success _ _ _ Efiles) as (fileTraces & Hft & Hfiles).
    destruct (forEach_success _ _ _ Hdirs) as (dirTraces & Hdt & Hds).
    exists dirTraces. split; [|exact Hds].
    simpl. f_equal. rewrite Hft, Hdt. f_equal.
    clear - Hfiles. induction Hfiles as [|file tr files trs Hx _ IH]; simpl.
    + reflexivity.
    + destruct Hx as (d' & Hres & ->). rewrite IH.
      now rewrite (resolve_file_success _ _ _ _ _ Hres).
Qed.

Lemma resolve_success_first_event profile location folderName mod_ tree d :
  exists rest,
    trace_of (resolveBepInExTree rule profile location folderName mod_ tree d) =
    Ev_enter location folderName tree :: rest.
Proof.
  rewrite resolveBepInExTree_eq, bind_trace. simpl. eexists. reflexivity.
Qed.

End ResolveFacts.

(** ** Every file and every directory is handled once *)

Section Coverage.
Context {Disk : Type} {provider : FsProvider Disk} {externals : Externals}.
Variable rule : RuleType.

Lemma Forall2_strengthen {A B} (P : A -> Prop) (Q R : A -> B -> Prop) xs ys :
  Forall P xs -> Forall2 Q xs ys ->
  (forall x y, P x -> Q x y -> R x y) ->
  Forall2 R xs ys.
Proof.
  intros HP HQ Himp. induction HQ as [|x y xs ys Hxy _ IH]; constructor.
  - apply Himp; [now inversion HP | exact Hxy].
  - apply IH. now inversion HP.
Qed.

Lemma Forall2_right {A B} (Q : A -> B -> Prop) (R : B -> Prop) xs ys :
  Forall2 Q xs ys -> (forall x y, Q x y -> R y) -> Forall R ys.
Proof. induction 1; intros Himp; constructor; eauto. Qed.

Lemma flat_map_concat_agree {B} (g h : Event -> list B) (trs : list (list Event)) :
  Forall (fun tr => flat_map g tr = flat_map h tr) trs ->
  flat_map g (concat trs) = flat_map h (concat trs).
Proof.
  induction 1 as [|tr trs Htr _ IH]; simpl; [reflexivity|].
  now rewrite !flat_map_app, Htr, IH.
Qed.

Section FileEvents.
Variables (profile : Profile) (mod_ : ManifestV2).

Lemma file_events_files fs :
  flat_map (files_handled rule) (file_events rule profile mod_ fs) = fs.
Proof. induction fs as [|f fs IH]; simpl; [reflexivity | now rewrite IH]. Qed.

Lemma file_events_directories fs :
  flat_map (directories_handled rule) (file_events rule profile mod_ fs) = [].
Proof. induction fs as [|f fs IH]; simpl; [reflexivity | exact IH]. Qed.

Lemma file_events_folder_copies fs :
  folder_copies (file_events rule profile mod_ fs) = [].
Proof. induction fs as [|f fs IH]; simpl; [reflexivity | exact IH]. Qed.

Lemma file_events_matched_locations fs :
  matched_locations rule (file_events rule profile mod_ fs) = [].
Proof. induction fs as [|f fs IH]; simpl; [reflexivity | exact IH]. Qed.

Lemma file_events_no_enter fs location folderName tree :
  ~ In (Ev_enter location folderName tree) (file_events rule profile mod_ fs).
Proof.
  induction fs as [|f fs IH]; simpl; [tauto|].
  intros [H|[H|H]]; try discriminate. now apply IH.
Qed.
End FileEvents.

Lemma resolve_tiles profile mod_ tree :
  forall location folderName d,
    result_of (resolveBepInExTree rule profile location folderName mod_ tree d) = None ->
    handles_exactly_once rule
      (trace_of (resolveBepInExTree rule profile location folderName mod_ tree d)) tree /\
    entered_by_own_name
      (tl (trace_of (resolveBepInExTree rule profile location folderName mod_ tree d))).
Proof.
  induction tree as [n fs ds IH] using FileTree_rect_nested.
  intros location folderName d Hres.
  destruct (matchingEndFolderName rule folderName) as [matching|] eqn:Hm.
  - (* terminal match: one whole-folder copy *)
    revert Hres. rewrite resolveBepInExTree_eq, Hm, bind_result, bind_trace.
    cbn [enter trace_of result_of disk_of fst snd]. intros Hres.
    rewrite (resolve_matched_success _ _ _ _ _ _ _ Hres).
    split; [split; [|split]|].
    + simpl. rewrite Hm. now rewrite app_nil_r.
    + simpl. rewrite Hm. now rewrite app_nil_r.
    + unfold folder_copies, matched_locations. simpl. now rewrite Hm.
    + intros l f t [H|[H|[]]]; discriminate.
  - destruct (resolve_unmatched_success rule _ _ _ _ _ _ Hm Hres)
      as (dirTraces & -> & Hdirs).
    fold (file_events rule profile mod_ (getFiles (mkFileTree n fs ds))).
    cbn [getFiles getDirectories] in *.
    assert (Hsub : Forall2 (fun directory tr =>
                handles_exactly_once rule tr directory /\
                (forall l f t, In (Ev_enter l f t) tr -> f = getDirectoryName t))
              ds dirTraces).
    { apply (Forall2_strengthen _ _ _ _ _ IH Hdirs).
      intros directory tr HP (d' & Hnone & ->).
      destruct (HP _ _ _ Hnone) as [Hh Hown]. split; [exact Hh|].
      destruct (resolve_success_first_event rule profile
                  (path_join [location; getDirectoryName directory])
                  (getDirectoryName directory) mod_ directory d') as [rest Hrest].
      rewrite Hrest in *. intros l f t [Hin|Hin].
      - now inversion Hin.
      - now apply (Hown l f t). }
    split; [split; [|split]|].
    + cbn [flat_map files_handled]. rewrite Hm, flat_map_app, file_events_files.
      simpl. f_equal. apply flat_map_concat_Forall2.
      eapply Forall2_impl; [|exact Hsub]. intros a b [[H _] _]. exact H.
    + cbn [flat_map directories_handled]. rewrite Hm, flat_map_app, file_events_directories.
      simpl. f_equal. apply flat_map_concat_Forall2.
      eapply Forall2_impl; [|exact Hsub]. intros a b [[_ [H _]] _]. exact H.
    + unfold folder_copies, matched_locations. cbn [flat_map]. rewrite Hm.
      rewrite !flat_map_app. simpl.
      fold (folder_copies (file_events rule profile mod_ fs)).
      fold (matched_locations rule (file_events rule profile mod_ fs)).
      rewrite file_events_folder_copies, file_events_matched_locations. simpl.
      apply flat_map_concat_agree.
      apply (Forall2_right _ _ _ _ Hsub). intros a b [[_ [_ H]] _]. exact H.
    + cbn [tl]. intros l f t Hin. apply in_app_or in Hin. destruct Hin as [Hin|Hin].
      * now apply file_events_no_enter in Hin.
      * apply in_concat in Hin. destruct Hin as (tr & Htr & Hin).
        assert (Hall : Forall (fun tr => forall l f t,
                                   In (Ev_enter l f t) tr -> f = getDirectoryName t)
                              dirTraces).
        { apply (Forall2_right _ _ _ _ Hsub). intros a b [_ H]. exact H. }
        rewrite Forall_forall in Hall. now apply (Hall tr Htr l f t).
Qed.

End Coverage.

(** ** The two passes of [uninstallMod] *)

Section UninstallFacts.
Context {Disk : Type} {provider : FsProvider Disk} {externals : Externals}.
Variable bepInExVariant : list ModLoaderPackageMapping.

Lemma forEachT_trace_closed {A} (Q : list Event -> Prop)
      (f : A -> Fs Disk (Result unit)) :
  Q [] -> (forall a b, Q a -> Q b -> Q (a ++ b)) ->
  (forall x d, Q (trace_of (f x d))) ->
  forall xs d, Q (trace_of (forEachT f xs d)).
Proof.
  intros Hnil Happ Hf. induction xs as [|x xs IH]; intros d; simpl.
  - exact Hnil.
  - unfold bindT. rewrite bind_trace. apply Happ; [apply Hf|].
    destruct (result_of (f x d)); [apply IH | exact Hnil].
Qed.

Lemma forEachT_success {A} (f : A -> Fs Disk (Result unit)) (xs : list A) :
  forall d,
    result_of (forEachT f xs d) = Ok tt ->
    exists trs,
      trace_of (forEachT f xs d) = concat trs /\
      Forall2 (fun x tr => exists d', result_of (f x d') = Ok tt /\ tr = trace_of (f x d'))
              xs trs.
Proof.
  induction xs as [|x xs IH]; intros d Hres; simpl in *.
  - exists []. split; [reflexivity | constructor].
  - unfold bindT in *. rewrite bind_result in Hres. rewrite bind_trace.
    destruct (result_of (f x d)) as [[]|t] eqn:Ex; [|discriminate].
    destruct (IH _ Hres) as (trs & Htr & Hall).
    exists (trace_of (f x d) :: trs). simpl. rewrite Htr. split; [reflexivity|].
    constructor; [|exact Hall]. exists d. now split.
Qed.

Lemma unlinks_follow_lstat_app a b :
  unlinks_follow_lstat a -> unlinks_follow_lstat b -> unlinks_follow_lstat (a ++ b).
Proof.
  induction 1 as [|ev tr Hev _ IH|p r tr _ IH]; intros Hb; simpl.
  - exact Hb.
  - apply ufl_other; auto.
  - apply ufl_unlink; auto.
Qed.

(** What [unlinks_follow_lstat] says, spelled out. *)
Lemma unlinks_follow_lstat_spec tr :
  unlinks_follow_lstat tr ->
  (forall ev p, In ev tr -> ev_mutates ev = Some p -> exists r, ev = Ev_unlink p r) /\
  (forall pre p r post,
      tr = pre ++ Ev_unlink p r :: post ->
      exists pre', pre = pre' ++ [Ev_lstat p (Ok StatFile)]).
Proof.
  induction 1 as [|ev tr Hev _ [IH1 IH2]|p r tr _ [IH1 IH2]]; split.
  - intros ev p [].
  - intros [|? ?] p r post H; discriminate.
  - intros ev' p [<-|Hin] Hmut; [congruence | now apply IH1].
  - intros [|e pre] p r post Heq; simpl in Heq.
    + injection Heq as -> _. discriminate.
    + injection Heq as -> Heq. destruct (IH2 _ _ _ _ Heq) as [pre' ->].
      now exists (e :: pre').
  - intros ev' q [<-|[<-|Hin]] Hmut; [discriminate | | now apply IH1].
    injection Hmut as <-. now exists r.
  - intros [|e1 [|e2 pre]] q r' post Heq; simpl in Heq.
    + discriminate.
    + inversion Heq; subst. now exists [].
    + inversion Heq as [[He1 He2 Htr]]. destruct (IH2 _ _ _ _ Htr) as [pre' ->].
      now exists (Ev_lstat p (Ok StatFile) :: Ev_unlink p r :: pre').
Qed.

(** *** First pass: the files at the profile root *)

Lemma bindT_Ok {A B} (m : Fs Disk (Result A)) (f : A -> Fs Disk (Result B)) d a :
  result_of (m d) = Ok a ->
  bindT m f d =
  (result_of (f a (disk_of (m d))), disk_of (f a (disk_of (m d))),
   trace_of (m d) ++ trace_of (f a (disk_of (m d)))).
Proof. intros H. unfold bindT. now rewrite bind_unfold, H. Qed.

Lemma bindT_Throw {A B} (m : Fs Disk (Result A)) (f : A -> Fs Disk (Result B)) d t :
  result_of (m d) = Throw t ->
  bindT m f d = (Throw t, disk_of (m d), trace_of (m d)).
Proof.
  intros H. unfold bindT. rewrite bind_unfold, H. simpl. now rewrite app_nil_r.
Qed.

Lemma profileRoot_entry_unlinks_follow_lstat profile file d :
  unlinks_follow_lstat (trace_of (uninstallMod_profileRoot_entry profile file d)).
Proof.
  unfold uninstallMod_profileRoot_entry.
  unfold bindT, bind, lstat, unlink, call, ret, trace_of, result_of.
  destruct (fs_lstat (path_join [getPathOfProfile profile; file]) d)
    as [[[]|t] d1]; simpl; try now repeat constructor.
  destruct (negb _); simpl; [|now repeat constructor].
  destruct (fs_unlink (path_join [getPathOfProfile profile; file]) d1)
    as [r d2]; simpl.
  apply ufl_unlink. constructor.
Qed.

Lemma profileRoot_unlinks_follow_lstat profile d :
  unlinks_follow_lstat (trace_of (uninstallMod_profileRoot profile d)).
Proof.
  unfold uninstallMod_profileRoot, bindT. rewrite bind_trace.
  apply unlinks_follow_lstat_app.
  - unfold readdir. rewrite call_trace. now repeat constructor.
  - destruct (result_of (readdir (getPathOfProfile profile) d)) as [files|t];
      [|constructor].
    apply forEachT_trace_closed.
    + constructor.
    + apply unlinks_follow_lstat_app.
    + apply profileRoot_entry_unlinks_follow_lstat.
Qed.

Lemma profileRoot_entries_swept profile files :
  forall d,
    result_of (forEachT (uninstallMod_profileRoot_entry profile) files d) = Ok tt ->
    profileRoot_swept profile files
      (trace_of (forEachT (uninstallMod_profileRoot_entry profile) files d)).
Proof.
  induction files as [|file files IH]; intros d Hres.
  - constructor.
  - revert Hres. cbn [forEachT].
    destruct (result_of (uninstallMod_profileRoot_entry profile file d))
      as [[]|t] eqn:Eentry.
    2:{ rewrite (bindT_Throw _ _ _ _ Eentry). discriminate. }
    rewrite (bindT_Ok _ _ _ _ Eentry). cbn [result_of trace_of fst snd].
    intros Hres. specialize (IH _ Hres).
    revert Eentry IH.
    generalize (trace_of (forEachT (uninstallMod_profileRoot_entry profile) files
                            (disk_of (uninstallMod_profileRoot_entry profile file d)))).
    unfold uninstallMod_profileRoot_entry.
    unfold bindT, bind, lstat, unlink, call, ret, trace_of, result_of.
    destruct (fs_lstat (path_join [getPathOfProfile profile; file]) d)
      as [[st|t] d1]; simpl; [|discriminate].
    destruct st; simpl; try (intros; now apply swept_not_a_file).
    destruct (String.eqb (toLowerCase file) "mods.yml") eqn:Ename; simpl.
    + apply String.eqb_eq in Ename. intros; now apply swept_reserved.
    + apply String.eqb_neq in Ename.
      destruct (fs_unlink (path_join [getPathOfProfile profile; file]) d1)
        as [[[]|t] d2]; simpl; [|discriminate].
      intros; now apply swept_deleted.
Qed.

Lemma profileRoot_success profile d :
  result_of (uninstallMod_profileRoot profile d) = Ok tt ->
  exists files tr,
    trace_of (uninstallMod_profileRoot profile d) =
      Ev_readdir (getPathOfProfile profile) (Ok files) :: tr /\
    profileRoot_swept profile files tr.
Proof.
  unfold uninstallMod_profileRoot.
  destruct (result_of (readdir (getPathOfProfile profile) d)) as [files|t] eqn:Els.
  2:{ rewrite (bindT_Throw _ _ _ _ Els). discriminate. }
  rewrite (bindT_Ok _ _ _ _ Els). cbn [result_of trace_of fst snd].
  intros Hres. exists files. eexists. split.
  - unfold readdir in *. rewrite call_trace, Els. reflexivity.
  - now apply profileRoot_entries_swept.
Qed.

(** *** Second pass: the mod's folders below BepInEx *)

Lemma bepInEx_folder_quiet_or_mod_folder profile mod_ file folder d :
  quiet_or_mod_folder profile mod_
    (trace_of (uninstallMod_bepInEx_folder mod_
                 (path_join [getPathOfProfile profile; "BepInEx"]) file folder d)).
Proof.
  unfold quiet_or_mod_folder, uninstallMod_bepInEx_folder.
  set (bep := path_join [getPathOfProfile profile; "BepInEx"]).
  destruct (String.eqb folder (getName mod_)) eqn:Ename; [|constructor].
  apply String.eqb_eq in Ename. subst folder.
  unfold bindT, bind, lstat, emptyDirectory, rmdir, call, ret, trace_of, result_of.
  destruct (fs_lstat (path_join [bep; file; getName mod_]) d)
    as [[[]|t] d3]; simpl; try now repeat constructor.
  destruct (FileUtils_emptyDirectory (path_join [bep; file; getName mod_]) d3)
    as [[[]|t] d4]; simpl.
  - destruct (fs_rmdir (path_join [bep; file; getName mod_]) d4) as [r d5]; simpl.
    constructor; [now left|].
    constructor; [right; exists file; left; eexists; reflexivity|].
    constructor; [right; exists file; right; eexists; reflexivity|].
    constructor.
  - constructor; [now left|].
    constructor; [right; exists file; left; eexists; reflexivity|].
    constructor.
Qed.

Lemma quiet_or_mod_folder_app profile mod_ a b :
  quiet_or_mod_folder profile mod_ a -> quiet_or_mod_folder profile mod_ b ->
  quiet_or_mod_folder profile mod_ (a ++ b).
Proof. intros Ha Hb. apply Forall_app. now split. Qed.

Lemma bepInEx_entry_quiet_or_mod_folder profile mod_ file d :
  quiet_or_mod_folder profile mod_
    (trace_of (uninstallMod_bepInEx_entry mod_
                 (path_join [getPathOfProfile profile; "BepInEx"]) file d)).
Proof.
  unfold uninstallMod_bepInEx_entry.
  set (bep := path_join [getPathOfProfile profile; "BepInEx"]).
  unfold bindT at 1. rewrite bind_trace. apply quiet_or_mod_folder_app.
  - unfold lstat. rewrite call_trace. repeat constructor.
  - destruct (result_of (lstat (path_join [bep; file]) d)) as [st|t]; [|constructor].
    destruct (isDirectory st); [|constructor].
    unfold bindT. rewrite bind_trace. apply quiet_or_mod_folder_app.
    + unfold readdir. rewrite call_trace. repeat constructor.
    + destruct (result_of (readdir (path_join [bep; file]) _)) as [folders|t];
        [|constructor].
      apply forEachT_trace_closed.
      * constructor.
      * apply quiet_or_mod_folder_app.
      * apply bepInEx_folder_quiet_or_mod_folder.
Qed.

Lemma bepInEx_quiet_or_mod_folder profile mod_ d :
  quiet_or_mod_folder profile mod_
    (trace_of (uninstallMod_bepInEx mod_
                 (path_join [getPathOfProfile profile; "BepInEx"]) d)).
Proof.
  unfold uninstallMod_bepInEx.
  set (bep := path_join [getPathOfProfile profile; "BepInEx"]).
  unfold bindT. rewrite bind_trace. apply quiet_or_mod_folder_app.
  - unfold readdir. rewrite call_trace. repeat constructor.
  - destruct (result_of (readdir bep d)) as [files|t]; [|constructor].
    apply forEachT_trace_closed.
    + constructor.
    + apply quiet_or_mod_folder_app.
    + apply bepInEx_entry_quiet_or_mod_folder.
Qed.

End UninstallFacts.

(** ** The plugin-file extensions *)

Section ExtensionFacts.
Local Open Scope string_scope.

(** Two suffixes of one string agree on their own suffixes of equal
  length. *)
Lemma suffix_clash (s e1 e2 t1 t2 : string) :
  endsWith s e1 = true -> endsWith s e2 = true ->
  endsWith e1 t1 = true -> endsWith e2 t2 = true ->
  String.length t1 = String.length t2 -> t1 = t2.
Proof.
  intros H1 H2 Ht1 Ht2. apply (endsWith_same_length s).
  - exact (endsWith_trans _ _ _ H1 Ht1).
  - exact (endsWith_trans _ _ _ H2 Ht2).
Qed.

Ltac clash Hs1 Hs2 :=
  match type of Hs1 with
  | endsWith ?s ?e1 = true =>
      match type of Hs2 with
      | endsWith s ?e2 = true =>
          let Hc := fresh "Hc" in
          pose proof (suffix_clash s e1 e2 (last4 e1) (last4 e2) Hs1 Hs2
                        eq_refl eq_refl eq_refl) as Hc;
          vm_compute in Hc; discriminate Hc
      end
  end.

(** No string ends with two different [modModeExtensions]. *)
Lemma modModeExtension_unique (s e1 e2 : string) :
  In e1 modModeExtensions -> In e2 modModeExtensions ->
  endsWith s e1 = true -> endsWith s e2 = true -> e1 = e2.
Proof.
  unfold modModeExtensions. intros H1 H2 Hs1 Hs2. simpl in H1, H2.
  repeat (destruct H1 as [<-|H1]; [|]); try contradiction;
    repeat (destruct H2 as [<-|H2]; [|]); try contradiction;
    try reflexivity; exfalso; clash Hs1 Hs2.
Qed.

Lemma endsWith_append_cancel (s e1 e2 t : string) :
  endsWith s (e1 ++ t) = true -> endsWith s (e2 ++ t) = true ->
  exists s', s = s' ++ t /\ endsWith s' e1 = true /\ endsWith s' e2 = true.
Proof.
  rewrite !endsWith_iff. intros [p Hp] [q Hq].
  exists (p ++ e1). rewrite append_assoc. split; [exact Hp|].
  split; [apply endsWith_append|].
  rewrite <- append_assoc in Hp. rewrite <- append_assoc in Hq.
  rewrite Hp in Hq. destruct (append_same_length_inv _ _ _ _ Hq eq_refl) as [-> _].
  apply endsWith_append.
Qed.

Lemma disabledExtension_unique (s e1 e2 : string) :
  In e1 modModeExtensions -> In e2 modModeExtensions ->
  endsWith s (e1 ++ ".old") = true -> endsWith s (e2 ++ ".old") = true -> e1 = e2.
Proof.
  intros H1 H2 Hs1 Hs2.
  destruct (endsWith_append_cancel _ _ _ _ Hs1 Hs2) as (s' & _ & Ha & Hb).
  exact (modModeExtension_unique s' e1 e2 H1 H2 Ha Hb).
Qed.

(** A name that ends with an extension followed by [.old] ends with no
  bare extension. *)
Lemma disabled_name_has_no_extension (s e e' : string) :
  In e modModeExtensions -> In e' modModeExtensions ->
  endsWith s (e ++ ".old") = true -> endsWith s e' = true -> False.
Proof.
  intros _ H' Hs Hs'.
  assert (Hold : endsWith s ".old" = true).
  { apply (endsWith_trans _ _ _ Hs). apply endsWith_append. }
  unfold modModeExtensions in H'. simpl in H'.
  repeat (destruct H' as [<-|H']; [clash Hold Hs'|]). contradiction.
Qed.

Lemma toLowerCase_old (file : string) :
  toLowerCase (file ++ ".old") = toLowerCase file ++ ".old".
Proof. now rewrite toLowerCase_append. Qed.

Lemma disabled_of_enabled (file : string) :
  hasModModeExtension file -> hasDisabledExtension (file ++ ".old").
Proof.
  intros (ext & Hin & Hends). exists ext. split; [exact Hin|].
  rewrite toLowerCase_old. apply endsWith_iff in Hends. destruct Hends as [p ->].
  rewrite append_assoc. apply endsWith_append.
Qed.

Lemma strip_old (file : string) :
  substring0 (String.length (file ++ ".old") - String.length ".old") (file ++ ".old")
  = file.
Proof.
  unfold substring0. rewrite length_append.
  replace (String.length file + String.length ".old" - String.length ".old")
    with (String.length file) by lia.
  apply substring0_append.
Qed.

End ExtensionFacts.

(** ** One file under the mode toggle *)

Section ToggleFacts.
Context {Disk : Type} {provider : FsProvider Disk} {externals : Externals}.

Lemma forEachT_cons {A} (f : A -> Fs Disk (Result unit)) (x : A) (xs : list A) :
  forEachT f (x :: xs) = bindT (f x) (fun _ => forEachT f xs).
Proof. reflexivity. Qed.

Lemma forEachT_none {A} (c : A -> bool) (m : Fs Disk (Result unit)) (xs : list A) d :
  (forall x, In x xs -> c x = false) ->
  forEachT (fun x => if c x then m else ret (Ok tt)) xs d = (Ok tt, d, []).
Proof.
  induction xs as [|x xs IH]; intros Hc; [reflexivity|].
  rewrite forEachT_cons, (Hc x) by now left.
  unfold bindT at 1, bind at 1, ret at 1.
  rewrite IH by (intros y Hy; apply Hc; now right). reflexivity.
Qed.

(** A loop in which at most one element passes the test runs the guarded
  call at most once. *)
Lemma forEachT_at_most_one {A} (c : A -> bool) (m : Fs Disk (Result unit))
      (xs : list A) d :
  NoDup xs ->
  (forall x y, In x xs -> In y xs -> c x = true -> c y = true -> x = y) ->
  forEachT (fun x => if c x then m else ret (Ok tt)) xs d =
  if existsb c xs then m d else (Ok tt, d, []).
Proof.
  induction xs as [|x xs IH]; intros Hnd Huniq; [reflexivity|].
  inversion Hnd as [|? ? Hnotin Hnd']; subst.
  rewrite forEachT_cons. cbn [existsb].
  destruct (c x) eqn:Ecx; cbn [orb].
  - unfold bindT at 1, bind at 1. destruct (m d) as [[[[]|t] d1] t1].
    + rewrite forEachT_none.
      * now rewrite app_nil_r.
      * intros y Hy. destruct (c y) eqn:Ecy; [|reflexivity].
        exfalso. apply Hnotin.
        rewrite (Huniq x y) by (simpl; auto). exact Hy.
    + unfold ret. now rewrite app_nil_r.
  - unfold bindT at 1, bind at 1, ret at 1. rewrite IH; auto.
    + destruct (existsb c xs); [destruct (m d) as [[r d1] t1]|]; reflexivity.
    + intros a b Ha Hb. apply Huniq; now right.
Qed.

Lemma modModeExtensions_NoDup : NoDup modModeExtensions.
Proof.
  unfold modModeExtensions.
  repeat (constructor; [simpl; intuition discriminate|]). constructor.
Qed.

Lemma applyModMode_file_disable file d :
  applyModMode_file DISABLED file d =
  if existsb (fun ext => endsWith (toLowerCase file) ext) modModeExtensions
  then rename file (file ++ ".old")%string d
  else (Ok tt, d, []).
Proof.
  unfold applyModMode_file.
  apply (forEachT_at_most_one (fun ext => endsWith (toLowerCase file) ext)).
  - apply modModeExtensions_NoDup.
  - intros x y Hx Hy. now apply modModeExtension_unique.
Qed.

Lemma applyModMode_file_enable file d :
  applyModMode_file ENABLED file d =
  if existsb (fun ext => endsWith (toLowerCase file) (ext ++ ".old")%string)
             modModeExtensions
  then rename file (substring0 (String.length file - String.length ".old"%string) file) d
  else (Ok tt, d, []).
Proof.
  unfold applyModMode_file.
  apply (forEachT_at_most_one
           (fun ext => endsWith (toLowerCase file) (ext ++ ".old")%string)).
  - apply modModeExtensions_NoDup.
  - intros x y Hx Hy. now apply disabledExtension_unique.
Qed.

Lemma hasModModeExtension_existsb file :
  hasModModeExtension file <->
  existsb (fun ext => endsWith (toLowerCase file) ext) modModeExtensions = true.
Proof. unfold hasModModeExtension. now rewrite existsb_exists. Qed.

Lemma hasDisabledExtension_existsb file :
  hasDisabledExtension file <->
  existsb (fun ext => endsWith (toLowerCase file) (ext ++ ".old")%string)
          modModeExtensions = true.
Proof. unfold hasDisabledExtension. now rewrite existsb_exists. Qed.

Lemma disabled_has_no_extension file :
  hasDisabledExtension file -> ~ hasModModeExtension file.
Proof.
  intros (e & He & Hs) (e' & He' & Hs').
  exact (disabled_name_has_no_extension _ e e' He He' Hs Hs').
Qed.

End ToggleFacts.

(** ** Rule lookup *)

Section RuleFacts.
Context {externals : Externals}.
Variable rule : RuleType.

Lemma matchingEndFolderName_Some folderName key :
  matchingEndFolderName rule folderName = Some key ->
  In (key, Object_get (rules rule) key) (rules rule) /\
  toLowerCase key = toLowerCase folderName.
Proof.
  unfold matchingEndFolderName, Object_keys. intros Hfind.
  apply find_some in Hfind. destruct Hfind as [Hin Heq].
  apply String.eqb_eq in Heq. split; [|exact Heq].
  apply in_map_iff in Hin. destruct Hin as ([k v] & Hk & Hin). simpl in Hk. subst k.
  unfold Object_get.
  destruct (find (fun kv => String.eqb (fst kv) key) (rules rule)) as [[k' v']|] eqn:E.
  - apply find_some in E. destruct E as [Hin' Hk']. simpl in *.
    apply String.eqb_eq in Hk'. now subst k'.
  - exfalso. apply (find_none _ _ E) in Hin. simpl in Hin.
    now rewrite String.eqb_refl in Hin.
Qed.

Lemma matchingEndFolderName_iff folderName :
  (exists key, matchingEndFolderName rule folderName = Some key) <->
  (exists key, In key (Object_keys (rules rule)) /\
               toLowerCase key = toLowerCase folderName).
Proof.
  unfold matchingEndFolderName. split.
  - intros [key Hfind]. apply find_some in Hfind. destruct Hfind as [Hin Heq].
    exists key. split; [exact Hin | now apply String.eqb_eq].
  - intros (key & Hin & Heq).
    destruct (find _ (Object_keys (rules rule))) as [k|] eqn:E; [now exists k|].
    apply (find_none _ _ E) in Hin. apply String.eqb_neq in Hin. contradiction.
Qed.

End RuleFacts.

(** ** Where single files are copied to *)

Section CopyFacts.
Context {Disk : Type} {provider : FsProvider Disk} {externals : Externals}.
Variable rule : RuleType.

Lemma forEach_trace_closed {A} (Q : list Event -> Prop)
      (f : A -> Fs Disk (option R2Error)) (xs : list A) :
  Q [] -> (forall a b, Q a -> Q b -> Q (a ++ b)) ->
  (forall x d, In x xs -> Q (trace_of (f x d))) ->
  forall d, Q (trace_of (forEach f xs d)).
Proof.
  intros Hnil Happ. induction xs as [|x xs IH]; intros Hf d; simpl.
  - exact Hnil.
  - rewrite bind_trace. apply Happ; [apply Hf; now left|].
    destruct (result_of (f x d)); [exact Hnil|].
    apply IH. intros y d' Hy. apply Hf. now right.
Qed.

Lemma copies_by_name_app profile mod_ a b :
  copies_by_name rule profile mod_ a -> copies_by_name rule profile mod_ b ->
  copies_by_name rule profile mod_ (a ++ b).
Proof.
  intros Ha Hb src dest r Hin. apply in_app_or in Hin.
  destruct Hin; [eapply Ha | eapply Hb]; eauto.
Qed.

Lemma resolve_file_copies_by_name profile location mod_ file d :
  copies_by_name rule profile mod_
    (trace_of (resolveBepInExTree_file rule profile location mod_ file d)).
Proof.
  unfold resolveBepInExTree_file, copies_by_name, file_destination.
  set (dest := if endsWith (toLowerCase file) ".mm.dll" then _ else _).
  unfold ensureDirectory, copyFile, bind, call, ret, result_of, trace_of.
  destruct (FileUtils_ensureDirectory dest d) as [[[]|[m|e]] d1]; simpl;
    try (intros src dst r [H|[]]; discriminate).
  destruct (fs_copyFile file (path_join [dest; path_basename file]) d1)
    as [[[]|[m|e]] d2]; simpl;
    intros src dst r [H|[H|[]]]; try discriminate;
    inversion H; subst; reflexivity.
Qed.

Lemma resolve_copies_by_name profile mod_ tree :
  forall location folderName d,
    copies_by_name rule profile mod_
      (trace_of (resolveBepInExTree rule profile location folderName mod_ tree d)).
Proof.
  induction tree as [n fs ds IH] using FileTree_rect_nested.
  intros location folderName d. rewrite resolveBepInExTree_eq, bind_trace.
  apply copies_by_name_app.
  - intros src dest r [H|[]]. discriminate.
  - cbn [enter result_of disk_of fst snd].
    destruct (matchingEndFolderName rule folderName) as [matching|].
    + unfold resolveBepInExTree_matched.
      unfold ensureDirectory, copyFolder, bind, call, ret, result_of, trace_of.
      destruct (FileUtils_ensureDirectory _ d) as [[[]|t] d1]; simpl.
      * destruct (fs_copyFolder _ _ d1) as [[[]|t] d2]; simpl;
          intros src dest r [H|[H|[]]]; discriminate.
      * intros src dest r [H|[]]; discriminate.
    + rewrite bind_trace. apply copies_by_name_app.
      * apply forEach_trace_closed.
        -- intros src dest r [].
        -- apply copies_by_name_app.
        -- intros file d' _. apply resolve_file_copies_by_name.
      * destruct (result_of (forEach _ (getFiles _) d)) as [e|]; [intros src dest r []|].
        apply forEach_trace_closed.
        -- intros src dest r [].
        -- apply copies_by_name_app.
        -- intros directory d' Hin. rewrite Forall_forall in IH. now apply IH.
Qed.

End CopyFacts.

(** ** [uninstallMod] as a whole *)

Section UninstallModFacts.
Context {Disk : Type} {provider : FsProvider Disk} {externals : Externals}.
Variable bepInExVariant : list ModLoaderPackageMapping.

Lemma findVariant_None_iff mod_ :
  findVariant bepInExVariant mod_ = None <->
  (forall v, In v bepInExVariant ->
             toLowerCase (packageName v) <> toLowerCase (getName mod_)).
Proof.
  unfold findVariant. split.
  - intros Hnone v Hin. apply (find_none _ _ Hnone) in Hin.
    now apply String.eqb_neq.
  - intros Hall. destruct (find _ bepInExVariant) as [v|] eqn:E; [|reflexivity].
    apply find_some in E. destruct E as [Hin Heq].
    apply String.eqb_eq in Heq. now apply Hall in Hin.
Qed.

Lemma findVariant_Some_iff mod_ :
  (exists v, findVariant bepInExVariant mod_ = Some v) <->
  (exists v, In v bepInExVariant /\
             toLowerCase (packageName v) = toLowerCase (getName mod_)).
Proof.
  split.
  - intros [v Hfind]. unfold findVariant in Hfind. apply find_some in Hfind.
    exists v. split; [tauto | now apply String.eqb_eq].
  - intros (v & Hin & Heq).
    destruct (findVariant bepInExVariant mod_) as [w|] eqn:E; [now exists w|].
    exfalso. now apply (proj1 (findVariant_None_iff mod_) E v Hin).
Qed.

(** Lines 62-85: after the first pass. *)
Lemma after_profileRoot_quiet profile mod_ d :
  quiet_or_mod_folder profile mod_
    (trace_of
       ((present <- exists_ (path_join [getPathOfProfile profile; "BepInEx"]) ;;
         if (present : bool) then
           r <- uninstallMod_bepInEx mod_
                  (path_join [getPathOfProfile profile; "BepInEx"]) ;;
           match r with
           | Ok _ => ret None
           | Throw err =>
               ret (Some (newR2Error
                            "Failed to remove files"
                            (thrown_message err)
                            "Is the game still running? If so, close it and try again."))
           end
         else ret None) d)).
Proof.
  rewrite bind_trace. apply quiet_or_mod_folder_app.
  - unfold exists_. rewrite call_trace. repeat constructor.
  - destruct (result_of (exists_ _ d)); [|constructor].
    rewrite bind_trace. apply quiet_or_mod_folder_app.
    + apply bepInEx_quiet_or_mod_folder.
    + destruct (result_of (uninstallMod_bepInEx _ _ _)); constructor.
Qed.

Lemma rename_success (s t : string) (d : Disk) :
  result_of (rename s t d) = Ok tt ->
  trace_of (rename s t d) = [Ev_rename s t (Ok tt)].
Proof.
  unfold rename, call, result_of, trace_of.
  destruct (fs_rename s t d) as [r d1]; simpl. now intros ->.
Qed.

Lemma name_after_rename (s t : string) :
  name_after s [Ev_rename s t (Ok tt)] = t.
Proof. unfold name_after. simpl. now rewrite String.eqb_refl. Qed.

End UninstallModFacts.

(** ** Matching the mod's own directory *)

Section DirectoryMatchFacts.
Context {Disk : Type} {provider : FsProvider Disk} {externals : Externals}.

Lemma subtrees_unfold (t : FileTree) :
  subtrees t = t :: flat_map subtrees (getDirectories t).
Proof. destruct t; reflexivity. Qed.

Lemma bind_ret {A B} (a : A) (k : A -> Fs Disk B) (d : Disk) :
  bind (ret a) k d = k a d.
Proof. unfold bind, ret. destruct (k a d) as [[b d2] t2]. reflexivity. Qed.

(** A tree none of whose directories carries exactly the mod's name is left
  alone. *)
Lemma applyModMode_no_exact_name mod_ profile mode tree :
  forall location (d : Disk),
    (forall t, In t (flat_map subtrees (getDirectories tree)) ->
               getDirectoryName t <> getName mod_) ->
    applyModMode mod_ tree profile location mode d = (None, d, []).
Proof.
  induction tree as [n fs ds IH] using FileTree_rect_nested.
  intros location d Hnames. rewrite applyModMode_eq. cbn [getDirectories] in *.
  assert (Hdirs : forall files d',
             applyModMode_directories mod_ profile location mode ds files d'
             = (inr files, d', [])).
  { clear d. induction IH as [|directory ds' Hdir _ IHds]; intros files d.
    - reflexivity.
    - cbn [applyModMode_directories].
      assert (Hne : getDirectoryName directory <> getName mod_).
      { apply Hnames. simpl. apply in_or_app. left.
        rewrite subtrees_unfold. now left. }
      apply String.eqb_neq in Hne. rewrite Hne. cbn [negb].
      unfold bind. rewrite Hdir.
      + fold (applyModMode_directories mod_ profile location mode).
        rewrite IHds; [reflexivity|].
        intros t Ht. apply Hnames. simpl. apply in_or_app. now right.
      + intros t Ht. apply Hnames. simpl. apply in_or_app. left.
        rewrite subtrees_unfold. now right. }
  unfold bind. rewrite Hdirs. reflexivity.
Qed.

(** A directory that carries exactly the mod's name hands over all the
  files at or below it. *)
Lemma applyModMode_exact_name mod_ profile mode n fs directory location (d : Disk) :
  getDirectoryName directory = getName mod_ ->
  applyModMode mod_ (mkFileTree n fs [directory]) profile location mode d =
  applyModMode_files mode (getRecursiveFiles directory) d.
Proof.
  intros Hname. rewrite applyModMode_eq. cbn [getDirectories applyModMode_directories].
  rewrite Hname, String.eqb_refl. cbn [negb app].
  exact (bind_ret (inr (getRecursiveFiles directory))
           (fun collected => match collected with
                             | inl applyError => ret (Some applyError)
                             | inr files => applyModMode_files mode files
                             end) d).
Qed.

Lemma bepInEx_folder_other_name mod_ bepInExLocation file folder (d : Disk) :
  folder <> getName mod_ ->
  uninstallMod_bepInEx_folder mod_ bepInExLocation file folder d = (Ok tt, d, []).
Proof.
  intros Hne. unfold uninstallMod_bepInEx_folder.
  apply String.eqb_neq in Hne. now rewrite Hne.
Qed.

Lemma bepInEx_folder_exact_name mod_ bepInExLocation file (d : Disk) :
  exists r rest,
    trace_of (uninstallMod_bepInEx_folder mod_ bepInExLocation file (getName mod_) d) =
    Ev_lstat (path_join [bepInExLocation; file; getName mod_]) r :: rest.
Proof.
  unfold uninstallMod_bepInEx_folder. rewrite String.eqb_refl.
  unfold bindT at 1. rewrite bind_trace. unfold lstat at 1. rewrite call_trace.
  eexists. eexists. reflexivity.
Qed.

Lemma rename_calls_rename (s t : string) (d : Disk) :
  rename_calls (trace_of (rename s t d)) = [(s, t)].
Proof. unfold rename. now rewrite call_trace. Qed.

End DirectoryMatchFacts.

(** ** Letter case: the comparisons of the code and the words of the
  specification agree *)

Section LetterCaseFacts.
Local Open Scope string_scope.

Lemma nat_of_lower_ascii (c : ascii) :
  nat_of_ascii (lower_ascii c) =
  if isUpperCase c then nat_of_ascii c + 32 else nat_of_ascii c.
Proof.
  unfold lower_ascii, isUpperCase.
  destruct ((65 <=? nat_of_ascii c)%nat && (nat_of_ascii c <=? 90)%nat)%bool eqn:E;
    [|reflexivity].
  apply andb_true_iff in E. destruct E as [_ Hle]. apply Nat.leb_le in Hle.
  apply nat_ascii_embedding. lia.
Qed.

Lemma lower_ascii_eq_iff (a b : ascii) :
  lower_ascii a = lower_ascii b <->
  nat_of_ascii (lower_ascii a) = nat_of_ascii (lower_ascii b).
Proof.
  split; [now intros ->|]. intros H.
  rewrite <- (ascii_nat_embedding (lower_ascii a)),
          <- (ascii_nat_embedding (lower_ascii b)).
  now rewrite H.
Qed.

Lemma sameLetter_iff (a b : ascii) :
  sameLetter a b = true <-> lower_ascii a = lower_ascii b.
Proof.
  rewrite lower_ascii_eq_iff, !nat_of_lower_ascii. unfold sameLetter.
  rewrite !orb_true_iff, !andb_true_iff, Ascii.eqb_eq, !Nat.eqb_eq.
  assert (Hinj : a = b <-> nat_of_ascii a = nat_of_ascii b).
  { split; [now intros ->|]. intros H.
    rewrite <- (ascii_nat_embedding a), <- (ascii_nat_embedding b). now rewrite H. }
  rewrite Hinj. unfold isUpperCase.
  destruct (Nat.leb_spec 65 (nat_of_ascii a)), (Nat.leb_spec (nat_of_ascii a) 90),
    (Nat.leb_spec 65 (nat_of_ascii b)), (Nat.leb_spec (nat_of_ascii b) 90);
    cbn [andb]; intuition (try discriminate; try lia).
Qed.

Lemma equalIgnoringCase_iff (s t : string) :
  equalIgnoringCase s t = true <-> toLowerCase s = toLowerCase t.
Proof.
  revert t. induction s as [|a s IH]; intros [|b t]; simpl;
    try (split; [discriminate | discriminate]); [tauto|].
  rewrite andb_true_iff, sameLetter_iff, IH. split.
  - intros [-> ->]. reflexivity.
  - intros H. inversion H. now split.
Qed.

Lemma eqb_toLowerCase (s t : string) :
  String.eqb (toLowerCase s) (toLowerCase t) = equalIgnoringCase s t.
Proof.
  destruct (equalIgnoringCase s t) eqn:E.
  - apply String.eqb_eq. now apply equalIgnoringCase_iff.
  - apply String.eqb_neq. intros H. apply equalIgnoringCase_iff in H. congruence.
Qed.

Lemma eqb_toLowerCase_folded (s t : string) :
  toLowerCase t = t ->
  String.eqb (toLowerCase s) t = equalIgnoringCase s t.
Proof. intros H. rewrite <- H at 1. apply eqb_toLowerCase. Qed.

Lemma length_lower (s : string) : String.length (toLowerCase s) = String.length s.
Proof. induction s as [|c s IH]; simpl; [reflexivity | now rewrite IH]. Qed.

Lemma substring_lower (n m : nat) (s : string) :
  substring n m (toLowerCase s) = toLowerCase (substring n m s).
Proof.
  revert n m. induction s as [|c s IH]; intros n m; simpl.
  - destruct n, m; reflexivity.
  - destruct n as [|n]; [destruct m as [|m]; simpl; [reflexivity | now rewrite IH]|].
    apply IH.
Qed.

(** [file.toLowerCase().endsWith(t)] for a lower-case [t]. *)
Lemma endsWith_toLowerCase (s t : string) :
  toLowerCase t = t ->
  endsWith (toLowerCase s) t = endsWithIgnoringCase s t.
Proof.
  intros Ht. unfold endsWith, endsWithIgnoringCase. rewrite length_lower.
  destruct (String.length t <=? String.length s)%nat; [|reflexivity].
  cbn [andb]. rewrite substring_lower. now apply eqb_toLowerCase_folded.
Qed.

(** The words "ends with, letter case apart" unfolded: the name splits
  into a prefix and a suffix that equals [t] letter case apart. *)
Lemma endsWithIgnoringCase_iff (s t : string) :
  endsWithIgnoringCase s t = true <->
  exists prefix suffix, s = prefix ++ suffix /\ equalIgnoringCase suffix t = true.
Proof.
  unfold endsWithIgnoringCase. rewrite andb_true_iff, Nat.leb_le. split.
  - intros [Hle Heq].
    exists (substring 0 (String.length s - String.length t) s),
           (substring (String.length s - String.length t) (String.length t) s).
    split; [|exact Heq].
    rewrite (substring_split s (String.length s - String.length t)) at 1 by lia.
    do 2 f_equal. lia.
  - intros (p & q & -> & Heq).
    assert (Hlen : String.length q = String.length t).
    { apply equalIgnoringCase_iff in Heq.
      rewrite <- (length_lower q), Heq. apply length_lower. }
    rewrite length_append. split; [lia|].
    replace (String.length p + String.length q - String.length t)
      with (String.length p) by lia.
    rewrite substring_skip, <- Hlen, substring_all. exact Heq.
Qed.

Lemma modModeExtensions_folded ext :
  In ext modModeExtensions -> toLowerCase ext = ext.
Proof.
  intros H. repeat (destruct H as [<-|H]; [reflexivity|]). destruct H.
Qed.

Lemma existsb_agree {A} (f g : A -> bool) (xs : list A) :
  (forall x, In x xs -> f x = g x) -> existsb f xs = existsb g xs.
Proof.
  induction xs as [|x xs IH]; intros H; simpl; [reflexivity|].
  rewrite (H x) by now left. rewrite IH; [reflexivity|].
  intros y Hy. apply H. now right.
Qed.

Lemma find_agree {A} (f g : A -> bool) (xs : list A) :
  (forall x, In x xs -> f x = g x) -> find f xs = find g xs.
Proof.
  induction xs as [|x xs IH]; intros H; simpl; [reflexivity|].
  rewrite (H x) by now left. rewrite IH; [reflexivity|].
  intros y Hy. apply H. now right.
Qed.

(** The extension tests of [applyModMode]. *)
Lemma existsb_plugin_extension (file : string) :
  existsb (fun ext => endsWith (toLowerCase file) ext) modModeExtensions
  = endsWithPluginExtension file.
Proof.
  apply existsb_agree. intros ext Hext.
  apply endsWith_toLowerCase. now apply modModeExtensions_folded.
Qed.

Lemma existsb_disabled_extension (file : string) :
  existsb (fun ext => endsWith (toLowerCase file) (ext ++ ".old")) modModeExtensions
  = endsWithDisabledExtension file.
Proof.
  apply existsb_agree. intros ext Hext.
  apply endsWith_toLowerCase.
  rewrite toLowerCase_append. now rewrite (modModeExtensions_folded ext Hext).
Qed.

End LetterCaseFacts.

(** ** Traces are true to the provider *)

Section GenuineFacts.
Context {Disk : Type} {provider : FsProvider Disk}.

Lemma runs_from_app (d d1 d2 : Disk) (a b : list Event) :
  runs_from d a d1 -> runs_from d1 b d2 -> runs_from d (a ++ b) d2.
Proof.
  induction 1 as [|d ev d' tr d'' Hev _ IH]; intros Hb; simpl; [exact Hb|].
  econstructor; [exact Hev | now apply IH].
Qed.

Lemma Genuine_ret {A} (a : A) : Genuine (@ret Disk A a).
Proof. intro d. constructor. Qed.

Lemma Genuine_bind {A B} (m : Fs Disk A) (k : A -> Fs Disk B) :
  Genuine m -> (forall a, Genuine (k a)) -> Genuine (bind m k).
Proof.
  intros Hm Hk d. rewrite bind_trace, bind_disk.
  eapply runs_from_app; [apply Hm | apply Hk].
Qed.

Lemma Genuine_bindT {A B} (m : Fs Disk (Result A)) (k : A -> Fs Disk (Result B)) :
  Genuine m -> (forall a, Genuine (k a)) -> Genuine (bindT m k).
Proof.
  intros Hm Hk. unfold bindT. apply Genuine_bind; [exact Hm|].
  intros [a|t]; [apply Hk | apply Genuine_ret].
Qed.

Lemma Genuine_forEach {A} (f : A -> Fs Disk (option R2Error)) (xs : list A) :
  (forall x, In x xs -> Genuine (f x)) -> Genuine (forEach f xs).
Proof.
  induction xs as [|x xs IH]; intros Hf; simpl.
  - apply Genuine_ret.
  - apply Genuine_bind; [apply Hf; now left|].
    intros [e|]; [apply Genuine_ret|]. apply IH. intros y Hy. apply Hf. now right.
Qed.

Lemma Genuine_forEachT {A} (f : A -> Fs Disk (Result unit)) (xs : list A) :
  (forall x, Genuine (f x)) -> Genuine (forEachT f xs).
Proof.
  intros Hf. induction xs as [|x xs IH]; simpl.
  - apply Genuine_ret.
  - apply Genuine_bindT; [apply Hf | intros _; exact IH].
Qed.

Ltac genuine_call f :=
  let d := fresh "d" in
  let E := fresh "E" in
  intro d; unfold call, trace_of, disk_of;
  destruct (f d) eqn:E; simpl;
  econstructor; [exact E | constructor].

Lemma Genuine_readdir p : Genuine (readdir p).
Proof. unfold readdir. genuine_call (fs_readdir p). Qed.

Lemma Genuine_lstat p : Genuine (lstat p).
Proof. unfold lstat. genuine_call (fs_lstat p). Qed.

Lemma Genuine_exists p : Genuine (exists_ p).
Proof. unfold exists_. genuine_call (fs_exists p). Qed.

Lemma Genuine_unlink p : Genuine (unlink p).
Proof. unfold unlink. genuine_call (fs_unlink p). Qed.

Lemma Genuine_rmdir p : Genuine (rmdir p).
Proof. unfold rmdir. genuine_call (fs_rmdir p). Qed.

Lemma Genuine_rename s t : Genuine (rename s t).
Proof. unfold rename. genuine_call (fs_rename s t). Qed.

Lemma Genuine_copyFile s t : Genuine (copyFile s t).
Proof. unfold copyFile. genuine_call (fs_copyFile s t). Qed.

Lemma Genuine_copyFolder s t : Genuine (copyFolder s t).
Proof. unfold copyFolder. genuine_call (fs_copyFolder s t). Qed.

Lemma Genuine_ensureDirectory p : Genuine (ensureDirectory p).
Proof. unfold ensureDirectory. genuine_call (FileUtils_ensureDirectory p). Qed.

Lemma Genuine_emptyDirectory p : Genuine (emptyDirectory p).
Proof. unfold emptyDirectory. genuine_call (FileUtils_emptyDirectory p). Qed.

Lemma Genuine_enter location folderName tree :
  Genuine (enter (Disk := Disk) location folderName tree).
Proof. intro d. econstructor; [reflexivity | constructor]. Qed.

End GenuineFacts.

Section GenuineInstaller.
Context {Disk : Type} {provider : FsProvider Disk} {externals : Externals}.
Variable rule : RuleType.
Variable bepInExVariant : list ModLoaderPackageMapping.

Lemma Genuine_resolve_file profile location mod_ file :
  Genuine (resolveBepInExTree_file rule profile location mod_ file).
Proof.
  unfold resolveBepInExTree_file.
  apply Genuine_bind; [apply Genuine_ensureDirectory|].
  intros [[]|[m|e]]; try apply Genuine_ret.
  apply Genuine_bind; [apply Genuine_copyFile|].
  intros [[]|[m|e]]; apply Genuine_ret.
Qed.

Lemma Genuine_resolve_matched profile location folderName mod_ matching :
  Genuine (resolveBepInExTree_matched rule profile location folderName mod_ matching).
Proof.
  unfold resolveBepInExTree_matched.
  apply Genuine_bind; [apply Genuine_ensureDirectory|].
  intros [[]|t]; try apply Genuine_ret.
  apply Genuine_bind; [apply Genuine_copyFolder|].
  intros [[]|t]; apply Genuine_ret.
Qed.

Lemma Genuine_resolveBepInExTree profile mod_ tree :
  forall location folderName,
    Genuine (resolveBepInExTree rule profile location folderName mod_ tree).
Proof.
  induction tree as [n fs ds IH] using FileTree_rect_nested.
  intros location folderName. rewrite resolveBepInExTree_eq.
  apply Genuine_bind; [apply Genuine_enter|]. intros _.
  destruct (matchingEndFolderName rule folderName) as [matching|].
  - apply Genuine_resolve_matched.
  - apply Genuine_bind.
    + apply Genuine_forEach. intros file _. apply Genuine_resolve_file.
    + intros [e|]; [apply Genuine_ret|].
      apply Genuine_forEach. cbn [getDirectories]. intros directory Hin.
      rewrite Forall_forall in IH. now apply IH.
Qed.

Lemma Genuine_profileRoot profile : Genuine (uninstallMod_profileRoot profile).
Proof.
  unfold uninstallMod_profileRoot.
  apply Genuine_bindT; [apply Genuine_readdir|]. intros files.
  apply Genuine_forEachT. intros file. unfold uninstallMod_profileRoot_entry.
  apply Genuine_bindT; [apply Genuine_lstat|]. intros st.
  destruct (isFile st); [|apply Genuine_ret].
  destruct (negb _); [apply Genuine_unlink | apply Genuine_ret].
Qed.

Lemma Genuine_bepInEx mod_ bep : Genuine (uninstallMod_bepInEx mod_ bep).
Proof.
  unfold uninstallMod_bepInEx.
  apply Genuine_bindT; [apply Genuine_readdir|]. intros files.
  apply Genuine_forEachT. intros file. unfold uninstallMod_bepInEx_entry.
  apply Genuine_bindT; [apply Genuine_lstat|]. intros st.
  destruct (isDirectory st); [|apply Genuine_ret].
  apply Genuine_bindT; [apply Genuine_readdir|]. intros folders.
  apply Genuine_forEachT. intros folder. unfold uninstallMod_bepInEx_folder.
  destruct (String.eqb folder (getName mod_)); [|apply Genuine_ret].
  apply Genuine_bindT; [apply Genuine_lstat|]. intros st'.
  destruct (isDirectory st'); [|apply Genuine_ret].
  apply Genuine_bindT; [apply Genuine_emptyDirectory|]. intros _.
  apply Genuine_rmdir.
Qed.

Lemma Genuine_uninstallMod mod_ profile :
  Genuine (uninstallMod bepInExVariant mod_ profile).
Proof.
  unfold uninstallMod. apply Genuine_bind.
  - destruct (findVariant bepInExVariant mod_); [|apply Genuine_ret].
    apply Genuine_bind; [apply Genuine_profileRoot|].
    intros [[]|t]; apply Genuine_ret.
  - intros [e|]; [apply Genuine_ret|].
    apply Genuine_bind; [apply Genuine_exists|].
    intros [|]; [|apply Genuine_ret].
    apply Genuine_bind; [apply Genuine_bepInEx|].
    intros [[]|t]; apply Genuine_ret.
Qed.

End GenuineInstaller.

(** ** The resolver follows the deployment plan *)

Section PlanFacts.
Context {Disk : Type} {provider : FsProvider Disk} {externals : Externals}.
Variable rule : RuleType.
Variable bepInExVariant : list ModLoaderPackageMapping.

Lemma matchingEndFolderName_ruleKeyFor folderName :
  matchingEndFolderName rule folderName = ruleKeyFor rule folderName.
Proof.
  unfold matchingEndFolderName, ruleKeyFor. apply find_agree.
  intros key _. apply eqb_toLowerCase.
Qed.

Lemma findVariant_ignoring_case mod_ :
  findVariant bepInExVariant mod_ =
  find (fun v => equalIgnoringCase (packageName v) (getName mod_)) bepInExVariant.
Proof.
  unfold findVariant. apply find_agree. intros v _. apply eqb_toLowerCase.
Qed.

Lemma file_destination_loose profile mod_ file :
  file_destination rule profile mod_ file = loose_destination rule profile mod_ file.
Proof.
  unfold file_destination, loose_destination.
  now rewrite endsWith_toLowerCase by reflexivity.
Qed.

Lemma plan_eq profile mod_ location folderName tree :
  plan rule profile mod_ location folderName tree =
  match ruleKeyFor rule folderName with
  | Some key =>
      [WholeFolder location folderName tree
         (folder_destination rule profile mod_ folderName key)]
  | None =>
      Descend location folderName tree
        :: map (fun file => SingleFile file (loose_destination rule profile mod_ file))
               (getFiles tree)
        ++ flat_map (fun directory =>
                       plan rule profile mod_
                         (path_join [location; getDirectoryName directory])
                         (getDirectoryName directory) directory)
                    (getDirectories tree)
  end.
Proof. destruct tree; reflexivity. Qed.

Lemma flat_map_of_map {A B C} (g : B -> list C) (h : A -> B) (xs : list A) :
  flat_map g (map h xs) = flat_map (fun x => g (h x)) xs.
Proof. induction xs as [|x xs IH]; simpl; [reflexivity | now rewrite IH]. Qed.

Lemma flat_map_of_flat_map {A B C} (g : B -> list C) (h : A -> list B) (xs : list A) :
  flat_map g (flat_map h xs) = flat_map (fun x => flat_map g (h x)) xs.
Proof.
  induction xs as [|x xs IH]; simpl; [reflexivity|].
  now rewrite flat_map_app, IH.
Qed.

Lemma concat_Forall2 {A B} (h : A -> list B) (xs : list A) (ys : list (list B)) :
  Forall2 (fun x y => y = h x) xs ys -> concat ys = flat_map h xs.
Proof.
  induction 1 as [|x y xs ys Hxy _ IH]; simpl; [reflexivity|]. now rewrite Hxy, IH.
Qed.

(** A run that returns no error makes the calls of the plan, and no
  other. *)
Lemma resolve_follows_plan profile mod_ tree :
  forall location folderName (d : Disk),
    result_of (resolveBepInExTree rule profile location folderName mod_ tree d) = None ->
    trace_of (resolveBepInExTree rule profile location folderName mod_ tree d) =
    flat_map events_of_step (plan rule profile mod_ location folderName tree).
Proof.
  induction tree as [n fs ds IH] using FileTree_rect_nested.
  intros location folderName d Hres. rewrite plan_eq.
  destruct (matchingEndFolderName rule folderName) as [matching|] eqn:Hm.
  - rewrite <- matchingEndFolderName_ruleKeyFor, Hm.
    revert Hres. rewrite resolveBepInExTree_eq, Hm, bind_result, bind_trace.
    cbn [enter trace_of result_of disk_of fst snd]. intros Hres.
    rewrite (resolve_matched_success _ _ _ _ _ _ _ Hres).
    unfold folder_destination.
    rewrite (eqb_toLowerCase_folded folderName "config") by reflexivity.
    destruct (equalIgnoringCase folderName "config"); reflexivity.
  - rewrite <- matchingEndFolderName_ruleKeyFor, Hm.
    destruct (resolve_unmatched_success rule _ _ _ _ _ _ Hm Hres)
      as (dirTraces & -> & Hdirs).
    cbn [getFiles getDirectories flat_map events_of_step app] in *.
    f_equal. rewrite flat_map_app, flat_map_of_map, flat_map_of_flat_map.
    f_equal.
    + apply flat_map_ext. intros file. cbn [events_of_step].
      now rewrite file_destination_loose.
    + apply concat_Forall2.
      apply (Forall2_strengthen _ _ _ _ _ IH Hdirs).
      intros directory tr HP (d' & Hnone & ->). now apply HP.
Qed.

Lemma plan_files profile mod_ tree :
  forall location folderName,
    flat_map files_of_step (plan rule profile mod_ location folderName tree)
    = getRecursiveFiles tree.
Proof.
  induction tree as [n fs ds IH] using FileTree_rect_nested.
  intros location folderName. rewrite plan_eq.
  destruct (ruleKeyFor rule folderName); [simpl; now rewrite app_nil_r|].
  cbn [getFiles getDirectories flat_map files_of_step app getRecursiveFiles].
  rewrite flat_map_app, flat_map_of_map, flat_map_of_flat_map. f_equal.
  - clear. induction fs as [|f fs IHfs]; simpl in *; [reflexivity | now f_equal].
  - clear -IH. induction IH as [|directory ds Hd _ IHds]; simpl; [reflexivity|].
    now rewrite Hd, IHds.
Qed.

Lemma plan_directories profile mod_ tree :
  forall location folderName,
    flat_map directories_of_step (plan rule profile mod_ location folderName tree)
    = subtrees tree.
Proof.
  induction tree as [n fs ds IH] using FileTree_rect_nested.
  intros location folderName. rewrite plan_eq.
  destruct (ruleKeyFor rule folderName); [simpl; now rewrite app_nil_r|].
  rewrite (subtrees_unfold (mkFileTree n fs ds)).
  cbn [getFiles getDirectories flat_map directories_of_step app].
  f_equal. rewrite flat_map_app, flat_map_of_map, flat_map_of_flat_map.
  assert (Hnone : forall fs' : list string,
             flat_map (fun _ : string => @nil FileTree) fs' = []).
  { induction fs' as [|f fs' IHfs]; simpl; [reflexivity | exact IHfs]. }
  rewrite Hnone. cbn [app].
  clear -IH. induction IH as [|directory ds Hd _ IHds]; simpl; [reflexivity|].
  now rewrite Hd, IHds.
Qed.

Lemma plan_own_names profile mod_ tree :
  forall location folderName,
    Forall under_own_name (tl (plan rule profile mod_ location folderName tree)) /\
    (folderName = getDirectoryName tree ->
     Forall under_own_name (plan rule profile mod_ location folderName tree)).
Proof.
  induction tree as [n fs ds IH] using FileTree_rect_nested.
  intros location folderName. rewrite plan_eq.
  destruct (ruleKeyFor rule folderName).
  - split; [constructor|]. intros ->. now repeat constructor.
  - cbn [tl getFiles getDirectories].
    assert (Hrest : Forall under_own_name
                      (map (fun file =>
                              SingleFile file (loose_destination rule profile mod_ file)) fs
                       ++ flat_map (fun directory =>
                                      plan rule profile mod_
                                        (path_join [location; getDirectoryName directory])
                                        (getDirectoryName directory) directory) ds)).
    { apply Forall_app. split.
      - apply Forall_forall. intros s Hs. apply in_map_iff in Hs.
        destruct Hs as (f & <- & _). exact I.
      - apply Forall_forall. intros s Hs. apply in_flat_map in Hs.
        destruct Hs as (directory & Hd & Hs).
        rewrite Forall_forall in IH.
        destruct (IH directory Hd (path_join [location; getDirectoryName directory])
                     (getDirectoryName directory)) as [_ Hown].
        specialize (Hown eq_refl). rewrite Forall_forall in Hown. now apply Hown. }
    split; [exact Hrest|]. intros Hname. constructor; [exact Hname | exact Hrest].
Qed.

End PlanFacts.

(** ** Directories reached without a rule match *)

Section ReachedFacts.
Context {Disk : Type} {provider : FsProvider Disk} {externals : Externals}.
Variable rule : RuleType.

Lemma reached_in_plan profile mod_ location folderName tree directory :
  reached_unmatched rule folderName tree directory ->
  exists location' folderName',
    ruleKeyFor rule folderName' = None /\
    forall s,
      In s (plan rule profile mod_ location' folderName' directory) ->
      In s (plan rule profile mod_ location folderName tree).
Proof.
  induction 1 as [Hno|parent directory _ IH Hin Hno].
  - exists location, folderName. now split.
  - destruct IH as (loc & name & Hname & Hsub).
    exists (path_join [loc; getDirectoryName directory]), (getDirectoryName directory).
    split; [exact Hno|]. intros s Hs. apply Hsub.
    rewrite plan_eq, Hname. right. apply in_or_app. right.
    apply in_flat_map. exists directory. now split.
Qed.

Lemma reached_file_planned profile mod_ location folderName tree directory file :
  reached_unmatched rule folderName tree directory ->
  In file (getFiles directory) ->
  In (SingleFile file (loose_destination rule profile mod_ file))
     (plan rule profile mod_ location folderName tree).
Proof.
  intros Hreached Hfile.
  destruct (reached_in_plan profile mod_ location folderName tree directory Hreached)
    as (loc & name & Hname & Hsub).
  apply Hsub. rewrite plan_eq, Hname. right. apply in_or_app. left.
  apply in_map_iff. exists file. now split.
Qed.

Lemma step_events_infix (s : Step) (steps : list Step) :
  In s steps ->
  exists pre post,
    flat_map events_of_step steps = pre ++ events_of_step s ++ post.
Proof.
  intros Hin. apply in_split in Hin. destruct Hin as (l1 & l2 & ->).
  rewrite flat_map_app. simpl. eexists. eexists. reflexivity.
Qed.

End ReachedFacts.

(** ** The first pass of [uninstallMod], entry by entry *)

Section RootPassFacts.
Context {Disk : Type} {provider : FsProvider Disk} {externals : Externals}.
Variable bepInExVariant : list ModLoaderPackageMapping.

Lemma reserved_test (file : string) :
  String.eqb (toLowerCase file) "mods.yml" = equalIgnoringCase file "mods.yml".
Proof. now apply eqb_toLowerCase_folded. Qed.

Lemma root_swept_of_profileRoot_swept profile files tr :
  profileRoot_swept profile files tr -> root_swept profile files tr.
Proof.
  induction 1 as [|file files st tr Hst _ IH|file files tr Hname _ IH
                  |file files tr Hname _ IH].
  - constructor.
  - now constructor.
  - apply root_swept_reserved; [|exact IH].
    rewrite <- reserved_test. now apply String.eqb_eq.
  - apply root_swept_deleted; [|exact IH].
    rewrite <- reserved_test. now apply String.eqb_neq.
Qed.

Lemma profileRoot_entry_unlink profile file (d : Disk) p r :
  In (Ev_unlink p r) (trace_of (uninstallMod_profileRoot_entry profile file d)) ->
  p = path_join [getPathOfProfile profile; file] /\
  equalIgnoringCase file "mods.yml" = false /\
  trace_of (uninstallMod_profileRoot_entry profile file d) =
  [Ev_lstat p (Ok StatFile); Ev_unlink p r].
Proof.
  unfold uninstallMod_profileRoot_entry. rewrite reserved_test.
  unfold bindT, bind, lstat, unlink, call, ret, trace_of, result_of, disk_of.
  destruct (fs_lstat (path_join [getPathOfProfile profile; file]) d)
    as [[[]|t] d1]; simpl; try (intros [H|[]]; discriminate).
  destruct (equalIgnoringCase file "mods.yml") eqn:Ename; simpl.
  - intros [H|[]]; discriminate.
  - destruct (fs_unlink (path_join [getPathOfProfile profile; file]) d1)
      as [r' d2]; simpl.
    intros [H|[H|[]]]; [discriminate|]. inversion H; subst. now repeat split.
Qed.

(** Whatever the loop over the listing unlinks is an entry of the listing,
  examined just before. *)
Lemma profileRoot_entries_unlink profile (files : list string) :
  forall (d : Disk) p r,
    In (Ev_unlink p r)
       (trace_of (forEachT (uninstallMod_profileRoot_entry profile) files d)) ->
    exists file pre post,
      In file files /\
      p = path_join [getPathOfProfile profile; file] /\
      equalIgnoringCase file "mods.yml" = false /\
      trace_of (forEachT (uninstallMod_profileRoot_entry profile) files d) =
      pre ++ Ev_lstat p (Ok StatFile) :: Ev_unlink p r :: post.
Proof.
  induction files as [|file files IH]; intros d p r; [intros []|].
  rewrite forEachT_cons. unfold bindT. rewrite bind_trace.
  intros Hin. apply in_app_or in Hin. destruct Hin as [Hin|Hin].
  - destruct (profileRoot_entry_unlink profile file d p r Hin) as (Hp & Hname & Htr).
    exists file, []. eexists. split; [now left|]. split; [exact Hp|].
    split; [exact Hname|]. rewrite Htr. reflexivity.
  - destruct (result_of (uninstallMod_profileRoot_entry profile file d)) as [[]|t];
      [|destruct Hin].
    destruct (IH _ p r Hin) as (file' & pre & post & Hfile & Hp & Hname & Htr).
    exists file', (trace_of (uninstallMod_profileRoot_entry profile file d) ++ pre), post.
    split; [now right|]. split; [exact Hp|]. split; [exact Hname|].
    rewrite Htr. now rewrite app_assoc.
Qed.

Lemma profileRoot_unlink_listed profile (d : Disk) p r :
  In (Ev_unlink p r) (trace_of (uninstallMod_profileRoot profile d)) ->
  exists files file pre post,
    trace_of (uninstallMod_profileRoot profile d) =
    Ev_readdir (getPathOfProfile profile) (Ok files)
      :: pre ++ Ev_lstat p (Ok StatFile) :: Ev_unlink p r :: post /\
    In file files /\
    p = path_join [getPathOfProfile profile; file] /\
    equalIgnoringCase file "mods.yml" = false.
Proof.
  unfold uninstallMod_profileRoot, bindT. rewrite bind_trace.
  assert (Hrd : trace_of (readdir (getPathOfProfile profile) d) =
                [Ev_readdir (getPathOfProfile profile)
                   (result_of (readdir (getPathOfProfile profile) d))])
    by (unfold readdir; apply call_trace).
  rewrite Hrd. clear Hrd.
  destruct (result_of (readdir (getPathOfProfile profile) d)) as [files|t].
  - intros [Hin|Hin]; [discriminate|].
    destruct (profileRoot_entries_unlink profile files _ p r Hin)
      as (file & pre & post & Hfile & Hp & Hname & Htr).
    exists files, file, pre, post. cbn [app]. rewrite Htr. now repeat split.
  - intros [Hin|[]]. discriminate.
Qed.

End RootPassFacts.

(** * The claims *)

Section Claims.
Context {Disk : Type} {provider : FsProvider Disk} {externals : Externals}.
Variable rule : RuleType.
Variable bepInExVariant : list ModLoaderPackageMapping.

(** C9.  Fail-fast propagation.  In every run of [resolveBepInExTree] and in
  every run of [applyModMode], on every disk: either no provider call
  threw and no error is returned; or the call that threw (a directory
  creation, a file or folder copy, a rename, made at this level or in a
  deeper recursive call) is the last call of the run, so that no sibling
  file or subdirectory is attempted after it, all calls before it
  succeeded, and exactly one error is returned, carrying the message of
  what was thrown. *)
Theorem fail_fast_propagation profile location folderName mod_ tree mode (d : Disk) :
  fail_fast (result_of (resolveBepInExTree rule profile location folderName mod_ tree d))
            (trace_of (resolveBepInExTree rule profile location folderName mod_ tree d))
  /\
  fail_fast (result_of (applyModMode mod_ tree profile location mode d))
            (trace_of (applyModMode mod_ tree profile location mode d)).
Proof.
  split.
  - apply FailFast_resolveBepInExTree.
  - apply FailFast_applyModMode.
Qed.

(** C5.  When the folder name matches a rule key, the destination of the
  folder copy is the profile root joined with that rule's destination
  subpath if the folder name is [config] in any letter case, and that
  path with the mod's name as one more component otherwise: the
  directory creation and the folder copy both address this destination,
  and nothing else is changed. *)
Theorem matched_folder_destination profile location folderName mod_ tree key (d : Disk) :
  matchingEndFolderName rule folderName = Some key ->
  exists subpath dest,
    In (key, subpath) (rules rule) /\
    toLowerCase key = toLowerCase folderName /\
    (toLowerCase folderName = "config" ->
     dest = path_join [getPathOfProfile profile; subpath]) /\
    (toLowerCase folderName <> "config" ->
     dest = path_join [getPathOfProfile profile; subpath; getName mod_]) /\
    (forall ev p,
        In ev (trace_of (resolveBepInExTree rule profile location folderName mod_ tree d)) ->
        ev_mutates ev = Some p -> p = dest) /\
    (result_of (resolveBepInExTree rule profile location folderName mod_ tree d) = None ->
     trace_of (resolveBepInExTree rule profile location folderName mod_ tree d) =
     [Ev_enter location folderName tree;
      Ev_ensureDirectory dest (Ok tt);
      Ev_copyFolder location dest (Ok tt)]).
Proof.
  intros Hkey. destruct (matchingEndFolderName_Some rule _ _ Hkey) as [Hin Hlow].
  exists (Object_get (rules rule) key).
  exists (if negb (String.eqb (toLowerCase folderName) "config")
          then path_join [getPathOfProfile profile; Object_get (rules rule) key;
                          getName mod_]
          else path_join [getPathOfProfile profile; Object_get (rules rule) key]).
  split; [exact Hin|]. split; [exact Hlow|].
  split; [intros ->; reflexivity|].
  split; [intros Hne; apply String.eqb_neq in Hne; now rewrite Hne|].
  rewrite resolveBepInExTree_eq, Hkey, bind_result, bind_trace.
  cbn [enter trace_of result_of disk_of fst snd].
  split.
  - unfold resolveBepInExTree_matched.
    set (dest := if negb _ then _ else _).
    unfold ensureDirectory, copyFolder, bind, call, ret, result_of, trace_of.
    destruct (FileUtils_ensureDirectory dest d) as [[[]|t] d1]; simpl.
    + destruct (fs_copyFolder location dest d1) as [r d2]; simpl.
      destruct r; simpl; intros ev p [<-|[<-|[<-|[]]]]; simpl; congruence.
    + intros ev p [<-|[<-|[]]]; simpl; congruence.
  - intros Hres. now rewrite (resolve_matched_success _ _ _ _ _ _ _ Hres).
Qed.

(** C10.  The first pass of [uninstallMod] deletes regular files only: on
  every disk, the only calls of the pass that change the disk are
  [unlink]s, and every [unlink] directly follows an [lstat] of the same
  path that answered "regular file".  An entry for which [lstat] answers
  "directory", the [BepInEx] directory among them, is never unlinked. *)
Theorem profile_root_pass_unlinks_only_files profile (d : Disk) :
  (forall ev p,
      In ev (trace_of (uninstallMod_profileRoot profile d)) ->
      ev_mutates ev = Some p -> exists r, ev = Ev_unlink p r) /\
  (forall pre p r post,
      trace_of (uninstallMod_profileRoot profile d) = pre ++ Ev_unlink p r :: post ->
      exists pre', pre = pre' ++ [Ev_lstat p (Ok StatFile)]).
Proof.
  apply unlinks_follow_lstat_spec, profileRoot_unlinks_follow_lstat.
Qed.

(** C4.  The mode toggle is idempotent per file.  Disabling a file whose
  name ends with a plugin extension followed by [.old] makes no call at
  all, since such a name ends with no bare plugin extension; enabling a
  file whose name does not end with a plugin extension followed by [.old]
  makes no call at all. *)
Theorem toggle_idempotent file (d : Disk) :
  (hasDisabledExtension file ->
   ~ hasModModeExtension file /\
   applyModMode_file DISABLED file d = (Ok tt, d, [])) /\
  (~ hasDisabledExtension file ->
   applyModMode_file ENABLED file d = (Ok tt, d, [])).
Proof.
  split.
  - intros Hdis. pose proof (disabled_has_no_extension file Hdis) as Hno.
    split; [exact Hno|]. rewrite applyModMode_file_disable.
    destruct (existsb _ modModeExtensions) eqn:E; [|reflexivity].
    exfalso. apply Hno. now apply hasModModeExtension_existsb.
  - intros Hno. rewrite applyModMode_file_enable.
    destruct (existsb _ modModeExtensions) eqn:E; [|reflexivity].
    exfalso. apply Hno. now apply hasDisabledExtension_existsb.
Qed.

End Claims.

(** * Further properties of the installer *)

(** ** Fail-fast runs and where their error comes from *)

Section FailFastWithFacts.
Context {Disk : Type} {provider : FsProvider Disk}.
Variable justifies : R2Error -> Event -> Prop.

Lemma FailFastWith_ret_None : FailFastWith justifies (@ret Disk _ None).
Proof. intro d. constructor. Qed.

Lemma FailFastWith_bind (m k : Fs Disk (option R2Error)) :
  FailFastWith justifies m -> FailFastWith justifies k ->
  FailFastWith justifies
    (bind m (fun e => match e with Some err => ret (Some err) | None => k end)).
Proof.
  intros Hm Hk d. rewrite bind_result, bind_trace.
  specialize (Hm d). destruct (result_of (m d)) as [e|]; simpl in *.
  - rewrite app_nil_r. exact Hm.
  - specialize (Hk (disk_of (m d))).
    destruct (result_of (k (disk_of (m d)))) as [e|]; simpl in *.
    + destruct Hk as (pre & ev & -> & Hpre & Hev).
      exists (trace_of (m d) ++ pre), ev. rewrite app_assoc.
      repeat split; [now apply Forall_ok_app | exact Hev].
    + now apply Forall_ok_app.
Qed.

Lemma FailFastWith_forEach {A} (f : A -> Fs Disk (option R2Error)) (xs : list A) :
  (forall x, In x xs -> FailFastWith justifies (f x)) ->
  FailFastWith justifies (forEach f xs).
Proof.
  induction xs as [|x xs IH]; intros Hf; simpl.
  - apply FailFastWith_ret_None.
  - apply FailFastWith_bind;
      [apply Hf; now left | apply IH; intros y Hy; apply Hf; now right].
Qed.

Lemma FailFastWith_enter location folderName tree (m : Fs Disk (option R2Error)) :
  FailFastWith justifies m ->
  FailFastWith justifies (_ <- enter location folderName tree ;; m).
Proof.
  intros Hm d. specialize (Hm d).
  unfold bind, enter, result_of, trace_of, fail_fast_with in *.
  destruct (m d) as [[[e|] d'] tr]; simpl in *.
  - destruct Hm as (pre & ev & -> & Hpre & Hev).
    exists (Ev_enter location folderName tree :: pre), ev.
    repeat split; auto. constructor; [reflexivity | exact Hpre].
  - constructor; [reflexivity | exact Hm].
Qed.

End FailFastWithFacts.

Lemma fail_fast_with_weaken (R R' : R2Error -> Event -> Prop) res tr :
  (forall e ev, R e ev -> R' e ev) ->
  fail_fast_with R res tr -> fail_fast_with R' res tr.
Proof.
  intros Himp. destruct res as [e|]; simpl; [|trivial].
  intros (pre & ev & Htr & Hpre & Hev). exists pre, ev. auto.
Qed.

Lemma fail_fast_with_message res tr :
  fail_fast_with (fun e ev => exists t, ev_thrown ev = Some t /\
                                        errMessage e = thrown_message t) res tr ->
  fail_fast res tr.
Proof.
  destruct res as [e|]; simpl; [|trivial].
  intros (pre & ev & Htr & Hpre & t & Hev & Hmsg). exists pre, ev, t. auto.
Qed.

Lemma wraps_message e t : wraps e t -> errMessage e = thrown_message t.
Proof. now intros [_ H]. Qed.

Lemma loader_error_origin_message e ev :
  loader_error_origin e ev ->
  exists t, ev_thrown ev = Some t /\ errMessage e = thrown_message t.
Proof.
  destruct ev; simpl; try contradiction;
    destruct r as [|[m|e']]; try contradiction; intros H; eexists;
      (split; [reflexivity|]);
      try (now apply wraps_message);
      destruct H as [->|H]; [reflexivity | now apply wraps_message].
Qed.

(** ** More on [resolveBepInExTree] *)

Section ResolveMore.
Context {Disk : Type} {provider : FsProvider Disk} {externals : Externals}.
Variable rule : RuleType.

Lemma resolve_file_error_origin profile location mod_ file :
  FailFastWith resolve_error_origin
    (resolveBepInExTree_file rule profile location mod_ file).
Proof.
  intro d. unfold resolveBepInExTree_file.
  set (dest := if endsWith (toLowerCase file) ".mm.dll" then _ else _).
  unfold ensureDirectory, copyFile, bind, call, ret, result_of, trace_of.
  destruct (FileUtils_ensureDirectory dest d) as [[[]|[m|e]] d1]; simpl.
  - destruct (fs_copyFile file (path_join [dest; path_basename file]) d1)
      as [[[]|[m|e]] d2]; simpl.
    + repeat constructor.
    + exists [Ev_ensureDirectory dest (Ok tt)], 
             (Ev_copyFile file (path_join [dest; path_basename file])
                          (Throw (ThrownError m))).
      repeat split. repeat constructor.
    + exists [Ev_ensureDirectory dest (Ok tt)], 
             (Ev_copyFile file (path_join [dest; path_basename file])
                          (Throw (ThrownR2 e))).
      repeat split. repeat constructor.
  - exists [], (Ev_ensureDirectory dest (Throw (ThrownError m))).
    repeat split. constructor.
  - exists [], (Ev_ensureDirectory dest (Throw (ThrownR2 e))).
    split; [reflexivity|]. split; [constructor|]. now left.
Qed.

Lemma resolve_matched_error_origin profile location folderName mod_ matching :
  FailFastWith resolve_error_origin
    (resolveBepInExTree_matched rule profile location folderName mod_ matching).
Proof.
  intro d. unfold resolveBepInExTree_matched.
  set (dest := if negb _ then _ else _).
  unfold ensureDirectory, copyFolder, bind, call, ret, result_of, trace_of.
  destruct (FileUtils_ensureDirectory dest d) as [[[]|t] d1]; simpl.
  - destruct (fs_copyFolder location dest d1) as [[[]|t] d2]; simpl.
    + repeat constructor.
    + exists [Ev_ensureDirectory dest (Ok tt)],
             (Ev_copyFolder location dest (Throw t)).
      repeat split. repeat constructor.
  - exists [], (Ev_ensureDirectory dest (Throw t)).
    split; [reflexivity|]. split; [constructor|].
    destruct t as [m|e]; simpl; [now split | right; now split].
Qed.

(** X1.  Where an error of [resolveBepInExTree] comes from.  In every run, on
  every disk: if an error is returned, the call that threw is the last
  call of the run and all calls before it succeeded; an [R2Error] thrown
  by the copy of a loose file is returned as it is, anything else thrown
  there is wrapped in a [FileWriteError] with its message; whatever a
  folder copy throws, an [R2Error] too, is wrapped in a [FileWriteError]
  with its message. *)
Theorem resolve_error_comes_from_last_call profile location folderName mod_ tree
        (d : Disk) :
  fail_fast_with resolve_error_origin
    (result_of (resolveBepInExTree rule profile location folderName mod_ tree d))
    (trace_of (resolveBepInExTree rule profile location folderName mod_ tree d)).
Proof.
  revert location folderName d.
  induction tree as [n fs ds IH] using FileTree_rect_nested.
  intros location folderName. change (FailFastWith resolve_error_origin
    (resolveBepInExTree rule profile location folderName mod_ (mkFileTree n fs ds))).
  rewrite resolveBepInExTree_eq.
  apply FailFastWith_enter.
  destruct (matchingEndFolderName rule folderName) as [matching|].
  - apply resolve_matched_error_origin.
  - apply FailFastWith_bind.
    + apply FailFastWith_forEach. intros file _. apply resolve_file_error_origin.
    + apply FailFastWith_forEach. intros directory Hin. simpl in Hin.
      rewrite Forall_forall in IH. intro d. now apply IH.
Qed.

(** *** Directories are created before anything is copied into them *)

Lemma ensured_copies_app a b :
  ensured_copies a -> ensured_copies b -> ensured_copies (a ++ b).
Proof.
  induction 1; intros Hb; simpl; [exact Hb | | | |].
  - apply ec_enter; auto.
  - apply ec_ensure_failed; auto.
  - apply ec_folder; auto.
  - apply ec_file; auto.
Qed.

Lemma resolve_ensured_copies profile mod_ tree :
  forall location folderName d,
    ensured_copies
      (trace_of (resolveBepInExTree rule profile location folderName mod_ tree d)).
Proof.
  induction tree as [n fs ds IH] using FileTree_rect_nested.
  intros location folderName d. rewrite resolveBepInExTree_eq, bind_trace.
  cbn [enter trace_of result_of disk_of fst snd app]. apply ec_enter.
  destruct (matchingEndFolderName rule folderName) as [matching|].
  - unfold resolveBepInExTree_matched.
    unfold ensureDirectory, copyFolder, bind, call, ret, result_of, trace_of.
    destruct (FileUtils_ensureDirectory _ d) as [[[]|t] d1]; simpl.
    + destruct (fs_copyFolder _ _ d1) as [r d2]; simpl.
      destruct r; apply ec_folder; constructor.
    + apply ec_ensure_failed. constructor.
  - rewrite bind_trace. apply ensured_copies_app.
    + apply forEach_trace_closed.
      * constructor.
      * apply ensured_copies_app.
      * intros file d' _. unfold resolveBepInExTree_file.
        unfold ensureDirectory, copyFile, bind, call, ret, result_of, trace_of.
        destruct (FileUtils_ensureDirectory _ d') as [[[]|t] d1]; simpl.
        -- destruct (fs_copyFile _ _ d1) as [r d2]; simpl.
           destruct r as [|[m|e]]; apply ec_file; constructor.
        -- destruct t; apply ec_ensure_failed; constructor.
    + destruct (result_of (forEach _ (getFiles _) d)) as [e|]; [constructor|].
      apply forEach_trace_closed.
      * constructor.
      * apply ensured_copies_app.
      * intros directory d' Hin. rewrite Forall_forall in IH. now apply IH.
Qed.

Lemma ensured_copies_spec tr :
  ensured_copies tr ->
  (forall ev, In ev tr ->
     (exists l f t, ev = Ev_enter l f t) \/ (exists p r, ev = Ev_ensureDirectory p r) \/
     (exists s p r, ev = Ev_copyFile s p r) \/ (exists s p r, ev = Ev_copyFolder s p r)) /\
  (forall pre src dest r post,
      tr = pre ++ Ev_copyFolder src dest r :: post ->
      exists pre', pre = pre' ++ [Ev_ensureDirectory dest (Ok tt)]) /\
  (forall pre src dest r post,
      tr = pre ++ Ev_copyFile src dest r :: post ->
      exists pre' dir,
        pre = pre' ++ [Ev_ensureDirectory dir (Ok tt)] /\
        dest = path_join [dir; path_basename src]).
Proof.
  induction 1 as [|l f t tr _ (IH1 & IH2 & IH3)|p t tr _ (IH1 & IH2 & IH3)
                  |p src r tr _ (IH1 & IH2 & IH3)|p src r tr _ (IH1 & IH2 & IH3)].
  - split; [intros ev []|]. split; intros [|? ?] ? ? ? ? H; discriminate.
  - split; [|split].
    + intros ev [<-|Hin]; [left; eauto | now apply IH1].
    + intros [|e pre] s dst r post Heq; simpl in Heq; [discriminate|].
      inversion Heq as [[He Htr]]; subst e. destruct (IH2 _ _ _ _ _ Htr) as [pre' ->].
      now eexists (_ :: pre').
    + intros [|e pre] s dst r post Heq; simpl in Heq; [discriminate|].
      inversion Heq as [[He Htr]]; subst e. destruct (IH3 _ _ _ _ _ Htr) as (pre' & dir & -> & ->).
      eexists (_ :: pre'), dir; split; reflexivity.
  - split; [|split].
    + intros ev [<-|Hin]; [right; left; eauto | now apply IH1].
    + intros [|e pre] s dst r post Heq; simpl in Heq; [discriminate|].
      inversion Heq as [[He Htr]]; subst e. destruct (IH2 _ _ _ _ _ Htr) as [pre' ->].
      now eexists (_ :: pre').
    + intros [|e pre] s dst r post Heq; simpl in Heq; [discriminate|].
      inversion Heq as [[He Htr]]; subst e. destruct (IH3 _ _ _ _ _ Htr) as (pre' & dir & -> & ->).
      eexists (_ :: pre'), dir; split; reflexivity.
  - split; [|split].
    + intros ev [<-|[<-|Hin]];
        [right; left; eauto | right; right; right; eauto | now apply IH1].
    + intros [|e1 [|e2 pre]] s dst r' post Heq; simpl in Heq.
      * discriminate.
      * inversion Heq; subst. now exists [].
      * inversion Heq as [[He1 He2 Htr]]. destruct (IH2 _ _ _ _ _ Htr) as [pre' ->].
        now exists (Ev_ensureDirectory p (Ok tt) :: Ev_copyFolder src p r :: pre').
    + intros [|e1 [|e2 pre]] s dst r' post Heq; simpl in Heq.
      * discriminate.
      * discriminate.
      * inversion Heq as [[He1 He2 Htr]].
        destruct (IH3 _ _ _ _ _ Htr) as (pre' & dir & -> & ->).
        now exists (Ev_ensureDirectory p (Ok tt) :: Ev_copyFolder src p r :: pre'), dir.
  - split; [|split].
    + intros ev [<-|[<-|Hin]];
        [right; left; eauto | right; right; left; eauto | now apply IH1].
    + intros [|e1 [|e2 pre]] s dst r' post Heq; simpl in Heq.
      * discriminate.
      * discriminate.
      * inversion Heq as [[He1 He2 Htr]]. destruct (IH2 _ _ _ _ _ Htr) as [pre' ->].
        now exists (Ev_ensureDirectory p (Ok tt)
                      :: Ev_copyFile src (path_join [p; path_basename src]) r :: pre').
    + intros [|e1 [|e2 pre]] s dst r' post Heq; simpl in Heq.
      * discriminate.
      * inversion Heq; subst. exists [], p. now split.
      * inversion Heq as [[He1 He2 Htr]].
        destruct (IH3 _ _ _ _ _ Htr) as (pre' & dir & -> & ->).
        now exists (Ev_ensureDirectory p (Ok tt)
                      :: Ev_copyFile src (path_join [p; path_basename src]) r :: pre'),
                   dir.
Qed.

(** X2.  In every run of [resolveBepInExTree], failing or not, the only provider
  calls are directory creations and copies; a folder copy directly
  follows the successful creation of its destination, and a file copy
  directly follows the successful creation of the directory it copies
  into, under the file's base name. *)
Theorem resolve_creates_directory_before_copy profile location folderName mod_ tree
        (d : Disk) :
  (forall ev,
      In ev (trace_of (resolveBepInExTree rule profile location folderName mod_ tree d)) ->
      (exists l f t, ev = Ev_enter l f t) \/ (exists p r, ev = Ev_ensureDirectory p r) \/
      (exists s p r, ev = Ev_copyFile s p r) \/ (exists s p r, ev = Ev_copyFolder s p r)) /\
  (forall pre src dest r post,
      trace_of (resolveBepInExTree rule profile location folderName mod_ tree d)
      = pre ++ Ev_copyFolder src dest r :: post ->
      exists pre', pre = pre' ++ [Ev_ensureDirectory dest (Ok tt)]) /\
  (forall pre src dest r post,
      trace_of (resolveBepInExTree rule profile location folderName mod_ tree d)
      = pre ++ Ev_copyFile src dest r :: post ->
      exists pre' dir,
        pre = pre' ++ [Ev_ensureDirectory dir (Ok tt)] /\
        dest = path_join [dir; path_basename src]).
Proof. apply ensured_copies_spec, resolve_ensured_copies. Qed.

(** *** An empty rule set *)

Lemma no_rules_no_match folderName :
  rules rule = [] -> matchingEndFolderName rule folderName = None.
Proof. unfold matchingEndFolderName. now intros ->. Qed.

Lemma files_handled_no_rules (tr : list Event) :
  rules rule = [] -> flat_map (files_handled rule) tr = file_copies tr.
Proof.
  intros Hrules. induction tr as [|ev tr IH]; [reflexivity|].
  unfold file_copies in *. simpl. rewrite IH. f_equal.
  destruct ev; try reflexivity. simpl. now rewrite (no_rules_no_match _ Hrules).
Qed.

Lemma matched_locations_no_rules (tr : list Event) :
  rules rule = [] -> matched_locations rule tr = [].
Proof.
  intros Hrules. induction tr as [|ev tr IH]; [reflexivity|].
  unfold matched_locations in *. simpl. rewrite IH.
  destruct ev; try reflexivity. now rewrite (no_rules_no_match _ Hrules).
Qed.

(** X3.  With an empty rule set a run that returns no error flattens the
  package: no folder is copied as a whole, every file of the tree, at
  whatever depth, is copied singly, in scan order, and lands directly in
  the directory its name decides ([monomod] or the default path, under the
  mod's name) under its base name. *)
Theorem resolve_without_rules_flattens profile location folderName mod_ tree (d : Disk) :
  rules rule = [] ->
  result_of (resolveBepInExTree rule profile location folderName mod_ tree d) = None ->
  file_copies (trace_of (resolveBepInExTree rule profile location folderName mod_ tree d))
  = getRecursiveFiles tree /\
  folder_copies (trace_of (resolveBepInExTree rule profile location folderName mod_ tree d))
  = [] /\
  (forall src dest r,
      In (Ev_copyFile src dest r)
         (trace_of (resolveBepInExTree rule profile location folderName mod_ tree d)) ->
      dest = path_join [file_destination rule profile mod_ src; path_basename src]).
Proof.
  intros Hrules Hres.
  destruct (resolve_tiles rule profile mod_ tree _ _ _ Hres) as [(Hfiles & _ & Hfold) _].
  split; [|split].
  - rewrite <- Hfiles. symmetry. now apply files_handled_no_rules.
  - rewrite Hfold. now apply matched_locations_no_rules.
  - intros src dest r Hin.
    exact (resolve_copies_by_name rule profile mod_ tree _ _ _ _ _ _ Hin).
Qed.

End ResolveMore.

(** ** The loader bootstrap and the entry points of install *)

Section LoaderFacts.
Context {Disk : Type} {provider : FsProvider Disk} {externals : Externals}
        {environment : InstallEnvironment Disk}.
Variable rule : RuleType.
Variable bepInExVariant : list ModLoaderPackageMapping.

Lemma buildFromLocation_run location (d : Disk) :
  buildFromLocation location d =
  (fst (FileTree_buildFromLocation location d),
   snd (FileTree_buildFromLocation location d), []).
Proof.
  unfold buildFromLocation. now destruct (FileTree_buildFromLocation location d).
Qed.

(** Running an operation on what a scan answers. *)
Lemma after_scan location (k : FileTree -> Fs Disk (option R2Error)) (d : Disk) :
  (files <- buildFromLocation location ;;
   match files with
   | inl e => ret (Some e)
   | inr files => k files
   end) d =
  match fst (FileTree_buildFromLocation location d) with
  | inl e => (Some e, snd (FileTree_buildFromLocation location d), [])
  | inr files => k files (snd (FileTree_buildFromLocation location d))
  end.
Proof.
  unfold bind at 1. rewrite buildFromLocation_run.
  destruct (fst (FileTree_buildFromLocation location d)) as [e|files]; [reflexivity|].
  destruct (k files _) as [[r d2] t2]. reflexivity.
Qed.

Lemma loader_file_error_origin profile file :
  FailFastWith loader_error_origin (installModLoader_file profile file).
Proof.
  intro d. unfold installModLoader_file.
  unfold copyFile, bind, call, ret, result_of, trace_of.
  destruct (fs_copyFile file _ d) as [[[]|[m|e]] d1]; simpl.
  - repeat constructor.
  - eexists [], _. split; [reflexivity|]. split; [constructor|]. now split.
  - eexists [], _. split; [reflexivity|]. split; [constructor|]. now left.
Qed.

Lemma loader_directory_error_origin profile location directory :
  FailFastWith loader_error_origin
    (installModLoader_directory profile location directory).
Proof.
  intro d. unfold installModLoader_directory.
  unfold copyFolder, bind, call, ret, result_of, trace_of.
  destruct (fs_copyFolder _ _ d) as [[[]|t] d1]; simpl.
  - repeat constructor.
  - eexists [], _. split; [reflexivity|]. split; [constructor|]. now split.
Qed.

Lemma loader_icon_error_origin bieLocation profile :
  FailFastWith loader_error_origin (installModLoader_icon bieLocation profile).
Proof.
  intro d. unfold installModLoader_icon.
  unfold copyFile, bind, call, ret, result_of, trace_of.
  destruct (fs_copyFile _ _ d) as [[[]|[m|e]] d1]; simpl.
  - repeat constructor.
  - eexists [], _. split; [reflexivity|]. split; [constructor|]. now split.
  - eexists [], _. split; [reflexivity|]. split; [constructor|]. right. now split.
Qed.

Lemma loader_payload_error_origin bieLocation location profile files :
  FailFastWith loader_error_origin
    (installModLoader_payload bieLocation location profile files).
Proof.
  unfold installModLoader_payload. apply FailFastWith_bind.
  - apply FailFastWith_forEach. intros file _. apply loader_file_error_origin.
  - apply FailFastWith_bind.
    + apply FailFastWith_forEach. intros dir _. apply loader_directory_error_origin.
    + apply loader_icon_error_origin.
Qed.

Lemma installModLoader_after_scan bieLocation variant profile (d : Disk) :
  match fst (FileTree_buildFromLocation
               (path_join [bieLocation; rootFolder variant]) d) with
  | inl e =>
      result_of (installModLoader bieLocation variant profile d) = Some e /\
      trace_of (installModLoader bieLocation variant profile d) = []
  | inr _ =>
      fail_fast_with loader_error_origin
        (result_of (installModLoader bieLocation variant profile d))
        (trace_of (installModLoader bieLocation variant profile d))
  end.
Proof.
  unfold installModLoader. rewrite after_scan.
  destruct (fst (FileTree_buildFromLocation _ d)) as [e|files].
  - now split.
  - apply loader_payload_error_origin.
Qed.

(** X4.  [installModLoader] scans [<package>/<rootFolder>].  When the scan
  answers with an error, that error is returned as it is and no provider
  call is made.  Otherwise the run is fail-fast: the first call that
  throws is the last call of the run, and the error returned is the
  [R2Error] thrown itself or a [FileWriteError] with its message; what a
  folder copy throws is always wrapped. *)
Theorem installModLoader_fails_fast bieLocation variant profile (d : Disk) :
  match fst (FileTree_buildFromLocation
               (path_join [bieLocation; rootFolder variant]) d) with
  | inl e =>
      result_of (installModLoader bieLocation variant profile d) = Some e /\
      trace_of (installModLoader bieLocation variant profile d) = []
  | inr _ =>
      fail_fast_with loader_error_origin
        (result_of (installModLoader bieLocation variant profile d))
        (trace_of (installModLoader bieLocation variant profile d))
  end.
Proof. apply installModLoader_after_scan. Qed.

Lemma loader_file_success profile file (d : Disk) :
  result_of (installModLoader_file profile file d) = None ->
  trace_of (installModLoader_file profile file d) =
  [Ev_copyFile file (path_join [getPathOfProfile profile; path_basename file]) (Ok tt)].
Proof.
  unfold installModLoader_file, copyFile, bind, call, ret, result_of, trace_of.
  destruct (fs_copyFile file _ d) as [[[]|[m|e]] d1]; simpl; try discriminate.
  reflexivity.
Qed.

Lemma loader_directory_success profile location directory (d : Disk) :
  result_of (installModLoader_directory profile location directory d) = None ->
  trace_of (installModLoader_directory profile location directory d) =
  [Ev_copyFolder (path_join [location; getDirectoryName directory])
     (path_join [getPathOfProfile profile; path_basename (getDirectoryName directory)])
     (Ok tt)].
Proof.
  unfold installModLoader_directory, copyFolder, bind, call, ret, result_of, trace_of.
  destruct (fs_copyFolder _ _ d) as [[[]|t] d1]; simpl; try discriminate.
  reflexivity.
Qed.

Lemma loader_icon_success bieLocation profile (d : Disk) :
  result_of (installModLoader_icon bieLocation profile d) = None ->
  trace_of (installModLoader_icon bieLocation profile d) =
  [Ev_copyFile (path_join [bieLocation; "icon.png"])
     (path_join [getPathOfProfile profile; "BepInEx"; "core"; "icon.png"]) (Ok tt)].
Proof.
  unfold installModLoader_icon, copyFile, bind, call, ret, result_of, trace_of.
  destruct (fs_copyFile _ _ d) as [[[]|[m|e]] d1]; simpl; try discriminate.
  reflexivity.
Qed.

Lemma concat_singletons {A} (f : A -> Event) (xs : list A) (trs : list (list Event)) :
  Forall2 (fun x tr => tr = [f x]) xs trs -> concat trs = map f xs.
Proof. induction 1 as [|x tr xs trs -> _ IH]; simpl; [reflexivity | now rewrite IH]. Qed.

(** X5.  A run of [installModLoader] that returns no error has copied every
  file directly in the payload root to the profile root under its base
  name, then every directory directly in the payload root to the profile
  root as a whole, then [icon.png] from the package to
  [BepInEx/core/icon.png], in this order and with no other call: the rule
  set plays no part, nothing is put under the mod's name, and no
  directory is created first. *)
Theorem installModLoader_copies_payload bieLocation variant profile files (d : Disk) :
  fst (FileTree_buildFromLocation (path_join [bieLocation; rootFolder variant]) d)
  = inr files ->
  result_of (installModLoader bieLocation variant profile d) = None ->
  trace_of (installModLoader bieLocation variant profile d) =
  map (fun file =>
         Ev_copyFile file (path_join [getPathOfProfile profile; path_basename file])
                     (Ok tt)) (getFiles files)
  ++ map (fun directory =>
            Ev_copyFolder
              (path_join [path_join [bieLocation; rootFolder variant];
                          getDirectoryName directory])
              (path_join [getPathOfProfile profile;
                          path_basename (getDirectoryName directory)])
              (Ok tt)) (getDirectories files)
  ++ [Ev_copyFile (path_join [bieLocation; "icon.png"])
        (path_join [getPathOfProfile profile; "BepInEx"; "core"; "icon.png"]) (Ok tt)].
Proof.
  intros Hscan. unfold installModLoader. rewrite after_scan, Hscan.
  generalize (snd (FileTree_buildFromLocation
                     (path_join [bieLocation; rootFolder variant]) d)).
  clear d Hscan. intros d. unfold installModLoader_payload.
  rewrite bind_result, bind_trace.
  destruct (result_of (forEach (installModLoader_file profile) (getFiles files) d))
    as [e|] eqn:Efiles; [discriminate|].
  rewrite bind_result, bind_trace.
  destruct (result_of (forEach (installModLoader_directory profile _)
                               (getDirectories files) _)) as [e|] eqn:Edirs;
    [discriminate|].
  intros Hicon.
  destruct (forEach_success _ _ _ Efiles) as (ftrs & -> & Hf).
  destruct (forEach_success _ _ _ Edirs) as (dtrs & -> & Hd).
  rewrite (loader_icon_success _ _ _ Hicon).
  f_equal; [|f_equal].
  - apply concat_singletons. eapply Forall2_impl; [|exact Hf].
    intros file tr (d' & Hres & ->). now apply loader_file_success.
  - apply concat_singletons. eapply Forall2_impl; [|exact Hd].
    intros dir tr (d' & Hres & ->). now apply loader_directory_success.
Qed.

(** X6.  [installMod] as a whole.  It scans the mod's cache folder
  [<MOD_ROOT>/cache/<name>/<version>], or the [rootFolder] of the first
  loader variant below it when the mod's name matches one, letter case
  apart.  A scan error is returned as it is, with no provider call made;
  otherwise the run is fail-fast and the one error returned carries the
  message of the call that threw. *)
Theorem installMod_scans_then_fails_fast mod_ profile (d : Disk) :
  let cached :=
    path_join [path_join [PathResolver_MOD_ROOT; "cache"]; getName mod_;
               getVersionNumber mod_] in
  let scanned :=
    match findVariant bepInExVariant mod_ with
    | Some variant => path_join [cached; rootFolder variant]
    | None => cached
    end in
  match fst (FileTree_buildFromLocation scanned d) with
  | inl e =>
      result_of (installMod rule bepInExVariant mod_ profile d) = Some e /\
      trace_of (installMod rule bepInExVariant mod_ profile d) = []
  | inr _ =>
      fail_fast (result_of (installMod rule bepInExVariant mod_ profile d))
                (trace_of (installMod rule bepInExVariant mod_ profile d))
  end.
Proof.
  intros cached scanned. subst scanned. unfold installMod.
  change (cachedLocationOfMod mod_) with cached.
  destruct (findVariant bepInExVariant mod_) as [variant|].
  - pose proof (installModLoader_after_scan cached variant profile d) as H.
    destruct (fst (FileTree_buildFromLocation _ d)); [exact H|].
    apply fail_fast_with_message.
    eapply fail_fast_with_weaken; [|exact H].
    apply loader_error_origin_message.
  - unfold installForManifestV2. rewrite after_scan.
    destruct (fst (FileTree_buildFromLocation cached d)) as [e|files]; [now split|].
    rewrite bind_result, bind_trace.
    pose proof (FailFast_resolveBepInExTree rule profile mod_ files cached
                  (path_basename cached)
                  (snd (FileTree_buildFromLocation cached d))) as H.
    destruct (result_of (resolveBepInExTree _ _ _ _ _ _ _)) as [e|];
      cbn [ret trace_of result_of fst snd]; rewrite app_nil_r; exact H.
Qed.

End LoaderFacts.

(** ** More on the mode toggle *)

Section StringMore.
Local Open Scope string_scope.

Lemma length_toLowerCase (s : string) :
  String.length (toLowerCase s) = String.length s.
Proof. induction s as [|c s IH]; simpl; [reflexivity | now rewrite IH]. Qed.

Lemma toLowerCase_substring (n m : nat) (s : string) :
  toLowerCase (substring n m s) = substring n m (toLowerCase s).
Proof.
  revert n m; induction s as [|c s IH]; intros n m; simpl.
  - destruct n, m; reflexivity.
  - destruct n as [|n]; [destruct m as [|m]|]; simpl; [reflexivity | | apply IH].
    now rewrite IH.
Qed.

Lemma disabled_name_length (file p ext : string) :
  toLowerCase file = p ++ ext ++ ".old" ->
  String.length file = String.length (p ++ ext) + 4.
Proof.
  intros Hp. rewrite <- (length_toLowerCase file), Hp, <- append_assoc, length_append.
  reflexivity.
Qed.

(** Stripping the last four characters of a name that ends with an
  extension followed by [.old] leaves a name that ends with the
  extension. *)
Lemma enabled_of_disabled (file : string) :
  hasDisabledExtension file ->
  hasModModeExtension (substring0 (String.length file - String.length ".old") file).
Proof.
  intros (ext & Hin & Hends). exists ext. split; [exact Hin|].
  unfold substring0. rewrite toLowerCase_substring.
  apply endsWith_iff in Hends. destruct Hends as [p Hp].
  rewrite (disabled_name_length _ _ _ Hp), Hp, <- append_assoc.
  replace (String.length (p ++ ext) + 4 - String.length ".old")
    with (String.length (p ++ ext)) by (simpl; lia).
  rewrite substring0_append. apply endsWith_append.
Qed.

(** What is stripped is [.old] in some letter case. *)
Lemma disabled_name_split (file : string) :
  hasDisabledExtension file ->
  exists suffix,
    file = substring0 (String.length file - String.length ".old") file ++ suffix /\
    toLowerCase suffix = ".old".
Proof.
  intros (ext & Hin & Hends).
  apply endsWith_iff in Hends. destruct Hends as [p Hp].
  pose proof (disabled_name_length _ _ _ Hp) as Hlen.
  exists (substring (String.length file - 4) (String.length file - (String.length file - 4))
                    file).
  split.
  - unfold substring0. apply substring_split. simpl. lia.
  - rewrite toLowerCase_substring, Hp, Hlen, <- append_assoc.
    replace (String.length (p ++ ext) + 4 - 4) with (String.length (p ++ ext)) by lia.
    replace (String.length (p ++ ext) + 4 - String.length (p ++ ext)) with 4 by lia.
    rewrite substring_skip. reflexivity.
Qed.

End StringMore.

Section ToggleMore.
Context {Disk : Type} {provider : FsProvider Disk} {externals : Externals}
        {environment : InstallEnvironment Disk}.

Lemma applyModMode_file_trace mode file (d : Disk) :
  exists r,
    trace_of (applyModMode_file mode file d) =
    map (fun st => Ev_rename (fst st) (snd st) r) (renamePlan mode file).
Proof.
  destruct mode.
  - rewrite applyModMode_file_disable. unfold renamePlan.
    destruct (existsb _ modModeExtensions).
    + unfold rename. rewrite call_trace. eexists. reflexivity.
    + exists (Ok tt). reflexivity.
  - rewrite applyModMode_file_enable. unfold renamePlan.
    destruct (existsb _ modModeExtensions).
    + unfold rename. rewrite call_trace. eexists. reflexivity.
    + exists (Ok tt). reflexivity.
Qed.

(** X7.  The states of a file under the mode toggle.  Every rename the toggle
  makes for a file moves it from one state to the other: disabling takes
  a name that ends with a plugin extension to that name with [.old]
  appended; enabling takes a name that ends with a plugin extension
  followed by [.old] to the name without its last four characters, which
  are [.old] in some letter case, and that name ends with the plugin
  extension.  No name is in both states. *)
Theorem toggle_moves_between_states mode file (d : Disk) src dest r :
  In (Ev_rename src dest r) (trace_of (applyModMode_file mode file d)) ->
  src = file /\
  match mode with
  | DISABLED =>
      hasModModeExtension src /\ dest = (src ++ ".old")%string /\
      hasDisabledExtension dest /\ ~ hasModModeExtension dest
  | ENABLED =>
      hasDisabledExtension src /\
      (exists suffix, src = (dest ++ suffix)%string /\ toLowerCase suffix = ".old") /\
      hasModModeExtension dest /\ ~ hasDisabledExtension dest
  end.
Proof.
  destruct (applyModMode_file_trace mode file d) as [r' ->].
  destruct mode; unfold renamePlan;
    destruct (existsb _ modModeExtensions) eqn:E; simpl; try tauto;
    intros [Hev|[]]; inversion Hev; subst; clear Hev; (split; [reflexivity|]).
  - apply hasModModeExtension_existsb in E.
    pose proof (disabled_of_enabled _ E) as Hdis.
    repeat split; auto. now apply disabled_has_no_extension.
  - apply hasDisabledExtension_existsb in E.
    pose proof (enabled_of_disabled _ E) as Hen.
    split; [exact E|]. split; [now apply disabled_name_split|].
    split; [exact Hen|].
    intros Hdis. now apply (disabled_has_no_extension _ Hdis).
Qed.

(** *** The renames of [applyModMode] follow a plan *)

Lemma rename_calls_app a b : rename_calls (a ++ b) = rename_calls a ++ rename_calls b.
Proof. unfold rename_calls. apply flat_map_app. Qed.

Lemma follows_plan_nil : follows_plan [] None [].
Proof. split; [intros ev []|]. exists []. now split. Qed.

(** Two steps one after the other, the second only when the first returned
  no error. *)
Lemma FollowsPlan_bind p1 p2 (m k : Fs Disk (option R2Error)) :
  FollowsPlan p1 m -> FollowsPlan p2 k ->
  FollowsPlan (p1 ++ p2)
    (bind m (fun e => match e with Some err => ret (Some err) | None => k end)).
Proof.
  intros Hm Hk d. rewrite bind_result, bind_trace.
  destruct (Hm d) as (Hev1 & rest1 & Hp1 & Hdone1).
  destruct (result_of (m d)) as [e|]; simpl.
  - rewrite app_nil_r. split; [exact Hev1|].
    exists (rest1 ++ p2). split; [now rewrite Hp1, app_assoc | discriminate].
  - destruct (Hk (disk_of (m d))) as (Hev2 & rest2 & Hp2 & Hdone2).
    split.
    + intros ev Hin. apply in_app_or in Hin. destruct Hin; auto.
    + exists rest2. rewrite rename_calls_app, Hp1, Hp2, (Hdone1 eq_refl), app_nil_r.
      split; [now rewrite app_assoc | exact Hdone2].
Qed.

Lemma FollowsPlan_forEach {A} (plan : A -> list (string * string))
      (f : A -> Fs Disk (option R2Error)) (xs : list A) :
  (forall x, In x xs -> FollowsPlan (plan x) (f x)) ->
  FollowsPlan (flat_map plan xs) (forEach f xs).
Proof.
  induction xs as [|x xs IH]; intros Hf; simpl.
  - intro d. apply follows_plan_nil.
  - apply FollowsPlan_bind; [apply Hf; now left|].
    apply IH. intros y Hy. apply Hf. now right.
Qed.

Lemma applyModMode_files_follows_plan mode files :
  FollowsPlan (flat_map (renamePlan mode) files) (applyModMode_files mode files).
Proof.
  unfold applyModMode_files. apply FollowsPlan_forEach. intros file _ d.
  rewrite bind_result, bind_trace.
  destruct (applyModMode_file_trace mode file d) as [r Htr].
  assert (Hrc : rename_calls (trace_of (applyModMode_file mode file d))
                = renamePlan mode file).
  { rewrite Htr. clear. induction (renamePlan mode file) as [|[s t] l IH];
      [reflexivity|]. unfold rename_calls in *. simpl. now rewrite IH. }
  split.
  - intros ev Hin. apply in_app_or in Hin. destruct Hin as [Hin|Hin].
    + rewrite Htr in Hin. apply in_map_iff in Hin. destruct Hin as ([s t] & <- & _).
      eauto.
    + destruct (result_of (applyModMode_file mode file d)); destruct Hin.
  - exists []. rewrite app_nil_r, rename_calls_app, Hrc.
    destruct (result_of (applyModMode_file mode file d)); simpl;
      rewrite app_nil_r; now split.
Qed.

Lemma toggleOrder_unfold mod_ n fs ds :
  toggleOrder mod_ (mkFileTree n fs ds) =
  flat_map (fun directory =>
              if negb (String.eqb (getDirectoryName directory) (getName mod_))
              then toggleOrder mod_ directory
              else []) ds
  ++ flat_map (fun directory =>
                 if negb (String.eqb (getDirectoryName directory) (getName mod_))
                 then []
                 else getRecursiveFiles directory) ds.
Proof. reflexivity. Qed.

Lemma applyModMode_follows_plan mod_ profile mode tree :
  forall location,
    FollowsPlan (flat_map (renamePlan mode) (toggleOrder mod_ tree))
                (applyModMode mod_ tree profile location mode).
Proof.
  induction tree as [n fs ds IH] using FileTree_rect_nested.
  intros location d. rewrite applyModMode_eq, toggleOrder_unfold.
  cbn [getDirectories].
  set (others := fun directory : FileTree =>
                   if negb (String.eqb (getDirectoryName directory) (getName mod_))
                   then toggleOrder mod_ directory else []).
  set (own := fun directory : FileTree =>
                if negb (String.eqb (getDirectoryName directory) (getName mod_))
                then [] else getRecursiveFiles directory).
  assert (Hdirs : forall acc d',
             (forall ev,
                 In ev (trace_of (applyModMode_directories mod_ profile location mode
                                    ds acc d')) ->
                 exists s t r, ev = Ev_rename s t r) /\
             exists rest,
               flat_map (renamePlan mode) (flat_map others ds) =
               rename_calls (trace_of (applyModMode_directories mod_ profile location
                                         mode ds acc d')) ++ rest /\
               match result_of (applyModMode_directories mod_ profile location mode
                                  ds acc d') with
               | inl _ => True
               | inr files => rest = [] /\ files = acc ++ flat_map own ds
               end).
  { clear d. induction IH as [|directory ds' Hdir _ IHds]; intros acc d.
    - split; [intros ev []|]. exists []. simpl. rewrite app_nil_r. auto.
    - cbn [applyModMode_directories flat_map].
      destruct (negb (String.eqb (getDirectoryName directory) (getName mod_))) eqn:Eneg.
      + assert (Ho : others directory = toggleOrder mod_ directory)
          by (unfold others; now rewrite Eneg).
        assert (Hw : own directory = []) by (unfold own; now rewrite Eneg).
        rewrite Ho, Hw. cbn [app].
        rewrite bind_result, bind_trace, flat_map_app.
        destruct (Hdir (path_join [location; getDirectoryName directory]) d)
          as (Hev1 & rest1 & Hp1 & Hdone1).
        destruct (result_of (applyModMode mod_ directory profile _ mode d)) as [e|];
          simpl.
        * rewrite app_nil_r. split; [exact Hev1|].
          eexists. split; [rewrite Hp1, <- app_assoc; reflexivity | exact I].
        * fold (applyModMode_directories mod_ profile location mode).
          destruct (IHds acc (disk_of (applyModMode mod_ directory profile
                                         (path_join [location; getDirectoryName directory])
                                         mode d)))
            as (Hev2 & rest2 & Hp2 & Hdone2).
          split.
          -- intros ev Hin. apply in_app_or in Hin. destruct Hin; auto.
          -- exists rest2. rewrite rename_calls_app, Hp1, Hp2, (Hdone1 eq_refl), app_nil_r.
             split; [now rewrite app_assoc | exact Hdone2].
      + assert (Ho : others directory = []) by (unfold others; now rewrite Eneg).
        assert (Hw : own directory = getRecursiveFiles directory)
          by (unfold own; now rewrite Eneg).
        rewrite Ho, Hw. cbn [app].
        fold (applyModMode_directories mod_ profile location mode).
        destruct (IHds (acc ++ getRecursiveFiles directory) d)
          as (Hev2 & rest2 & Hp2 & Hdone2).
        split; [exact Hev2|]. exists rest2. split; [exact Hp2|].
        destruct (result_of (applyModMode_directories _ _ _ _ ds' _ d)); [exact I|].
        destruct Hdone2 as [-> ->]. split; [reflexivity | now rewrite app_assoc]. }
  rewrite bind_result, bind_trace, flat_map_app.
  destruct (Hdirs [] d) as (Hev1 & rest1 & Hp1 & Hdone1).
  destruct (result_of (applyModMode_directories mod_ profile location mode ds [] d))
    as [e|files]; simpl.
  - rewrite app_nil_r. split; [exact Hev1|].
    eexists. split; [rewrite Hp1, <- app_assoc; reflexivity | discriminate].
  - destruct Hdone1 as [-> ->]. simpl.
    destruct (applyModMode_files_follows_plan mode (flat_map own ds)
                (disk_of (applyModMode_directories mod_ profile location mode ds [] d)))
      as (Hev2 & rest2 & Hp2 & Hdone2).
    split.
    + intros ev Hin. apply in_app_or in Hin. destruct Hin; auto.
    + exists rest2. rewrite rename_calls_app, Hp1, Hp2, app_nil_r.
      split; [now rewrite app_assoc | exact Hdone2].
Qed.

(** X8.  [applyModMode] makes no other provider call than renames.  The renames
  are those of the plugin files at or below the directories that carry
  exactly the mod's name and lie below no other such directory, in the
  order the walk reaches them, up to the first rename that throws; a run
  that returns no error has made all of them.  Files directly in the tree
  given and files below directories of another name only are never
  renamed. *)
Theorem applyModMode_renames_by_plan mod_ tree profile location mode (d : Disk) :
  (forall ev,
      In ev (trace_of (applyModMode mod_ tree profile location mode d)) ->
      exists src dest r, ev = Ev_rename src dest r) /\
  exists rest,
    flat_map (renamePlan mode) (toggleOrder mod_ tree) =
    rename_calls (trace_of (applyModMode mod_ tree profile location mode d)) ++ rest /\
    (result_of (applyModMode mod_ tree profile location mode d) = None -> rest = []).
Proof. apply applyModMode_follows_plan. Qed.

(** X9.  [disableMod] and [enableMod] scan [<profile>/BepInEx].  A scan error is
  returned as it is, with no provider call made; otherwise each makes the
  renames of [applyModMode] on the tree scanned, in its mode, and no
  other call. *)
Theorem toggle_entry_points_scan_then_rename mod_ profile (d : Disk) :
  let bepInExLocation := path_join [getPathOfProfile profile; "BepInEx"] in
  match fst (FileTree_buildFromLocation bepInExLocation d) with
  | inl e =>
      result_of (disableMod mod_ profile d) = Some e /\
      trace_of (disableMod mod_ profile d) = [] /\
      result_of (enableMod mod_ profile d) = Some e /\
      trace_of (enableMod mod_ profile d) = []
  | inr tree =>
      follows_plan (flat_map (renamePlan DISABLED) (toggleOrder mod_ tree))
                   (result_of (disableMod mod_ profile d))
                   (trace_of (disableMod mod_ profile d)) /\
      follows_plan (flat_map (renamePlan ENABLED) (toggleOrder mod_ tree))
                   (result_of (enableMod mod_ profile d))
                   (trace_of (enableMod mod_ profile d))
  end.
Proof.
  intros bep. unfold disableMod, enableMod. fold bep. rewrite !after_scan.
  destruct (fst (FileTree_buildFromLocation bep d)) as [e|tree].
  - repeat split.
  - split; apply applyModMode_follows_plan.
Qed.

End ToggleMore.

(** ** More on [uninstallMod] *)

Section UninstallMore.
Context {Disk : Type} {provider : FsProvider Disk} {externals : Externals}.
Variable bepInExVariant : list ModLoaderPackageMapping.

(** The trace of [uninstallMod]: that of the first pass, when the mod is a
  loader variant, followed by that of what comes after it, when the first
  pass returned no error. *)
Lemma uninstallMod_trace mod_ profile (d : Disk) :
  exists first second,
    trace_of (uninstallMod bepInExVariant mod_ profile d) = first ++ second /\
    (first = [] \/ exists d', first = trace_of (uninstallMod_profileRoot profile d')) /\
    (second = [] \/
     exists d',
       second =
       trace_of
         ((present <- exists_ (path_join [getPathOfProfile profile; "BepInEx"]) ;;
           if (present : bool) then
             r <- uninstallMod_bepInEx mod_
                    (path_join [getPathOfProfile profile; "BepInEx"]) ;;
             match r with
             | Ok _ => ret None
             | Throw err =>
                 ret (Some (newR2Error
                              "Failed to remove files"
                              (thrown_message err)
                              "Is the game still running? If so, close it and try again."))
             end
           else ret None) d')).
Proof.
  unfold uninstallMod. rewrite bind_trace.
  eexists. eexists. split; [reflexivity|]. split.
  - destruct (findVariant bepInExVariant mod_); [right|now left].
    rewrite bind_trace. exists d.
    destruct (result_of (uninstallMod_profileRoot profile d));
      cbn [ret trace_of snd]; now rewrite app_nil_r.
  - destruct (result_of _) as [e|]; [now left|]. right. eexists. reflexivity.
Qed.

(** *** The reserved file is never unlinked *)

(** X10.  In every run of [uninstallMod], for every mod, whether the run
  fails or not: whatever is unlinked is an entry of the listing that
  [readdir] gave for the profile root at the start of the run, joined to
  the profile root; the name of that entry is not [mods.yml] letter case
  apart; and the unlink directly follows the [lstat] of the same path
  that answered "regular file".  When joining the profile root with the
  entries of the listing gives a different path for each entry, the path
  of an entry named [mods.yml] in some letter case is never unlinked. *)
Theorem uninstall_never_unlinks_reserved mod_ profile (d : Disk) p r :
  In (Ev_unlink p r) (trace_of (uninstallMod bepInExVariant mod_ profile d)) ->
  exists files file pre post,
    trace_of (uninstallMod bepInExVariant mod_ profile d) =
    Ev_readdir (getPathOfProfile profile) (Ok files)
      :: pre ++ Ev_lstat p (Ok StatFile) :: Ev_unlink p r :: post /\
    In file files /\
    p = path_join [getPathOfProfile profile; file] /\
    equalIgnoringCase file "mods.yml" = false /\
    ((forall f g, In f files -> In g files ->
                  path_join [getPathOfProfile profile; f]
                  = path_join [getPathOfProfile profile; g] -> f = g) ->
     forall reserved,
       In reserved files -> equalIgnoringCase reserved "mods.yml" = true ->
       p <> path_join [getPathOfProfile profile; reserved]).
Proof.
  destruct (uninstallMod_trace mod_ profile d) as (first & second & -> & Hf & Hs).
  intros Hin. apply in_app_or in Hin. destruct Hin as [Hin|Hin].
  - destruct Hf as [->|[d' ->]]; [destruct Hin|].
    destruct (profileRoot_unlink_listed profile d' p r Hin)
      as (files & file & pre & post & -> & Hfile & Hp & Hname).
    exists files, file, pre, (post ++ second).
    split; [cbn [app]; rewrite <- app_assoc; reflexivity|].
    split; [exact Hfile|]. split; [exact Hp|]. split; [exact Hname|].
    intros Hinj reserved Hreserved Hres Heq. rewrite Hp in Heq.
    apply Hinj in Heq; [|exact Hfile | exact Hreserved].
    subst reserved. congruence.
  - exfalso. destruct Hs as [->|[d' ->]]; [destruct Hin|].
    pose proof (after_profileRoot_quiet profile mod_ d') as Hq.
    unfold quiet_or_mod_folder in Hq. rewrite Forall_forall in Hq.
    destruct (Hq _ Hin) as [Hq'|(file & [[r' Hq']|[r' Hq']])]; discriminate.
Qed.

(** *** Folders are emptied, then removed *)

Lemma deletions_in_order_app a b :
  deletions_in_order a -> deletions_in_order b -> deletions_in_order (a ++ b).
Proof.
  induction 1; intros Hb; simpl; [exact Hb | | |].
  - apply dio_other; auto.
  - apply dio_empty_failed; auto.
  - apply dio_removed; auto.
Qed.

Ltac other_event := apply dio_other; [intros ? ?; discriminate | intros ? ?; discriminate |].

Lemma profileRoot_deletions_in_order profile (d : Disk) :
  deletions_in_order (trace_of (uninstallMod_profileRoot profile d)).
Proof.
  unfold uninstallMod_profileRoot, bindT. rewrite bind_trace.
  apply deletions_in_order_app.
  - unfold readdir. rewrite call_trace. other_event. constructor.
  - destruct (result_of (readdir (getPathOfProfile profile) d)) as [files|t];
      [|constructor].
    apply forEachT_trace_closed.
    + constructor.
    + apply deletions_in_order_app.
    + intros file d'. unfold uninstallMod_profileRoot_entry.
      unfold bindT, bind, lstat, unlink, call, ret, trace_of, result_of.
      destruct (fs_lstat (path_join [getPathOfProfile profile; file]) d')
        as [[[]|t] d1]; simpl; try (other_event; constructor).
      destruct (negb _); simpl; [|other_event; constructor].
      destruct (fs_unlink _ d1) as [r' d2]; simpl.
      other_event. other_event. constructor.
Qed.

Lemma bepInEx_folder_deletions_in_order mod_ bep file folder (d : Disk) :
  deletions_in_order (trace_of (uninstallMod_bepInEx_folder mod_ bep file folder d)).
Proof.
  unfold uninstallMod_bepInEx_folder.
  destruct (String.eqb folder (getName mod_)); [|constructor].
  unfold bindT, bind, lstat, emptyDirectory, rmdir, call, ret, trace_of, result_of.
  destruct (fs_lstat (path_join [bep; file; folder]) d) as [[[]|t] d3]; simpl;
    try (other_event; constructor).
  destruct (FileUtils_emptyDirectory (path_join [bep; file; folder]) d3)
    as [[[]|t] d4]; simpl.
  - destruct (fs_rmdir (path_join [bep; file; folder]) d4) as [r d5]; simpl.
    apply dio_removed. constructor.
  - apply dio_empty_failed. constructor.
Qed.

Lemma bepInEx_deletions_in_order mod_ bep (d : Disk) :
  deletions_in_order (trace_of (uninstallMod_bepInEx mod_ bep d)).
Proof.
  unfold uninstallMod_bepInEx, bindT. rewrite bind_trace.
  apply deletions_in_order_app.
  - unfold readdir. rewrite call_trace. other_event. constructor.
  - destruct (result_of (readdir bep d)) as [files|t]; [|constructor].
    apply forEachT_trace_closed.
    + constructor.
    + apply deletions_in_order_app.
    + intros file d1. unfold uninstallMod_bepInEx_entry, bindT. rewrite bind_trace.
      apply deletions_in_order_app.
      * unfold lstat. rewrite call_trace. other_event. constructor.
      * destruct (result_of (lstat (path_join [bep; file]) d1)) as [st|t];
          [|constructor].
        destruct (isDirectory st); [|constructor].
        rewrite bind_trace. apply deletions_in_order_app.
        -- unfold readdir. rewrite call_trace. other_event. constructor.
        -- destruct (result_of (readdir (path_join [bep; file]) _)) as [folders|t];
             [|constructor].
           apply forEachT_trace_closed.
           ++ constructor.
           ++ apply deletions_in_order_app.
           ++ apply bepInEx_folder_deletions_in_order.
Qed.

Lemma uninstallMod_deletions_in_order mod_ profile (d : Disk) :
  deletions_in_order (trace_of (uninstallMod bepInExVariant mod_ profile d)).
Proof.
  destruct (uninstallMod_trace mod_ profile d) as (first & second & -> & Hf & Hs).
  apply deletions_in_order_app.
  - destruct Hf as [->|[d' ->]]; [constructor | apply profileRoot_deletions_in_order].
  - destruct Hs as [->|[d' ->]]; [constructor|].
    rewrite bind_trace. apply deletions_in_order_app.
    + unfold exists_. rewrite call_trace. other_event. constructor.
    + destruct (result_of (exists_ _ d')); [|constructor].
      rewrite bind_trace. apply deletions_in_order_app.
      * apply bepInEx_deletions_in_order.
      * destruct (result_of (uninstallMod_bepInEx _ _ _)); constructor.
Qed.

Lemma deletions_in_order_spec tr :
  deletions_in_order tr ->
  (forall pre p r post,
      tr = pre ++ Ev_emptyDirectory p r :: post ->
      exists pre', pre = pre' ++ [Ev_lstat p (Ok StatDirectory)]) /\
  (forall pre p r post,
      tr = pre ++ Ev_rmdir p r :: post ->
      exists pre', pre = pre' ++ [Ev_emptyDirectory p (Ok tt)]) /\
  (forall pre p post,
      tr = pre ++ Ev_emptyDirectory p (Ok tt) :: post ->
      exists r post', post = Ev_rmdir p r :: post').
Proof.
  induction 1 as [|ev tr Hne Hnr _ (IH1 & IH2 & IH3)|p t tr _ (IH1 & IH2 & IH3)
                  |p r tr _ (IH1 & IH2 & IH3)].
  - split; [|split].
    + intros [|? ?] ? ? ? H; discriminate.
    + intros [|? ?] ? ? ? H; discriminate.
    + intros [|? ?] ? ? H; discriminate.
  - split; [|split].
    + intros [|e pre] q r post Heq; simpl in Heq.
      * inversion Heq; subst. now destruct (Hne q r).
      * inversion Heq as [[He Htr]]. destruct (IH1 _ _ _ _ Htr) as [pre' ->].
        now eexists (_ :: pre').
    + intros [|e pre] q r post Heq; simpl in Heq.
      * inversion Heq; subst. now destruct (Hnr q r).
      * inversion Heq as [[He Htr]]. destruct (IH2 _ _ _ _ Htr) as [pre' ->].
        now eexists (_ :: pre').
    + intros [|e pre] q post Heq; simpl in Heq.
      * inversion Heq; subst. now destruct (Hne q (Ok tt)).
      * inversion Heq as [[He Htr]]. exact (IH3 _ _ _ Htr).
  - split; [|split].
    + intros [|e1 [|e2 pre]] q r post Heq; simpl in Heq.
      * discriminate.
      * inversion Heq; subst. now exists [].
      * inversion Heq as [[He1 He2 Htr]]. destruct (IH1 _ _ _ _ Htr) as [pre' ->].
        now eexists (_ :: _ :: pre').
    + intros [|e1 [|e2 pre]] q r post Heq; simpl in Heq.
      * discriminate.
      * discriminate.
      * inversion Heq as [[He1 He2 Htr]]. destruct (IH2 _ _ _ _ Htr) as [pre' ->].
        now eexists (_ :: _ :: pre').
    + intros [|e1 [|e2 pre]] q post Heq; simpl in Heq.
      * discriminate.
      * discriminate.
      * inversion Heq as [[He1 He2 Htr]]. exact (IH3 _ _ _ Htr).
  - split; [|split].
    + intros [|e1 [|e2 [|e3 pre]]] q r' post Heq; simpl in Heq.
      * discriminate.
      * inversion Heq; subst. now exists [].
      * discriminate.
      * inversion Heq as [[He1 He2 He3 Htr]]. destruct (IH1 _ _ _ _ Htr) as [pre' ->].
        now eexists (_ :: _ :: _ :: pre').
    + intros [|e1 [|e2 [|e3 pre]]] q r' post Heq; simpl in Heq.
      * discriminate.
      * discriminate.
      * inversion Heq; subst. now exists [Ev_lstat q (Ok StatDirectory)].
      * inversion Heq as [[He1 He2 He3 Htr]]. destruct (IH2 _ _ _ _ Htr) as [pre' ->].
        now eexists (_ :: _ :: _ :: pre').
    + intros [|e1 [|e2 [|e3 pre]]] q post Heq; simpl in Heq.
      * discriminate.
      * inversion Heq; subst. eauto.
      * discriminate.
      * inversion Heq as [[He1 He2 He3 Htr]]. exact (IH3 _ _ _ Htr).
Qed.

(** X11.  In every run of [uninstallMod], failing or not: a folder is emptied
  only directly after [lstat] answered "directory" for it, it is removed
  only directly after it was emptied with success, and a folder emptied
  with success is removed by the very next call. *)
Theorem uninstall_empties_then_removes mod_ profile (d : Disk) :
  (forall pre p r post,
      trace_of (uninstallMod bepInExVariant mod_ profile d)
      = pre ++ Ev_emptyDirectory p r :: post ->
      exists pre', pre = pre' ++ [Ev_lstat p (Ok StatDirectory)]) /\
  (forall pre p r post,
      trace_of (uninstallMod bepInExVariant mod_ profile d)
      = pre ++ Ev_rmdir p r :: post ->
      exists pre', pre = pre' ++ [Ev_emptyDirectory p (Ok tt)]) /\
  (forall pre p post,
      trace_of (uninstallMod bepInExVariant mod_ profile d)
      = pre ++ Ev_emptyDirectory p (Ok tt) :: post ->
      exists r post', post = Ev_rmdir p r :: post').
Proof. apply deletions_in_order_spec, uninstallMod_deletions_in_order. Qed.

(** *** Which pass failed *)

Lemma uninstallMod_eq mod_ profile :
  uninstallMod bepInExVariant mod_ profile =
  (rootError <-
     match findVariant bepInExVariant mod_ with
     | Some _ => uninstallMod_profileRoot_caught profile
     | None => ret None
     end ;;
   match rootError with
   | Some e => ret (Some e)
   | None => uninstallMod_afterRoot mod_ profile
   end).
Proof. reflexivity. Qed.

Lemma FailFastT_profileRoot profile :
  FailFastT (uninstallMod_profileRoot profile).
Proof.
  unfold uninstallMod_profileRoot. apply FailFastT_bindT.
  - apply FailFastT_call. reflexivity.
  - intros files. apply FailFastT_forEachT. intros file.
    unfold uninstallMod_profileRoot_entry. apply FailFastT_bindT.
    + apply FailFastT_call. reflexivity.
    + intros st. destruct (isFile st); [|apply FailFastT_ret].
      destruct (negb _); [|apply FailFastT_ret].
      apply FailFastT_call. reflexivity.
Qed.

Lemma FailFastT_bepInEx mod_ bep :
  FailFastT (uninstallMod_bepInEx mod_ bep).
Proof.
  unfold uninstallMod_bepInEx. apply FailFastT_bindT.
  - apply FailFastT_call. reflexivity.
  - intros files. apply FailFastT_forEachT. intros file.
    unfold uninstallMod_bepInEx_entry. apply FailFastT_bindT.
    + apply FailFastT_call. reflexivity.
    + intros st. destruct (isDirectory st); [|apply FailFastT_ret].
      apply FailFastT_bindT; [apply FailFastT_call; reflexivity|].
      intros folders. apply FailFastT_forEachT. intros folder.
      unfold uninstallMod_bepInEx_folder.
      destruct (String.eqb folder (getName mod_)); [|apply FailFastT_ret].
      apply FailFastT_bindT; [apply FailFastT_call; reflexivity|].
      intros st'. destruct (isDirectory st'); [|apply FailFastT_ret].
      apply FailFastT_bindT; [apply FailFastT_call; reflexivity|].
      intros _. apply FailFastT_call. reflexivity.
Qed.

(** Leaving a [try] block, with what the [catch] clause makes of the value
  thrown. *)
Lemma FailFastWith_catch {A} (justifies : R2Error -> Event -> Prop)
      (m : Fs Disk (Result A)) (handler : Thrown -> R2Error) :
  FailFastT m ->
  (forall t ev, ev_thrown ev = Some t -> justifies (handler t) ev) ->
  FailFastWith justifies
    (bind m (fun r => match r with
                      | Ok _ => ret None
                      | Throw t => ret (Some (handler t))
                      end)).
Proof.
  intros Hm Hh d. rewrite bind_result, bind_trace.
  specialize (Hm d). destruct (result_of (m d)) as [a|t]; simpl in *; rewrite app_nil_r.
  - exact Hm.
  - destruct Hm as (pre & ev & -> & Hpre & Hev).
    exists pre, ev. repeat split; auto.
Qed.

Lemma profileRoot_caught_fails_fast profile :
  FailFastWith
    (uninstall_error FileWriteErrorClass
                     "Failed to delete BepInEx file from profile root")
    (uninstallMod_profileRoot_caught profile).
Proof.
  unfold uninstallMod_profileRoot_caught.
  apply (FailFastWith_catch _ (uninstallMod_profileRoot profile)
           (fun err => newFileWriteError _ (thrown_message err) _)).
  - apply FailFastT_profileRoot.
  - intros t ev Hev. exists t. repeat split. exact Hev.
Qed.

Lemma afterRoot_fails_fast mod_ profile :
  FailFastWith (uninstall_error R2ErrorClass "Failed to remove files")
               (uninstallMod_afterRoot mod_ profile).
Proof.
  intro d. unfold uninstallMod_afterRoot.
  set (bep := path_join [getPathOfProfile profile; "BepInEx"]).
  rewrite bind_result, bind_trace.
  assert (Hex : trace_of (exists_ bep d) = [Ev_exists bep (result_of (exists_ bep d))])
    by (unfold exists_; apply call_trace).
  rewrite Hex. destruct (result_of (exists_ bep d)).
  - pose proof (FailFastWith_catch
                  (uninstall_error R2ErrorClass "Failed to remove files")
                  (uninstallMod_bepInEx mod_ bep)
                  (fun err => newR2Error "Failed to remove files" (thrown_message err)
                     "Is the game still running? If so, close it and try again.")
                  (FailFastT_bepInEx mod_ bep)) as H.
    specialize (H (fun t ev Hev =>
                     ex_intro _ t (conj Hev (conj eq_refl (conj eq_refl eq_refl))))
                  (disk_of (exists_ bep d))).
    unfold fail_fast_with in *.
    destruct (result_of _) as [e|].
    + destruct H as (pre & ev & -> & Hpre & Hev).
      exists (Ev_exists bep true :: pre), ev.
      repeat split; auto. constructor; [reflexivity | exact Hpre].
    + constructor; [reflexivity | exact H].
  - repeat constructor.
Qed.

(** A run of what follows the first pass that ends with an error found
  [BepInEx] to exist. *)
Lemma afterRoot_error_found_BepInEx mod_ profile (d : Disk) e :
  result_of (uninstallMod_afterRoot mod_ profile d) = Some e ->
  In (Ev_exists (path_join [getPathOfProfile profile; "BepInEx"]) true)
     (trace_of (uninstallMod_afterRoot mod_ profile d)).
Proof.
  unfold uninstallMod_afterRoot.
  set (bep := path_join [getPathOfProfile profile; "BepInEx"]).
  rewrite bind_result, bind_trace.
  assert (Hex : trace_of (exists_ bep d) = [Ev_exists bep (result_of (exists_ bep d))])
    by (unfold exists_; apply call_trace).
  rewrite Hex. destruct (result_of (exists_ bep d)).
  - intros _. now left.
  - discriminate.
Qed.

Lemma profileRoot_never_asks_exists profile (d : Disk) p b :
  ~ In (Ev_exists p b) (trace_of (uninstallMod_profileRoot profile d)).
Proof.
  unfold uninstallMod_profileRoot, bindT. rewrite bind_trace.
  intros Hin. apply in_app_or in Hin. destruct Hin as [Hin|Hin].
  - unfold readdir in Hin. rewrite call_trace in Hin. destruct Hin as [Hin|[]].
    discriminate.
  - destruct (result_of (readdir (getPathOfProfile profile) d)) as [files|t];
      [|destruct Hin].
    revert Hin.
    apply (forEachT_trace_closed (fun tr => ~ In (Ev_exists p b) tr)).
    + intros [].
    + intros a c Ha Hc Hin. apply in_app_or in Hin. tauto.
    + intros file d'. unfold uninstallMod_profileRoot_entry.
      unfold bindT, bind, lstat, unlink, call, ret, trace_of, result_of.
      destruct (fs_lstat _ d') as [[[]|t] d1]; simpl;
        try (intros [Hin|[]]; discriminate).
      destruct (negb _); simpl; [|intros [Hin|[]]; discriminate].
      destruct (fs_unlink _ d1) as [r' d2]; simpl.
      intros [Hin|[Hin|[]]]; discriminate.
Qed.

Lemma uninstall_error_message class name e ev :
  uninstall_error class name e ev ->
  exists t, ev_thrown ev = Some t /\ errMessage e = thrown_message t.
Proof. intros (t & Hev & Hmsg & _). eauto. Qed.

(** X12.  [uninstallMod] is fail-fast as a whole, and the kind of the error
  tells the pass.  In every run: the call that throws, if any, is the
  last call, all calls before it succeeded, and one error with its
  message is returned.  A [FileWriteError] means the sweep of the profile
  root failed, and then [BepInEx] was not so much as looked for; a plain
  [R2Error] means the removal below [BepInEx] failed, after [BepInEx] was
  found to exist. *)
Theorem uninstall_fails_fast_by_pass mod_ profile (d : Disk) :
  fail_fast (result_of (uninstallMod bepInExVariant mod_ profile d))
            (trace_of (uninstallMod bepInExVariant mod_ profile d)) /\
  (forall e,
      result_of (uninstallMod bepInExVariant mod_ profile d) = Some e ->
      (errClass e = FileWriteErrorClass /\
       errName e = "Failed to delete BepInEx file from profile root" /\
       forall p b,
         ~ In (Ev_exists p b) (trace_of (uninstallMod bepInExVariant mod_ profile d)))
      \/
      (errClass e = R2ErrorClass /\
       errName e = "Failed to remove files" /\
       In (Ev_exists (path_join [getPathOfProfile profile; "BepInEx"]) true)
          (trace_of (uninstallMod bepInExVariant mod_ profile d)))).
Proof.
  rewrite uninstallMod_eq. split.
  - apply fail_fast_with_message.
    apply (FailFastWith_bind
             (fun e ev => exists t, ev_thrown ev = Some t /\
                                    errMessage e = thrown_message t)).
    + destruct (findVariant bepInExVariant mod_).
      * intro d'. eapply fail_fast_with_weaken;
          [|apply profileRoot_caught_fails_fast]. apply uninstall_error_message.
      * apply FailFastWith_ret_None.
    + intro d'. eapply fail_fast_with_weaken; [|apply afterRoot_fails_fast].
      apply uninstall_error_message.
  - rewrite bind_result, bind_trace.
    pose proof (afterRoot_fails_fast mod_ profile) as Hafter.
    pose proof (afterRoot_error_found_BepInEx mod_ profile) as Hfound.
    destruct (findVariant bepInExVariant mod_) as [v|].
    + pose proof (profileRoot_caught_fails_fast profile d) as Hroot.
      assert (Hnever : forall p b,
                 ~ In (Ev_exists p b) (trace_of (uninstallMod_profileRoot_caught profile d))).
      { intros p b. unfold uninstallMod_profileRoot_caught. rewrite bind_trace.
        intros Hin. apply in_app_or in Hin. destruct Hin as [Hin|Hin].
        - now apply profileRoot_never_asks_exists in Hin.
        - destruct (result_of (uninstallMod_profileRoot profile d)); destruct Hin. }
      destruct (result_of (uninstallMod_profileRoot_caught profile d)) as [e0|];
        cbn [ret trace_of result_of disk_of fst snd].
      * intros e He. inversion He; subst. left.
        destruct Hroot as (pre & ev & _ & _ & t & _ & _ & Hclass & Hname).
        rewrite app_nil_r. repeat split; auto.
      * intros e He. right. specialize (Hafter (disk_of (uninstallMod_profileRoot_caught
                                                           profile d))).
        rewrite He in Hafter.
        destruct Hafter as (pre & ev & _ & _ & t & _ & _ & Hclass & Hname).
        repeat split; auto. apply in_or_app. right. now apply (Hfound _ e).
    + cbn [ret trace_of result_of disk_of fst snd app].
      intros e He. right. specialize (Hafter d). rewrite He in Hafter.
      destruct Hafter as (pre & ev & _ & _ & t & _ & _ & Hclass & Hname).
      repeat split; auto. now apply (Hfound _ e).
Qed.

End UninstallMore.

(** *** A successful second pass removes the mod's folder wherever it is *)

Section SecondPassSuccess.
Context {Disk : Type} {provider : FsProvider Disk} {externals : Externals}.

Lemma bepInEx_folders_swept mod_ bep file folders :
  forall (d : Disk),
    result_of (forEachT (uninstallMod_bepInEx_folder mod_ bep file) folders d) = Ok tt ->
    modFolder_swept mod_ bep file folders
      (trace_of (forEachT (uninstallMod_bepInEx_folder mod_ bep file) folders d)).
Proof.
  induction folders as [|folder folders IH]; intros d Hres.
  - constructor.
  - revert Hres. rewrite forEachT_cons.
    destruct (result_of (uninstallMod_bepInEx_folder mod_ bep file folder d))
      as [[]|t] eqn:Efolder.
    2:{ rewrite (bindT_Throw _ _ _ _ Efolder). discriminate. }
    rewrite (bindT_Ok _ _ _ _ Efolder). cbn [result_of trace_of fst snd].
    intros Hres. specialize (IH _ Hres). revert Efolder IH.
    generalize (trace_of (forEachT (uninstallMod_bepInEx_folder mod_ bep file) folders
                            (disk_of (uninstallMod_bepInEx_folder mod_ bep file folder d)))).
    unfold uninstallMod_bepInEx_folder.
    destruct (String.eqb_spec folder (getName mod_)) as [->|Hne].
    + unfold bindT, bind, lstat, emptyDirectory, rmdir, call, ret, trace_of, result_of.
      destruct (fs_lstat (path_join [bep; file; getName mod_]) d)
        as [[st|t] d1]; simpl; [|discriminate].
      destruct st; simpl; try (intros; now apply mfs_not_a_directory).
      destruct (FileUtils_emptyDirectory _ d1) as [[[]|t] d2]; simpl; [|discriminate].
      destruct (fs_rmdir _ d2) as [[[]|t] d3]; simpl; [|discriminate].
      intros; now apply mfs_removed.
    + intros tr _ Htr. now apply mfs_other_name.
Qed.

Lemma bepInEx_entries_swept mod_ bep files :
  forall (d : Disk),
    result_of (forEachT (uninstallMod_bepInEx_entry mod_ bep) files d) = Ok tt ->
    bepInEx_swept mod_ bep files
      (trace_of (forEachT (uninstallMod_bepInEx_entry mod_ bep) files d)).
Proof.
  induction files as [|file files IH]; intros d Hres.
  - constructor.
  - revert Hres. rewrite forEachT_cons.
    destruct (result_of (uninstallMod_bepInEx_entry mod_ bep file d))
      as [[]|t] eqn:Eentry.
    2:{ rewrite (bindT_Throw _ _ _ _ Eentry). discriminate. }
    rewrite (bindT_Ok _ _ _ _ Eentry). cbn [result_of trace_of fst snd].
    intros Hres. specialize (IH _ Hres). revert Eentry IH.
    generalize (trace_of (forEachT (uninstallMod_bepInEx_entry mod_ bep) files
                            (disk_of (uninstallMod_bepInEx_entry mod_ bep file d)))).
    unfold uninstallMod_bepInEx_entry.
    destruct (result_of (lstat (path_join [bep; file]) d)) as [st|t] eqn:Est.
    2:{ rewrite (bindT_Throw _ _ _ _ Est). discriminate. }
    rewrite (bindT_Ok _ _ _ _ Est). cbn [result_of trace_of fst snd].
    assert (Hls : trace_of (lstat (path_join [bep; file]) d)
                  = [Ev_lstat (path_join [bep; file]) (Ok st)]).
    { unfold lstat in *. now rewrite call_trace, Est. }
    rewrite Hls. clear Hls.
    destruct st; cbn [isDirectory];
      try (intros tr _ Htr; cbn [ret trace_of snd app];
           now apply bs_not_a_directory).
    set (d1 := disk_of (lstat (path_join [bep; file]) d)).
    destruct (result_of (readdir (path_join [bep; file]) d1)) as [folders|t] eqn:Els.
    2:{ rewrite (bindT_Throw _ _ _ _ Els). discriminate. }
    rewrite (bindT_Ok _ _ _ _ Els). cbn [result_of trace_of fst snd].
    assert (Hrd : trace_of (readdir (path_join [bep; file]) d1)
                  = [Ev_readdir (path_join [bep; file]) (Ok folders)]).
    { unfold readdir in *. now rewrite call_trace, Els. }
    rewrite Hrd. intros tr Hinner Htr. cbn [app].
    apply bs_directory; [|exact Htr]. now apply bepInEx_folders_swept.
Qed.

(** X13.  A second pass of [uninstallMod] that succeeds has listed [BepInEx],
  examined every entry of the listing, listed every entry that is a
  directory, and in each of these emptied and then removed the entry that
  carries exactly the mod's name, if it is a directory: the mod's folder
  is removed wherever it sits one level below [BepInEx]. *)
Theorem uninstall_second_pass_sweeps mod_ bepInExLocation (d : Disk) :
  result_of (uninstallMod_bepInEx mod_ bepInExLocation d) = Ok tt ->
  exists files tr,
    trace_of (uninstallMod_bepInEx mod_ bepInExLocation d) =
      Ev_readdir bepInExLocation (Ok files) :: tr /\
    bepInEx_swept mod_ bepInExLocation files tr.
Proof.
  unfold uninstallMod_bepInEx.
  destruct (result_of (readdir bepInExLocation d)) as [files|t] eqn:Els.
  2:{ rewrite (bindT_Throw _ _ _ _ Els). discriminate. }
  rewrite (bindT_Ok _ _ _ _ Els). cbn [result_of trace_of fst snd].
  intros Hres. exists files. eexists. split.
  - unfold readdir in *. rewrite call_trace, Els. reflexivity.
  - now apply bepInEx_entries_swept.
Qed.

End SecondPassSuccess.

(** ** What install deploys under the mod's name is what uninstall removes *)

Section Agreement.
Context {Disk : Type} {provider : FsProvider Disk} {externals : Externals}.
Variable rule : RuleType.


End Agreement.

(** ** Errors of the mode toggle, and where it renames *)

Section ToggleErrors.
Context {Disk : Type} {provider : FsProvider Disk} {externals : Externals}.

Lemma applyModMode_file_outcome mode file (d : Disk) :
  match result_of (applyModMode_file mode file d) with
  | Ok _ => Forall ev_ok (trace_of (applyModMode_file mode file d))
  | Throw t =>
      exists dest,
        trace_of (applyModMode_file mode file d) = [Ev_rename file dest (Throw t)]
  end.
Proof.
  destruct mode.
  - rewrite applyModMode_file_disable.
    destruct (existsb _ modModeExtensions); [|constructor].
    unfold rename, call, result_of, trace_of.
    destruct (fs_rename _ _ d) as [[[]|t] d']; simpl.
    + repeat constructor.
    + eexists. reflexivity.
  - rewrite applyModMode_file_enable.
    destruct (existsb _ modModeExtensions); [|constructor].
    unfold rename, call, result_of, trace_of.
    destruct (fs_rename _ _ d) as [[[]|t] d']; simpl.
    + repeat constructor.
    + eexists. reflexivity.
Qed.

Lemma applyModMode_files_error_origin mode files :
  FailFastWith (toggle_error_origin mode) (applyModMode_files mode files).
Proof.
  unfold applyModMode_files. apply FailFastWith_forEach. intros file _ d.
  rewrite bind_result, bind_trace.
  pose proof (applyModMode_file_outcome mode file d) as H.
  destruct (result_of (applyModMode_file mode file d)) as [[]|t]; simpl;
    rewrite app_nil_r.
  - exact H.
  - destruct H as [dest ->]. exists [], (Ev_rename file dest (Throw t)).
    repeat split. constructor.
Qed.

Lemma applyModMode_error_origin mod_ profile mode tree :
  forall location,
    FailFastWith (toggle_error_origin mode)
                 (applyModMode mod_ tree profile location mode).
Proof.
  induction tree as [n fs ds IH] using FileTree_rect_nested.
  intros location. rewrite applyModMode_eq. simpl getDirectories.
  assert (Hdirs : forall files d,
             match result_of (applyModMode_directories mod_ profile location mode
                                ds files d) with
             | inl e =>
                 fail_fast_with (toggle_error_origin mode) (Some e)
                   (trace_of (applyModMode_directories mod_ profile location mode
                                ds files d))
             | inr _ =>
                 Forall ev_ok
                   (trace_of (applyModMode_directories mod_ profile location mode
                                ds files d))
             end).
  { induction IH as [|directory ds' Hdir _ IHds]; intros files d; simpl.
    - constructor.
    - destruct (negb _).
      + rewrite bind_result, bind_trace.
        specialize (Hdir (path_join [location; getDirectoryName directory]) d).
        destruct (result_of (applyModMode mod_ directory profile _ mode d)) as [e|];
          simpl in *.
        * now rewrite app_nil_r.
        * specialize (IHds files
            (disk_of (applyModMode mod_ directory profile
                        (path_join [location; getDirectoryName directory]) mode d))).
          destruct (result_of (applyModMode_directories _ _ _ _ ds' files _)) as [e|fs'].
          -- destruct IHds as (pre & ev & -> & Hpre & Hev).
             eexists (_ ++ pre), ev. rewrite app_assoc.
             repeat split; [now apply Forall_ok_app | exact Hev].
          -- now apply Forall_ok_app.
      + apply IHds. }
  intro d. rewrite bind_result, bind_trace. specialize (Hdirs [] d).
  destruct (result_of (applyModMode_directories mod_ profile location mode ds [] d))
    as [e|files]; simpl.
  - now rewrite app_nil_r.
  - pose proof (applyModMode_files_error_origin mode files
                  (disk_of (applyModMode_directories mod_ profile location mode ds [] d)))
      as Hfiles.
    destruct (result_of (applyModMode_files mode files _)) as [e|]; simpl in *.
    + destruct Hfiles as (pre & ev & -> & Hpre & Hev).
      eexists (_ ++ pre), ev. rewrite app_assoc.
      repeat split; [now apply Forall_ok_app | exact Hev].
    + now apply Forall_ok_app.
Qed.

(** X15.  When [applyModMode] returns an error, the call that threw is the last
  call made, every call before it succeeded, and that call is the rename
  of the file the error names: the error is a plain [R2Error] named
  [Failed to rename file <file> with ModMode of <mode>] that carries the
  message thrown.  When it returns no error, no call threw. *)
Theorem applyModMode_error_names_the_file mod_ tree profile location mode (d : Disk) :
  fail_fast_with (toggle_error_origin mode)
    (result_of (applyModMode mod_ tree profile location mode d))
    (trace_of (applyModMode mod_ tree profile location mode d)).
Proof. apply applyModMode_error_origin. Qed.

Lemma toggleOrder_inside mod_ tree file :
  In file (toggleOrder mod_ tree) ->
  exists directory,
    In directory (flat_map subtrees (getDirectories tree)) /\
    getDirectoryName directory = getName mod_ /\
    In file (getRecursiveFiles directory).
Proof.
  induction tree as [n fs ds IH] using FileTree_rect_nested.
  rewrite toggleOrder_unfold. cbn [getDirectories].
  intros Hin. apply in_app_or in Hin. destruct Hin as [Hin|Hin];
    apply in_flat_map in Hin; destruct Hin as (directory & Hd & Hin).
  - destruct (negb _); [|destruct Hin].
    rewrite Forall_forall in IH.
    destruct (IH directory Hd Hin) as (sub & Hsub & Hname & Hfile).
    exists sub. split; [|now split].
    apply in_flat_map. exists directory. split; [exact Hd|].
    destruct directory as [n' fs' ds']. right. exact Hsub.
  - destruct (negb _) eqn:Eneg; [destruct Hin|].
    apply negb_false_iff, String.eqb_eq in Eneg.
    exists directory. split; [|now split].
    apply in_flat_map. exists directory. split; [exact Hd|].
    destruct directory as [n' fs' ds']. now left.
Qed.

Lemma renamePlan_source mode file src dest :
  In (src, dest) (renamePlan mode file) -> src = file.
Proof.
  unfold renamePlan. destruct mode; destruct (existsb _ modModeExtensions);
    simpl; intros H; try tauto; destruct H as [H|[]]; now inversion H.
Qed.

Lemma rename_calls_In src dest r tr :
  In (Ev_rename src dest r) tr -> In (src, dest) (rename_calls tr).
Proof.
  intros Hin. unfold rename_calls. apply in_flat_map.
  exists (Ev_rename src dest r). split; [exact Hin | now left].
Qed.

(** X16.  Whatever [applyModMode] renames lies at or below a directory of the
  tree whose name is exactly the mod's name: the walk never renames a file
  that is in no such directory. *)
Theorem toggle_renames_only_inside_mod_folders mod_ tree profile location mode
        (d : Disk) src dest r :
  In (Ev_rename src dest r)
     (trace_of (applyModMode mod_ tree profile location mode d)) ->
  exists directory,
    In directory (flat_map subtrees (getDirectories tree)) /\
    getDirectoryName directory = getName mod_ /\
    In src (getRecursiveFiles directory).
Proof.
  intros Hin. apply rename_calls_In in Hin.
  destruct (applyModMode_follows_plan mod_ profile mode tree location d)
    as (_ & rest & Hplan & _).
  assert (Hp : In (src, dest) (flat_map (renamePlan mode) (toggleOrder mod_ tree))).
  { rewrite Hplan. apply in_or_app. now left. }
  apply in_flat_map in Hp. destruct Hp as (file & Hfile & Hp).
  apply renamePlan_source in Hp. subst file.
  now apply toggleOrder_inside.
Qed.

End ToggleErrors.

(** ** A missing [BepInEx] folder, and where the loader lands *)

Section MoreEdges.
Context {Disk : Type} {provider : FsProvider Disk} {externals : Externals}
        {environment : InstallEnvironment Disk}.
Variable bepInExVariant : list ModLoaderPackageMapping.

Lemma bepInEx_never_asks_exists mod_ bep (d : Disk) p b :
  ~ In (Ev_exists p b) (trace_of (uninstallMod_bepInEx mod_ bep d)).
Proof.
  unfold uninstallMod_bepInEx, bindT. rewrite bind_trace.
  intros Hin. apply in_app_or in Hin. destruct Hin as [Hin|Hin].
  - unfold readdir in Hin. rewrite call_trace in Hin. destruct Hin as [Hin|[]].
    discriminate.
  - destruct (result_of (readdir bep d)) as [files|t]; [|destruct Hin].
    revert Hin.
    apply (forEachT_trace_closed (fun tr => ~ In (Ev_exists p b) tr)).
    + intros [].
    + intros a c Ha Hc Hin. apply in_app_or in Hin. tauto.
    + intros file d'. unfold uninstallMod_bepInEx_entry, bindT.
      rewrite bind_trace. intros Hin. apply in_app_or in Hin.
      destruct Hin as [Hin|Hin].
      * unfold lstat in Hin. rewrite call_trace in Hin. destruct Hin as [Hin|[]].
        discriminate.
      * destruct (result_of (lstat (path_join [bep; file]) d')) as [st|t];
          [|destruct Hin].
        destruct (isDirectory st); [|destruct Hin].
        rewrite bind_trace in Hin. apply in_app_or in Hin.
        destruct Hin as [Hin|Hin].
        -- unfold readdir in Hin. rewrite call_trace in Hin.
           destruct Hin as [Hin|[]]. discriminate.
        -- destruct (result_of (readdir (path_join [bep; file]) _)) as [folders|t];
             [|destruct Hin].
           revert Hin.
           apply (forEachT_trace_closed (fun tr => ~ In (Ev_exists p b) tr)).
           ++ intros [].
           ++ intros a c Ha Hc Hin. apply in_app_or in Hin. tauto.
           ++ intros folder d2. unfold uninstallMod_bepInEx_folder.
              destruct (String.eqb folder (getName mod_)); [|intros []].
              unfold bindT, bind, lstat, emptyDirectory, rmdir, call, ret,
                trace_of, result_of.
              destruct (fs_lstat _ d2) as [[st'|t] d3]; simpl;
                try (intros [Hin|[]]; discriminate).
              destruct (isDirectory st'); simpl;
                [|intros [Hin|[]]; discriminate].
              destruct (FileUtils_emptyDirectory _ d3) as [[[]|t] d4]; simpl;
                try (intros [Hin|[Hin|[]]]; discriminate).
              destruct (fs_rmdir _ d4) as [r' d5]; simpl.
              intros [Hin|[Hin|[Hin|[]]]]; discriminate.
Qed.

(** X17.  A missing [BepInEx] folder is no error: when [fs.exists] answers "no"
  during [uninstallMod], that was the last call made and the function
  returns [null]. *)
Theorem uninstall_without_BepInEx_is_no_error mod_ profile (d : Disk) p :
  In (Ev_exists p false) (trace_of (uninstallMod bepInExVariant mod_ profile d)) ->
  result_of (uninstallMod bepInExVariant mod_ profile d) = None /\
  exists pre,
    trace_of (uninstallMod bepInExVariant mod_ profile d) = pre ++ [Ev_exists p false] /\
    forall q b, ~ In (Ev_exists q b) pre.
Proof.
  rewrite uninstallMod_eq. rewrite bind_result, bind_trace.
  set (first := match findVariant bepInExVariant mod_ with
                | Some _ => uninstallMod_profileRoot_caught profile
                | None => ret None
                end).
  assert (Hfirst : forall q b, ~ In (Ev_exists q b) (trace_of (first d))).
  { intros q b. unfold first. destruct (findVariant bepInExVariant mod_); [|intros []].
    unfold uninstallMod_profileRoot_caught. rewrite bind_trace.
    intros Hin. apply in_app_or in Hin. destruct Hin as [Hin|Hin].
    - now apply profileRoot_never_asks_exists in Hin.
    - destruct (result_of (uninstallMod_profileRoot profile d)); destruct Hin. }
  intros Hin. apply in_app_or in Hin. destruct Hin as [Hin|Hin];
    [now apply Hfirst in Hin|].
  destruct (result_of (first d)) as [e|]; [destruct Hin|].
  revert Hin. unfold uninstallMod_afterRoot.
  rewrite bind_result, bind_trace. unfold exists_ at 1 3 5. rewrite call_trace.
  unfold exists_, call, result_of at 2 4.
  destruct (fs_exists (path_join [getPathOfProfile profile; "BepInEx"]) (disk_of (first d)))
    as [[] d1] eqn:Eex; cbn [fst snd disk_of].
  - intros Hin. exfalso. apply in_app_or in Hin.
    destruct Hin as [[Hin|[]]|Hin]; [discriminate|].
    rewrite bind_trace in Hin. apply in_app_or in Hin. destruct Hin as [Hin|Hin].
    + now apply bepInEx_never_asks_exists in Hin.
    + destruct (result_of (uninstallMod_bepInEx _ _ _)); destruct Hin.
  - intros [Hin|[]]. inversion Hin; subst p. split; [reflexivity|].
    exists (trace_of (first d)). split; [reflexivity | exact Hfirst].
Qed.

Lemma loader_copy_closed bieLocation location profile
      (f : Fs Disk (option R2Error)) (g : Fs Disk (option R2Error)) (d : Disk) :
  (forall d', Forall (loader_copy bieLocation location profile) (trace_of (f d'))) ->
  (forall d', Forall (loader_copy bieLocation location profile) (trace_of (g d'))) ->
  Forall (loader_copy bieLocation location profile)
    (trace_of (bind f (fun e => match e with
                                | Some err => ret (Some err)
                                | None => g
                                end) d)).
Proof.
  intros Hf Hg. rewrite bind_trace. apply Forall_app. split; [apply Hf|].
  destruct (result_of (f d)); [constructor | apply Hg].
Qed.

Lemma loader_payload_copies bieLocation location profile files (d : Disk) :
  Forall (loader_copy bieLocation location profile)
    (trace_of (installModLoader_payload bieLocation location profile files d)).
Proof.
  unfold installModLoader_payload.
  apply loader_copy_closed.
  - apply (forEach_trace_closed (Forall (loader_copy bieLocation location profile))).
    + constructor.
    + intros a b Ha Hb. apply Forall_app. now split.
    + intros file d' _. unfold installModLoader_file.
      rewrite bind_trace. unfold copyFile at 1. rewrite call_trace.
      apply Forall_app. split.
      * constructor; [|constructor]. left. eauto.
      * destruct (result_of _) as [[]|[m|e]]; constructor.
  - intros d'. apply loader_copy_closed.
    + apply (forEach_trace_closed (Forall (loader_copy bieLocation location profile))).
      * constructor.
      * intros a b Ha Hb. apply Forall_app. now split.
      * intros directory d2 _. unfold installModLoader_directory.
        rewrite bind_trace. unfold copyFolder at 1. rewrite call_trace.
        apply Forall_app. split.
        -- constructor; [|constructor]. right. left. eauto.
        -- destruct (result_of _) as [[]|t]; constructor.
    + intros d2. unfold installModLoader_icon.
      rewrite bind_trace. unfold copyFile at 1. rewrite call_trace.
      apply Forall_app. split.
      * constructor; [|constructor]. right. right. eauto.
      * destruct (result_of _) as [[]|t]; constructor.
Qed.

(** X18.  The loader's package is not routed through the rules: whatever
  [installMod] calls for a mod that is a loader variant is a copy, with no
  directory created first; a file of the payload root goes to its base
  name directly under the profile root, a folder of the payload root to
  its base name directly under the profile root, and the icon to
  [BepInEx/core/icon.png]. *)
Theorem loader_lands_in_profile_root rule mod_ variant profile (d : Disk) ev :
  findVariant bepInExVariant mod_ = Some variant ->
  In ev (trace_of (installMod rule bepInExVariant mod_ profile d)) ->
  loader_copy (cachedLocationOfMod mod_)
              (path_join [cachedLocationOfMod mod_; rootFolder variant]) profile ev.
Proof.
  intros Hvariant. unfold installMod. rewrite Hvariant. unfold installModLoader.
  rewrite after_scan.
  destruct (fst (FileTree_buildFromLocation _ d)) as [e|files]; [intros []|].
  revert ev. apply Forall_forall. apply loader_payload_copies.
Qed.

Lemma installForManifestV2_after_scan rule mod_ profile location files (d : Disk) :
  fst (FileTree_buildFromLocation location d) = inr files ->
  result_of (installForManifestV2 rule mod_ profile location d) =
  result_of (resolveBepInExTree rule profile location (path_basename location) mod_
               files (snd (FileTree_buildFromLocation location d))) /\
  trace_of (installForManifestV2 rule mod_ profile location d) =
  trace_of (resolveBepInExTree rule profile location (path_basename location) mod_
              files (snd (FileTree_buildFromLocation location d))) /\
  disk_of (installForManifestV2 rule mod_ profile location d) =
  disk_of (resolveBepInExTree rule profile location (path_basename location) mod_
             files (snd (FileTree_buildFromLocation location d))).
Proof.
  intros Hscan. unfold installForManifestV2. rewrite after_scan, Hscan.
  rewrite bind_result, bind_trace, bind_disk.
  destruct (result_of (resolveBepInExTree _ _ _ _ _ _ _)) as [e|];
    cbn [ret trace_of result_of disk_of fst snd]; now rewrite app_nil_r.
Qed.

(** X19.  A mod that is no loader variant is installed from the scan of
  its cached package, starting with the name of the version folder as
  folder name.  For ASCII names, when the scan succeeds and [installMod]
  returns [null], the calls made are exactly those of the deployment plan
  of the scanned tree, in its order and each with success: every folder
  whose name equals a rule key letter case apart is copied as a whole
  from its own path below the cache location, every other folder is gone
  into at its own path and its files are placed one by one; the plan
  covers every file and every directory of the scanned tree exactly once,
  in scan order, and takes every directory below the root under its own
  name; the calls recorded were put to the provider, starting on the disk
  the scan left. *)
Theorem installMod_deploys_scanned_package rule mod_ profile files (d : Disk) :
  isAscii (getName mod_) = true ->
  forallb (fun v => isAscii (packageName v)) bepInExVariant = true ->
  isAscii (path_basename (cachedLocationOfMod mod_)) = true ->
  forallb isAscii (Object_keys (rules rule)) = true ->
  isAsciiTree files = true ->
  findVariant bepInExVariant mod_ = None ->
  fst (FileTree_buildFromLocation (cachedLocationOfMod mod_) d) = inr files ->
  result_of (installMod rule bepInExVariant mod_ profile d) = None ->
  trace_of (installMod rule bepInExVariant mod_ profile d) =
    flat_map events_of_step
      (plan rule profile mod_ (cachedLocationOfMod mod_)
         (path_basename (cachedLocationOfMod mod_)) files) /\
  flat_map files_of_step
    (plan rule profile mod_ (cachedLocationOfMod mod_)
       (path_basename (cachedLocationOfMod mod_)) files)
    = getRecursiveFiles files /\
  flat_map directories_of_step
    (plan rule profile mod_ (cachedLocationOfMod mod_)
       (path_basename (cachedLocationOfMod mod_)) files)
    = subtrees files /\
  Forall under_own_name
    (tl (plan rule profile mod_ (cachedLocationOfMod mod_)
           (path_basename (cachedLocationOfMod mod_)) files)) /\
  runs_from (snd (FileTree_buildFromLocation (cachedLocationOfMod mod_) d))
    (trace_of (installMod rule bepInExVariant mod_ profile d))
    (disk_of (installMod rule bepInExVariant mod_ profile d)).
Proof.
  intros _ _ _ _ _ Hnone Hscan. unfold installMod. rewrite Hnone.
  destruct (installForManifestV2_after_scan rule mod_ profile _ files d Hscan)
    as (-> & -> & ->).
  intros Hres.
  split; [now apply resolve_follows_plan|].
  split; [apply plan_files|].
  split; [apply plan_directories|].
  split; [apply plan_own_names|].
  apply Genuine_resolveBepInExTree.
Qed.

Lemma forallb_app_true {A} (f : A -> bool) (a b : list A) :
  forallb f a = true -> forallb f b = true -> forallb f (a ++ b) = true.
Proof. intros Ha Hb. rewrite forallb_app, Ha, Hb. reflexivity. Qed.

Lemma profileRoot_reads_or_deletes profile (d : Disk) :
  forallb reads_or_deletes (trace_of (uninstallMod_profileRoot profile d)) = true.
Proof.
  unfold uninstallMod_profileRoot, bindT. rewrite bind_trace.
  apply forallb_app_true.
  - unfold readdir. now rewrite call_trace.
  - destruct (result_of (readdir (getPathOfProfile profile) d)) as [files|t];
      [|reflexivity].
    apply (forEachT_trace_closed (fun tr => forallb reads_or_deletes tr = true));
      [reflexivity | apply forallb_app_true |].
    intros file d'. unfold uninstallMod_profileRoot_entry.
    unfold bindT, bind, lstat, unlink, call, ret, trace_of, result_of.
    destruct (fs_lstat _ d') as [[[]|t] d1]; simpl; try reflexivity.
    destruct (negb _); simpl; [|reflexivity].
    destruct (fs_unlink _ d1) as [r' d2]; reflexivity.
Qed.

Lemma bepInEx_reads_or_deletes mod_ bep (d : Disk) :
  forallb reads_or_deletes (trace_of (uninstallMod_bepInEx mod_ bep d)) = true.
Proof.
  unfold uninstallMod_bepInEx, bindT. rewrite bind_trace.
  apply forallb_app_true.
  - unfold readdir. now rewrite call_trace.
  - destruct (result_of (readdir bep d)) as [files|t]; [|reflexivity].
    apply (forEachT_trace_closed (fun tr => forallb reads_or_deletes tr = true));
      [reflexivity | apply forallb_app_true |].
    intros file d'. unfold uninstallMod_bepInEx_entry, bindT.
    rewrite bind_trace. apply forallb_app_true.
    + unfold lstat. now rewrite call_trace.
    + destruct (result_of (lstat (path_join [bep; file]) d')) as [st|t];
        [|reflexivity].
      destruct (isDirectory st); [|reflexivity].
      rewrite bind_trace. apply forallb_app_true.
      * unfold readdir. now rewrite call_trace.
      * destruct (result_of (readdir (path_join [bep; file]) _)) as [folders|t];
          [|reflexivity].
        apply (forEachT_trace_closed (fun tr => forallb reads_or_deletes tr = true));
          [reflexivity | apply forallb_app_true |].
        intros folder d2. unfold uninstallMod_bepInEx_folder.
        destruct (String.eqb folder (getName mod_)); [|reflexivity].
        unfold bindT, bind, lstat, emptyDirectory, rmdir, call, ret,
          trace_of, result_of.
        destruct (fs_lstat _ d2) as [[st'|t] d3]; simpl; try reflexivity.
        destruct (isDirectory st'); simpl; [|reflexivity].
        destruct (FileUtils_emptyDirectory _ d3) as [[[]|t] d4]; simpl;
          try reflexivity.
        destruct (fs_rmdir _ d4) as [r' d5]; reflexivity.
Qed.

(** X20.  [uninstallMod] only looks and removes: each of its calls is a
  [readdir], [lstat], [exists], [unlink], [emptyDirectory] or [rmdir]; it
  never creates a directory, copies or renames. *)
Theorem uninstall_only_reads_and_deletes mod_ profile (d : Disk) :
  forallb reads_or_deletes (trace_of (uninstallMod bepInExVariant mod_ profile d))
  = true.
Proof.
  destruct (uninstallMod_trace bepInExVariant mod_ profile d)
    as (first & second & -> & Hfirst & Hsecond).
  apply forallb_app_true.
  - destruct Hfirst as [->|[d' ->]]; [reflexivity|].
    apply profileRoot_reads_or_deletes.
  - destruct Hsecond as [->|[d' ->]]; [reflexivity|].
    rewrite bind_trace. apply forallb_app_true.
    + unfold exists_. now rewrite call_trace.
    + destruct (result_of (exists_ _ d')); [|reflexivity].
      rewrite bind_trace. apply forallb_app_true.
      * apply bepInEx_reads_or_deletes.
      * destruct (result_of (uninstallMod_bepInEx _ _ _)); reflexivity.
Qed.

Lemma loader_copy_creates_or_copies bieLocation location profile ev :
  loader_copy bieLocation location profile ev -> creates_or_copies ev = true.
Proof. intros [(f & r & ->)|[(n & r & ->)|(r & ->)]]; reflexivity. Qed.

(** X21.  [installMod] only adds: each of its calls creates a directory or
  copies a file or a folder, whether the mod is a loader variant or not;
  it never removes or renames anything. *)
Theorem install_only_creates_and_copies rule mod_ profile (d : Disk) :
  forallb creates_or_copies
    (trace_of (installMod rule bepInExVariant mod_ profile d)) = true.
Proof.
  apply forallb_forall. intros ev. unfold installMod.
  destruct (findVariant bepInExVariant mod_) as [variant|].
  - unfold installModLoader. rewrite after_scan.
    destruct (fst (FileTree_buildFromLocation _ d)) as [e|files]; [intros []|].
    intros Hin.
    eapply loader_copy_creates_or_copies.
    eapply Forall_forall; [apply loader_payload_copies | exact Hin].
  - unfold installForManifestV2. rewrite after_scan.
    destruct (fst (FileTree_buildFromLocation _ d)) as [e|files]; [intros []|].
    rewrite bind_trace. intros Hin. apply in_app_or in Hin.
    destruct Hin as [Hin|Hin].
    + pose proof (resolve_ensured_copies rule profile mod_ files
                    (cachedLocationOfMod mod_)
                    (path_basename (cachedLocationOfMod mod_))
                    (snd (FileTree_buildFromLocation (cachedLocationOfMod mod_) d)))
        as Hcopies.
      apply ensured_copies_spec in Hcopies. destruct Hcopies as [Hkinds _].
      destruct (Hkinds ev Hin)
        as [(l & f & t & ->)|[(p & r & ->)|[(s & p & r & ->)|(s & p & r & ->)]]];
        reflexivity.
    + destruct (result_of _); destruct Hin.
Qed.

End MoreEdges.

(** * The claims on matching, deployment, the round trip and uninstall *)

Section ClaimsOnNames.
Context {Disk : Type} {provider : FsProvider Disk} {externals : Externals}.
Variable rule : RuleType.
Variable bepInExVariant : list ModLoaderPackageMapping.

(** C2.  For ASCII names: a run of [resolveBepInExTree] that returns no
  error makes exactly the calls of the deployment plan, in its order, each
  put to the provider with success.  The plan takes the folder the run
  starts from at the location given and every directory below it at its
  own path and under its own name; a folder whose name equals a rule key
  letter case apart is deployed by one whole-folder copy from its own
  location to its destination and nothing below it is visited; any other
  folder is gone into, its files placed one by one.  Every file and every
  directory of the tree is covered by exactly one step, in scan order. *)
Theorem resolve_handles_each_once profile location folderName mod_ tree (d : Disk) :
  isAscii folderName = true ->
  forallb isAscii (Object_keys (rules rule)) = true ->
  isAsciiTree tree = true ->
  result_of (resolveBepInExTree rule profile location folderName mod_ tree d) = None ->
  trace_of (resolveBepInExTree rule profile location folderName mod_ tree d) =
    flat_map events_of_step (plan rule profile mod_ location folderName tree) /\
  flat_map files_of_step (plan rule profile mod_ location folderName tree)
    = getRecursiveFiles tree /\
  flat_map directories_of_step (plan rule profile mod_ location folderName tree)
    = subtrees tree /\
  Forall under_own_name (tl (plan rule profile mod_ location folderName tree)) /\
  runs_from d
    (trace_of (resolveBepInExTree rule profile location folderName mod_ tree d))
    (disk_of (resolveBepInExTree rule profile location folderName mod_ tree d)).
Proof.
  intros _ _ _ Hres.
  split; [now apply resolve_follows_plan|].
  split; [apply plan_files|].
  split; [apply plan_directories|].
  split; [apply plan_own_names|].
  apply Genuine_resolveBepInExTree.
Qed.

(** C6, as amended.  For ASCII names, in a run of [resolveBepInExTree]
  that returns no error: every file that sits directly in a directory
  reached without a rule match (neither the name of the directory nor the
  name of any directory above it, up to the folder the run starts from,
  equals a rule key letter case apart) is copied, with success and
  directly after its destination directory was created, under its base
  name into [BepInEx/monomod/<mod name>] below the profile root when its
  name ends with [.mm.dll] letter case apart, and into
  [<defaultPath>/<mod name>] below the profile root otherwise.  No single
  file is copied anywhere else, and the calls recorded were put to the
  provider. *)
Theorem loose_file_destination profile location folderName mod_ tree (d : Disk) :
  isAscii folderName = true ->
  forallb isAscii (Object_keys (rules rule)) = true ->
  isAsciiTree tree = true ->
  result_of (resolveBepInExTree rule profile location folderName mod_ tree d) = None ->
  (forall directory file,
      reached_unmatched rule folderName tree directory ->
      In file (getFiles directory) ->
      exists pre post,
        trace_of (resolveBepInExTree rule profile location folderName mod_ tree d) =
        pre ++ Ev_ensureDirectory (loose_destination rule profile mod_ file) (Ok tt)
            :: Ev_copyFile file
                 (path_join [loose_destination rule profile mod_ file;
                             path_basename file]) (Ok tt)
            :: post) /\
  (forall src dest r,
      In (Ev_copyFile src dest r)
         (trace_of (resolveBepInExTree rule profile location folderName mod_ tree d)) ->
      dest = path_join [loose_destination rule profile mod_ src; path_basename src]) /\
  runs_from d
    (trace_of (resolveBepInExTree rule profile location folderName mod_ tree d))
    (disk_of (resolveBepInExTree rule profile location folderName mod_ tree d)).
Proof.
  intros _ _ _ Hres. split; [|split].
  - intros directory file Hreached Hfile.
    rewrite (resolve_follows_plan rule profile mod_ tree _ _ _ Hres).
    destruct (step_events_infix _ _
                (reached_file_planned rule profile mod_ location folderName tree
                   directory file Hreached Hfile)) as (pre & post & ->).
    exists pre, post. reflexivity.
  - intros src dest r Hin. rewrite <- file_destination_loose.
    exact (resolve_copies_by_name rule profile mod_ tree _ _ _ _ _ _ Hin).
  - apply Genuine_resolveBepInExTree.
Qed.


(** C8, as amended.  When the mod's name equals, letter case apart, the
  package name of a loader variant of the active game and [uninstallMod]
  returns no error, the run lists the profile root and examines every
  entry of the listing in turn: each entry that is a regular file is
  unlinked, with success, unless its name is [mods.yml] letter case
  apart, in which case it is only examined; entries that are no regular
  files are only examined; what follows the sweep changes nothing but the
  mod's folders below [BepInEx]; and the calls recorded are the calls put
  to the provider. *)
Theorem uninstall_variant_sweeps_profile_root mod_ profile (d : Disk) :
  (exists v, In v bepInExVariant /\
             equalIgnoringCase (packageName v) (getName mod_) = true) ->
  result_of (uninstallMod bepInExVariant mod_ profile d) = None ->
  (exists files swept rest,
      trace_of (uninstallMod bepInExVariant mod_ profile d) =
        Ev_readdir (getPathOfProfile profile) (Ok files) :: swept ++ rest /\
      root_swept profile files swept /\
      quiet_or_mod_folder profile mod_ rest) /\
  runs_from d (trace_of (uninstallMod bepInExVariant mod_ profile d))
              (disk_of (uninstallMod bepInExVariant mod_ profile d)).
Proof.
  intros (v0 & Hv0 & Heq) Hres. split; [|apply Genuine_uninstallMod].
  assert (Hvar : exists v, findVariant bepInExVariant mod_ = Some v).
  { apply findVariant_Some_iff. exists v0. split; [exact Hv0|].
    now apply equalIgnoringCase_iff. }
  destruct Hvar as [v Hv]. revert Hres.
  unfold uninstallMod. rewrite Hv, bind_result, bind_trace.
  rewrite (bind_result (uninstallMod_profileRoot profile)).
  rewrite (bind_trace (uninstallMod_profileRoot profile)).
  rewrite (bind_disk (uninstallMod_profileRoot profile)).
  destruct (result_of (uninstallMod_profileRoot profile d)) as [[]|t] eqn:Eroot;
    cbn [ret trace_of result_of disk_of fst snd]; [|discriminate].
  intros _. destruct (profileRoot_success _ _ Eroot) as (files & tr & Htr & Hswept).
  exists files, tr. eexists. rewrite Htr, app_nil_r. split; [reflexivity|].
  split; [now apply root_swept_of_profileRoot_swept|]. apply after_profileRoot_quiet.
Qed.

(** C3, as amended.  Round trip of the mode toggle on one file.  For a
  name that ends, in any letter case, with one of the plugin extensions,
  disabling renames it to the name with [.old] appended, and enabling
  right afterwards renames it back to the original name.  In the other
  direction, for a name that ends, in any letter case, with a plugin
  extension followed by [.old], enabling renames it to the name without
  its last four characters, which ends with the plugin extension, and
  disabling right afterwards renames that to the name with [.old]
  appended; this is the name started from exactly when its last four
  characters were [.old] in lower case. *)
Theorem toggle_round_trip file disabled (d : Disk) :
  hasModModeExtension file ->
  hasDisabledExtension disabled ->
  (result_of (applyModMode_file DISABLED file d) = Ok tt ->
   result_of (applyModMode_file ENABLED
                (name_after file (trace_of (applyModMode_file DISABLED file d)))
                (disk_of (applyModMode_file DISABLED file d))) = Ok tt ->
   name_after file (trace_of (applyModMode_file DISABLED file d))
   = (file ++ ".old")%string /\
   name_after (name_after file (trace_of (applyModMode_file DISABLED file d)))
     (trace_of (applyModMode_file ENABLED
                  (name_after file (trace_of (applyModMode_file DISABLED file d)))
                  (disk_of (applyModMode_file DISABLED file d))))
   = file)
  /\
  (result_of (applyModMode_file ENABLED disabled d) = Ok tt ->
   result_of (applyModMode_file DISABLED
                (name_after disabled (trace_of (applyModMode_file ENABLED disabled d)))
                (disk_of (applyModMode_file ENABLED disabled d))) = Ok tt ->
   name_after disabled (trace_of (applyModMode_file ENABLED disabled d))
   = substring0 (String.length disabled - 4) disabled /\
   hasModModeExtension (substring0 (String.length disabled - 4) disabled) /\
   name_after
     (name_after disabled (trace_of (applyModMode_file ENABLED disabled d)))
     (trace_of (applyModMode_file DISABLED
                  (name_after disabled (trace_of (applyModMode_file ENABLED disabled d)))
                  (disk_of (applyModMode_file ENABLED disabled d))))
   = (substring0 (String.length disabled - 4) disabled ++ ".old")%string /\
   ((substring0 (String.length disabled - 4) disabled ++ ".old")%string = disabled
    <-> last4 disabled = ".old"%string)).
Proof.
  intros Hext Hdis.
  pose proof (proj1 (hasModModeExtension_existsb file) Hext) as Eon.
  pose proof (proj1 (hasDisabledExtension_existsb _) (disabled_of_enabled file Hext))
    as Eoff.
  split.
  - rewrite applyModMode_file_disable, Eon. intros Hoff.
    rewrite (rename_success _ _ _ Hoff), name_after_rename.
    rewrite applyModMode_file_enable, Eoff, strip_old. intros Hon.
    rewrite (rename_success _ _ _ Hon), name_after_rename. now split.
  - pose proof (proj1 (hasDisabledExtension_existsb _) Hdis) as Edis.
    pose proof (enabled_of_disabled disabled Hdis) as Hstem.
    change (String.length ".old") with 4 in Hstem.
    pose proof (proj1 (hasModModeExtension_existsb _) Hstem) as Estem.
    rewrite applyModMode_file_enable, Edis.
    change (String.length ".old"%string) with 4. intros Hon.
    rewrite (rename_success _ _ _ Hon), name_after_rename.
    rewrite applyModMode_file_disable, Estem. intros Hoff.
    rewrite (rename_success _ _ _ Hoff), name_after_rename.
    split; [reflexivity|]. split; [exact Hstem|]. split; [reflexivity|].
    destruct (disabled_name_split disabled Hdis) as (suffix & Hsplit & Hsuffix).
    change (String.length ".old") with 4 in Hsplit.
    assert (Hlen : String.length suffix = 4).
    { rewrite <- (length_lower suffix), Hsuffix. reflexivity. }
    set (stem := substring0 (String.length disabled - 4) disabled) in *.
    assert (Hlast : last4 disabled = suffix).
    { unfold last4. rewrite Hsplit, length_append, Hlen.
      replace (String.length stem + 4 - 4) with (String.length stem) by lia.
      rewrite substring_skip, <- Hlen. apply substring_all. }
    rewrite Hlast. split.
    + intros Heq. rewrite Hsplit in Heq.
      destruct (append_same_length_inv _ _ _ _ Heq) as [_ H]; [now rewrite Hlen|].
      now symmetry.
    + intros Hs. rewrite Hsplit, Hs. reflexivity.
Qed.

(** C1, as amended.  For ASCII names, matching is case-insensitive in three
  places: the rule key found for a folder name is the first key that
  equals it letter case apart; the loader variant found for a mod is the
  first whose package name equals the mod's name letter case apart, and
  [uninstallMod] starts with the sweep of the profile root exactly for
  such a mod; and the mode toggle renames a file exactly when its name
  ends, letter case apart, with a plugin extension (followed by [.old]
  when enabling).  The mod's own directory is matched by exact equality of
  names: [applyModMode] makes no call on a tree in which no directory
  carries exactly the mod's name and takes the files of a directory that
  does, and the second pass of [uninstallMod] leaves alone every folder
  whose name is not exactly the mod's name and examines a folder whose
  name is. *)
Theorem name_matching_case_sensitivity profile location mod_ mode (d : Disk) :
  (forall folderName,
      isAscii folderName = true ->
      forallb isAscii (Object_keys (rules rule)) = true ->
      matchingEndFolderName rule folderName =
      find (fun key => equalIgnoringCase key folderName) (Object_keys (rules rule))) /\
  (isAscii (getName mod_) = true ->
   forallb (fun v => isAscii (packageName v)) bepInExVariant = true ->
   findVariant bepInExVariant mod_ =
   find (fun v => equalIgnoringCase (packageName v) (getName mod_)) bepInExVariant /\
   ((exists v, In v bepInExVariant /\
               equalIgnoringCase (packageName v) (getName mod_) = true) ->
    exists r rest,
      trace_of (uninstallMod bepInExVariant mod_ profile d) =
      Ev_readdir (getPathOfProfile profile) r :: rest) /\
   ((forall v, In v bepInExVariant ->
               equalIgnoringCase (packageName v) (getName mod_) = false) ->
    exists present rest,
      trace_of (uninstallMod bepInExVariant mod_ profile d) =
      Ev_exists (path_join [getPathOfProfile profile; "BepInEx"]) present :: rest)) /\
  (forall file,
      isAscii file = true ->
      rename_calls (trace_of (applyModMode_file DISABLED file d))
      = (if endsWithPluginExtension file
         then [(file, (file ++ ".old")%string)] else []) /\
      (endsWithPluginExtension file = false ->
       applyModMode_file DISABLED file d = (Ok tt, d, [])) /\
      rename_calls (trace_of (applyModMode_file ENABLED file d))
      = (if endsWithDisabledExtension file
         then [(file, substring0 (String.length file - 4) file)] else []) /\
      (endsWithDisabledExtension file = false ->
       applyModMode_file ENABLED file d = (Ok tt, d, []))) /\
  (forall tree,
      (forall t, In t (flat_map subtrees (getDirectories tree)) ->
                 getDirectoryName t <> getName mod_) ->
      applyModMode mod_ tree profile location mode d = (None, d, [])) /\
  (forall n fs directory,
      getDirectoryName directory = getName mod_ ->
      applyModMode mod_ (mkFileTree n fs [directory]) profile location mode d =
      applyModMode_files mode (getRecursiveFiles directory) d) /\
  (forall bepInExLocation file folder,
      folder <> getName mod_ ->
      uninstallMod_bepInEx_folder mod_ bepInExLocation file folder d = (Ok tt, d, [])) /\
  (forall bepInExLocation file,
      exists r rest,
        trace_of (uninstallMod_bepInEx_folder mod_ bepInExLocation file
                    (getName mod_) d) =
        Ev_lstat (path_join [bepInExLocation; file; getName mod_]) r :: rest).
Proof.
  split; [intros folderName _ _; apply matchingEndFolderName_ruleKeyFor|].
  split.
  { intros _ _. split; [apply findVariant_ignoring_case|]. split.
    - intros (v0 & Hv0 & Heq).
      assert (Hvar : exists v, findVariant bepInExVariant mod_ = Some v).
      { apply findVariant_Some_iff. exists v0. split; [exact Hv0|].
        now apply equalIgnoringCase_iff. }
      destruct Hvar as [v Hv].
      unfold uninstallMod. rewrite Hv, !bind_trace.
      unfold uninstallMod_profileRoot, bindT. rewrite bind_trace.
      unfold readdir at 1. rewrite call_trace. cbn [app].
      eexists. eexists. reflexivity.
    - intros Hnot.
      assert (Hnone : findVariant bepInExVariant mod_ = None).
      { apply findVariant_None_iff. intros v Hv Heq.
        apply equalIgnoringCase_iff in Heq. rewrite (Hnot v Hv) in Heq.
        discriminate. }
      unfold uninstallMod. rewrite Hnone, bind_trace.
      cbn [ret trace_of result_of disk_of fst snd app].
      rewrite bind_trace. unfold exists_ at 1. rewrite call_trace. cbn [app].
      eexists. eexists. reflexivity. }
  split.
  { intros file _. split; [|split; [|split]].
    - rewrite applyModMode_file_disable, existsb_plugin_extension.
      destruct (endsWithPluginExtension file); [apply rename_calls_rename | reflexivity].
    - intros H. now rewrite applyModMode_file_disable, existsb_plugin_extension, H.
    - rewrite applyModMode_file_enable, existsb_disabled_extension.
      destruct (endsWithDisabledExtension file);
        [apply rename_calls_rename | reflexivity].
    - intros H. now rewrite applyModMode_file_enable, existsb_disabled_extension, H. }
  split; [intros tree; apply applyModMode_no_exact_name|].
  split; [intros n fs directory; apply applyModMode_exact_name|].
  split; [intros b file folder; apply bepInEx_folder_other_name|].
  intros b file. apply bepInEx_folder_exact_name.
Qed.

End ClaimsOnNames.

(** * The claims on the sample profile *)

Import MemFs.

(** C1 as stated fails: the directory [Foo] of the installed tree and the
  mod name [foo] are equal after [toLowerCase], yet [applyModMode] for
  [foo] touches nothing, where for [Foo] it renames the plugin; and
  [uninstallMod] for [foo] leaves the disk as it is, where for [Foo] it
  removes [BepInEx/plugins/Foo]. *)
Lemma mod_directory_matching_is_case_sensitive :
  toLowerCase (getName Sample.foo) = toLowerCase "Foo" /\
  applyModMode Sample.foo Sample.installed Sample.profile "/profile/BepInEx" DISABLED
    Sample.disk = (None, Sample.disk, []) /\
  rename_calls
    (trace_of (applyModMode Sample.Foo Sample.installed Sample.profile
                 "/profile/BepInEx" DISABLED Sample.disk))
  = [("/profile/BepInEx/plugins/Foo/Foo.dll",
      "/profile/BepInEx/plugins/Foo/Foo.dll.old")] /\
  result_of (uninstallMod Sample.variants Sample.foo Sample.profile Sample.disk) = None /\
  disk_of (uninstallMod Sample.variants Sample.foo Sample.profile Sample.disk)
  = Sample.disk /\
  lookup "/profile/BepInEx/plugins/Foo" Sample.disk = Some StatDirectory /\
  lookup "/profile/BepInEx/plugins/Foo"
    (disk_of (uninstallMod Sample.variants Sample.Foo Sample.profile Sample.disk))
  = None.
Proof. vm_compute. repeat split. Qed.

Lemma toggle_idempotent_witness :
  hasDisabledExtension "/profile/BepInEx/plugins/Foo/Foo.DLL.old" /\
  applyModMode_file DISABLED "/profile/BepInEx/plugins/Foo/Foo.DLL.old" Sample.disk
  = (Ok tt, Sample.disk, []).
Proof.
  assert (Hdis : hasDisabledExtension "/profile/BepInEx/plugins/Foo/Foo.DLL.old").
  { exists ".dll". split; [now left | reflexivity]. }
  split; [exact Hdis|].
  apply (proj1 (toggle_idempotent "/profile/BepInEx/plugins/Foo/Foo.DLL.old" Sample.disk)).
  exact Hdis.
Defined.

Lemma matched_folder_destination_witness :
  matchingEndFolderName Sample.rule "Plugins" = Some "plugins" /\
  exists subpath dest,
    In ("plugins", subpath) (rules Sample.rule) /\
    dest = path_join [getPathOfProfile Sample.profile; subpath; getName Sample.Foo] /\
    trace_of (resolveBepInExTree Sample.rule Sample.profile "/cache/Foo/1.0.0/Plugins"
                "Plugins" Sample.Foo
                (mkFileTree "Plugins" ["/cache/Foo/1.0.0/Plugins/Foo.dll"] [])
                Sample.disk) =
    [Ev_enter "/cache/Foo/1.0.0/Plugins" "Plugins"
       (mkFileTree "Plugins" ["/cache/Foo/1.0.0/Plugins/Foo.dll"] []);
     Ev_ensureDirectory dest (Ok tt);
     Ev_copyFolder "/cache/Foo/1.0.0/Plugins" dest (Ok tt)].
Proof.
  split; [reflexivity|].
  destruct (matched_folder_destination Sample.rule Sample.profile
              "/cache/Foo/1.0.0/Plugins" "Plugins" Sample.Foo
              (mkFileTree "Plugins" ["/cache/Foo/1.0.0/Plugins/Foo.dll"] [])
              "plugins" Sample.disk eq_refl)
    as (subpath & dest & Hin & _ & _ & Hdest & _ & Htrace).
  exists subpath, dest. split; [exact Hin|]. split.
  - apply Hdest. vm_compute. discriminate.
  - apply Htrace. vm_compute. reflexivity.
Defined.

Lemma profile_root_pass_unlinks_only_files_witness :
  exists before,
    [Ev_readdir "/profile"
       (Ok ["mods.yml"; "doorstop_config.ini"; "winhttp.dll"; "BepInEx"]);
     Ev_lstat "/profile/mods.yml" (Ok StatFile);
     Ev_lstat "/profile/doorstop_config.ini" (Ok StatFile)]
    = before ++ [Ev_lstat "/profile/doorstop_config.ini" (Ok StatFile)].
Proof.
  assert (Htrace :
            trace_of (uninstallMod_profileRoot Sample.profile Sample.disk) =
            [Ev_readdir "/profile"
               (Ok ["mods.yml"; "doorstop_config.ini"; "winhttp.dll"; "BepInEx"]);
             Ev_lstat "/profile/mods.yml" (Ok StatFile);
             Ev_lstat "/profile/doorstop_config.ini" (Ok StatFile)]
            ++ Ev_unlink "/profile/doorstop_config.ini" (Ok tt)
            :: [Ev_lstat "/profile/winhttp.dll" (Ok StatFile);
                Ev_unlink "/profile/winhttp.dll" (Ok tt);
                Ev_lstat "/profile/BepInEx" (Ok StatDirectory)]).
  { vm_compute. reflexivity. }
  exact (proj2 (profile_root_pass_unlinks_only_files Sample.profile Sample.disk)
           _ _ _ _ Htrace).
Defined.

(** * The claims on matching, deployment, the round trip and uninstall, on
  the sample inputs *)

(** C3 as stated fails in its reverse direction.  The plugin [Bar.dll.OLD]
  is a disabled file for the toggle; enabling it gives [Bar.dll], and
  disabling that gives [Bar.dll.old], not the name started from.  And for
  the enabled file [Foo.dll], enabling makes no call and disabling right
  afterwards leaves it as [Foo.dll.old]. *)
Lemma enable_then_disable_is_not_the_identity :
  endsWith (toLowerCase "/profile/BepInEx/plugins/Foo/Bar.dll.OLD") ".dll.old" = true /\
  name_after "/profile/BepInEx/plugins/Foo/Bar.dll.OLD"
    (trace_of (applyModMode_file ENABLED "/profile/BepInEx/plugins/Foo/Bar.dll.OLD"
                 Edge.toggled))
  = "/profile/BepInEx/plugins/Foo/Bar.dll" /\
  name_after "/profile/BepInEx/plugins/Foo/Bar.dll"
    (trace_of (applyModMode_file DISABLED "/profile/BepInEx/plugins/Foo/Bar.dll"
                 (disk_of (applyModMode_file ENABLED
                             "/profile/BepInEx/plugins/Foo/Bar.dll.OLD" Edge.toggled))))
  = "/profile/BepInEx/plugins/Foo/Bar.dll.old" /\
  "/profile/BepInEx/plugins/Foo/Bar.dll.old" <> "/profile/BepInEx/plugins/Foo/Bar.dll.OLD" /\
  lookup "/profile/BepInEx/plugins/Foo/Bar.dll.OLD"
    (disk_of (applyModMode_file DISABLED "/profile/BepInEx/plugins/Foo/Bar.dll"
                (disk_of (applyModMode_file ENABLED
                            "/profile/BepInEx/plugins/Foo/Bar.dll.OLD" Edge.toggled))))
  = None /\
  endsWith (toLowerCase "/profile/BepInEx/plugins/Foo/Foo.dll") ".dll" = true /\
  applyModMode_file ENABLED "/profile/BepInEx/plugins/Foo/Foo.dll" Edge.toggled
  = (Ok tt, Edge.toggled, []) /\
  name_after "/profile/BepInEx/plugins/Foo/Foo.dll"
    (trace_of (applyModMode_file DISABLED "/profile/BepInEx/plugins/Foo/Foo.dll"
                 Edge.toggled))
  = "/profile/BepInEx/plugins/Foo/Foo.dll.old".
Proof. vm_compute. repeat split. discriminate. Qed.

(** C6 as stated fails below a matched folder.  The folder [sub] matches no
  rule key and [Patch.mm.dll] sits directly in it, yet the install, which
  succeeds, makes no single-file copy of it: [sub] lies in [plugins],
  which is copied as a whole, so the patch file ends up below
  [plugins/<mod name>] and not in [monomod]. *)
Lemma patch_file_below_matched_folder_is_not_routed :
  matchingEndFolderName Sample.rule "sub" = None /\
  endsWith (toLowerCase "/cache/Bar/1.0.0/plugins/sub/Patch.mm.dll") ".mm.dll" = true /\
  result_of (resolveBepInExTree Sample.rule Sample.profile Edge.cache "1.0.0" Edge.Bar
               Edge.package Edge.disk) = None /\
  file_copies (trace_of (resolveBepInExTree Sample.rule Sample.profile Edge.cache
                           "1.0.0" Edge.Bar Edge.package Edge.disk))
  = ["/cache/Bar/1.0.0/manifest.json"] /\
  lookup "/profile/BepInEx/monomod/Bar/Patch.mm.dll"
    (disk_of (resolveBepInExTree Sample.rule Sample.profile Edge.cache "1.0.0" Edge.Bar
                Edge.package Edge.disk)) = None /\
  lookup "/profile/BepInEx/plugins/Bar/sub/Patch.mm.dll"
    (disk_of (resolveBepInExTree Sample.rule Sample.profile Edge.cache "1.0.0" Edge.Bar
                Edge.package Edge.disk)) = Some StatFile.
Proof. vm_compute. repeat split. Qed.

(** C8 as stated fails for a file whose name is the reserved name in
  another letter case: [MODS.YML] is a regular file at the profile root
  and is not the file [mods.yml], yet a successful uninstall of the loader
  leaves it where it is, while it removes [winhttp.dll]. *)
Lemma reserved_name_is_spared_in_any_letter_case :
  result_of (uninstallMod Sample.variants Sample.loader Sample.profile Edge.root) = None /\
  lookup "/profile/MODS.YML" Edge.root = Some StatFile /\
  "MODS.YML" <> "mods.yml" /\
  lookup "/profile/MODS.YML"
    (disk_of (uninstallMod Sample.variants Sample.loader Sample.profile Edge.root))
  = Some StatFile /\
  lookup "/profile/mods.yml"
    (disk_of (uninstallMod Sample.variants Sample.loader Sample.profile Edge.root))
  = Some StatFile /\
  lookup "/profile/winhttp.dll"
    (disk_of (uninstallMod Sample.variants Sample.loader Sample.profile Edge.root))
  = None.
Proof. vm_compute. repeat split. discriminate. Qed.

Lemma name_matching_case_sensitivity_witness :
  matchingEndFolderName Sample.rule "PLUGINS" = Some "plugins" /\
  matchingEndFolderName Sample.rule "plugin" = None /\
  findVariant Sample.variants (mkManifest "BBEPIS-bepinexpack")
  = Some (mkMapping "bbepis-BepInExPack" "BepInExPack") /\
  rename_calls
    (trace_of (applyModMode_file DISABLED "/profile/BepInEx/plugins/Foo/Foo.DLL"
                 Sample.disk))
  = [("/profile/BepInEx/plugins/Foo/Foo.DLL",
      "/profile/BepInEx/plugins/Foo/Foo.DLL.old")] /\
  rename_calls
    (trace_of (applyModMode_file ENABLED "/profile/BepInEx/plugins/Foo/Foo.Dll.OLD"
                 Sample.disk))
  = [("/profile/BepInEx/plugins/Foo/Foo.Dll.OLD",
      "/profile/BepInEx/plugins/Foo/Foo.Dll")] /\
  (forall folder,
      folder <> "BBEPIS-bepinexpack" ->
      uninstallMod_bepInEx_folder (mkManifest "BBEPIS-bepinexpack") "/profile/BepInEx"
        "plugins" folder Sample.disk = (Ok tt, Sample.disk, [])).
Proof.
  destruct (name_matching_case_sensitivity Sample.rule Sample.variants Sample.profile
              "/profile/BepInEx" (mkManifest "BBEPIS-bepinexpack") DISABLED Sample.disk)
    as (Hrule & Hvariant & Hext & _ & _ & Hfolder & _).
  assert (Hkeys : forallb isAscii (Object_keys (rules Sample.rule)) = true)
    by (vm_compute; reflexivity).
  assert (Hname : isAscii (getName (mkManifest "BBEPIS-bepinexpack")) = true)
    by (vm_compute; reflexivity).
  assert (Hpackages : forallb (fun v => isAscii (packageName v)) Sample.variants = true)
    by (vm_compute; reflexivity).
  assert (Hupper : isAscii "PLUGINS" = true) by (vm_compute; reflexivity).
  assert (Hshort : isAscii "plugin" = true) by (vm_compute; reflexivity).
  assert (Hdll : isAscii "/profile/BepInEx/plugins/Foo/Foo.DLL" = true)
    by (vm_compute; reflexivity).
  assert (Hold : isAscii "/profile/BepInEx/plugins/Foo/Foo.Dll.OLD" = true)
    by (vm_compute; reflexivity).
  split; [rewrite (Hrule "PLUGINS" Hupper Hkeys); vm_compute; reflexivity|].
  split; [rewrite (Hrule "plugin" Hshort Hkeys); vm_compute; reflexivity|].
  split; [rewrite (proj1 (Hvariant Hname Hpackages)); vm_compute; reflexivity|].
  split; [rewrite (proj1 (Hext _ Hdll)); vm_compute; reflexivity|].
  split; [rewrite (proj1 (proj2 (proj2 (Hext _ Hold)))); vm_compute; reflexivity|].
  intros folder. apply Hfolder.
Defined.

Lemma resolve_handles_each_once_witness :
  isAscii "1.0.0" = true /\
  forallb isAscii (Object_keys (rules Sample.rule)) = true /\
  isAsciiTree Sample.package = true /\
  result_of (resolveBepInExTree Sample.rule Sample.profile Sample.cache "1.0.0"
               Sample.Foo Sample.package Sample.disk) = None /\
  plan Sample.rule Sample.profile Sample.Foo Sample.cache "1.0.0" Sample.package =
  [Descend "/cache/Foo/1.0.0" "1.0.0" Sample.package;
   SingleFile "/cache/Foo/1.0.0/manifest.json" "/profile/BepInEx/plugins/Foo";
   SingleFile "/cache/Foo/1.0.0/Foo.MM.dll" "/profile/BepInEx/monomod/Foo";
   WholeFolder "/cache/Foo/1.0.0/Plugins" "Plugins"
     (mkFileTree "Plugins" ["/cache/Foo/1.0.0/Plugins/Foo.dll"] [])
     "/profile/BepInEx/plugins/Foo";
   Descend "/cache/Foo/1.0.0/extras" "extras"
     (mkFileTree "extras" ["/cache/Foo/1.0.0/extras/readme.txt"]
        [mkFileTree "config" ["/cache/Foo/1.0.0/extras/config/foo.cfg"] []]);
   SingleFile "/cache/Foo/1.0.0/extras/readme.txt" "/profile/BepInEx/plugins/Foo";
   WholeFolder "/cache/Foo/1.0.0/extras/config" "config"
     (mkFileTree "config" ["/cache/Foo/1.0.0/extras/config/foo.cfg"] [])
     "/profile/BepInEx/config"] /\
  trace_of (resolveBepInExTree Sample.rule Sample.profile Sample.cache "1.0.0"
              Sample.Foo Sample.package Sample.disk) =
  flat_map events_of_step
    (plan Sample.rule Sample.profile Sample.Foo Sample.cache "1.0.0" Sample.package) /\
  runs_from Sample.disk
    (trace_of (resolveBepInExTree Sample.rule Sample.profile Sample.cache "1.0.0"
                 Sample.Foo Sample.package Sample.disk))
    (disk_of (resolveBepInExTree Sample.rule Sample.profile Sample.cache "1.0.0"
                Sample.Foo Sample.package Sample.disk)).
Proof.
  assert (Hname : isAscii "1.0.0" = true) by (vm_compute; reflexivity).
  assert (Hkeys : forallb isAscii (Object_keys (rules Sample.rule)) = true)
    by (vm_compute; reflexivity).
  assert (Htree : isAsciiTree Sample.package = true) by (vm_compute; reflexivity).
  assert (Hres : result_of (resolveBepInExTree Sample.rule Sample.profile Sample.cache
                              "1.0.0" Sample.Foo Sample.package Sample.disk) = None)
    by (vm_compute; reflexivity).
  destruct (resolve_handles_each_once Sample.rule Sample.profile Sample.cache "1.0.0"
              Sample.Foo Sample.package Sample.disk Hname Hkeys Htree Hres)
    as (Htrace & _ & _ & _ & Hruns).
  split; [exact Hname|]. split; [exact Hkeys|]. split; [exact Htree|].
  split; [exact Hres|]. split; [vm_compute; reflexivity|].
  split; [exact Htrace | exact Hruns].
Defined.

Lemma toggle_round_trip_witness :
  hasModModeExtension "/profile/BepInEx/plugins/Foo/Foo.dll" /\
  hasDisabledExtension "/profile/BepInEx/plugins/Foo/Bar.dll.OLD" /\
  name_after
    (name_after "/profile/BepInEx/plugins/Foo/Foo.dll"
       (trace_of (applyModMode_file DISABLED "/profile/BepInEx/plugins/Foo/Foo.dll"
                    Edge.toggled)))
    (trace_of
       (applyModMode_file ENABLED
          (name_after "/profile/BepInEx/plugins/Foo/Foo.dll"
             (trace_of (applyModMode_file DISABLED "/profile/BepInEx/plugins/Foo/Foo.dll"
                          Edge.toggled)))
          (disk_of (applyModMode_file DISABLED "/profile/BepInEx/plugins/Foo/Foo.dll"
                      Edge.toggled))))
  = "/profile/BepInEx/plugins/Foo/Foo.dll" /\
  name_after
    (name_after "/profile/BepInEx/plugins/Foo/Bar.dll.OLD"
       (trace_of (applyModMode_file ENABLED "/profile/BepInEx/plugins/Foo/Bar.dll.OLD"
                    Edge.toggled)))
    (trace_of
       (applyModMode_file DISABLED
          (name_after "/profile/BepInEx/plugins/Foo/Bar.dll.OLD"
             (trace_of (applyModMode_file ENABLED
                          "/profile/BepInEx/plugins/Foo/Bar.dll.OLD" Edge.toggled)))
          (disk_of (applyModMode_file ENABLED "/profile/BepInEx/plugins/Foo/Bar.dll.OLD"
                      Edge.toggled))))
  = "/profile/BepInEx/plugins/Foo/Bar.dll.old".
Proof.
  assert (Hext : hasModModeExtension "/profile/BepInEx/plugins/Foo/Foo.dll").
  { exists ".dll". split; [now left | reflexivity]. }
  assert (Hdis : hasDisabledExtension "/profile/BepInEx/plugins/Foo/Bar.dll.OLD").
  { exists ".dll". split; [now left | reflexivity]. }
  destruct (toggle_round_trip "/profile/BepInEx/plugins/Foo/Foo.dll"
              "/profile/BepInEx/plugins/Foo/Bar.dll.OLD" Edge.toggled Hext Hdis)
    as [Hforth Hback].
  split; [exact Hext|]. split; [exact Hdis|]. split.
  - apply Hforth; vm_compute; reflexivity.
  - assert (Hon : result_of (applyModMode_file ENABLED
                               "/profile/BepInEx/plugins/Foo/Bar.dll.OLD" Edge.toggled)
                  = Ok tt) by (vm_compute; reflexivity).
    assert (Hoff : result_of
                     (applyModMode_file DISABLED
                        (name_after "/profile/BepInEx/plugins/Foo/Bar.dll.OLD"
                           (trace_of (applyModMode_file ENABLED
                                        "/profile/BepInEx/plugins/Foo/Bar.dll.OLD"
                                        Edge.toggled)))
                        (disk_of (applyModMode_file ENABLED
                                    "/profile/BepInEx/plugins/Foo/Bar.dll.OLD"
                                    Edge.toggled))) = Ok tt)
      by (vm_compute; reflexivity).
    destruct (Hback Hon Hoff) as (_ & _ & Hname & _).
    rewrite Hname. vm_compute. reflexivity.
Defined.

Lemma loose_file_destination_witness :
  isAscii "1.0.0" = true /\
  forallb isAscii (Object_keys (rules Sample.rule)) = true /\
  isAsciiTree Sample.package = true /\
  result_of (resolveBepInExTree Sample.rule Sample.profile Sample.cache "1.0.0"
               Sample.Foo Sample.package Sample.disk) = None /\
  (exists pre post,
      trace_of (resolveBepInExTree Sample.rule Sample.profile Sample.cache "1.0.0"
                  Sample.Foo Sample.package Sample.disk) =
      pre ++ Ev_ensureDirectory "/profile/BepInEx/monomod/Foo" (Ok tt)
          :: Ev_copyFile "/cache/Foo/1.0.0/Foo.MM.dll"
               "/profile/BepInEx/monomod/Foo/Foo.MM.dll" (Ok tt)
          :: post) /\
  (exists pre post,
      trace_of (resolveBepInExTree Sample.rule Sample.profile Sample.cache "1.0.0"
                  Sample.Foo Sample.package Sample.disk) =
      pre ++ Ev_ensureDirectory "/profile/BepInEx/plugins/Foo" (Ok tt)
          :: Ev_copyFile "/cache/Foo/1.0.0/extras/readme.txt"
               "/profile/BepInEx/plugins/Foo/readme.txt" (Ok tt)
          :: post) /\
  lookup "/profile/BepInEx/monomod/Foo/Foo.MM.dll"
    (disk_of (resolveBepInExTree Sample.rule Sample.profile Sample.cache "1.0.0"
                Sample.Foo Sample.package Sample.disk)) = Some StatFile.
Proof.
  assert (Hname : isAscii "1.0.0" = true) by (vm_compute; reflexivity).
  assert (Hkeys : forallb isAscii (Object_keys (rules Sample.rule)) = true)
    by (vm_compute; reflexivity).
  assert (Htree : isAsciiTree Sample.package = true) by (vm_compute; reflexivity).
  assert (Hres : result_of (resolveBepInExTree Sample.rule Sample.profile Sample.cache
                              "1.0.0" Sample.Foo Sample.package Sample.disk) = None)
    by (vm_compute; reflexivity).
  destruct (loose_file_destination Sample.rule Sample.profile Sample.cache "1.0.0"
              Sample.Foo Sample.package Sample.disk Hname Hkeys Htree Hres)
    as (Hfiles & _ & _).
  assert (Hroot : reached_unmatched Sample.rule "1.0.0" Sample.package Sample.package)
    by (apply reached_start; vm_compute; reflexivity).
  assert (Hextras :
            reached_unmatched Sample.rule "1.0.0" Sample.package
              (mkFileTree "extras" ["/cache/Foo/1.0.0/extras/readme.txt"]
                 [mkFileTree "config" ["/cache/Foo/1.0.0/extras/config/foo.cfg"] []])).
  { apply (reached_inside Sample.rule "1.0.0" Sample.package Sample.package);
      [exact Hroot | simpl; auto | vm_compute; reflexivity]. }
  split; [exact Hname|]. split; [exact Hkeys|]. split; [exact Htree|].
  split; [exact Hres|]. split; [|split].
  - destruct (Hfiles _ "/cache/Foo/1.0.0/Foo.MM.dll" Hroot) as (pre & post & Htrace);
      [simpl; auto|].
    exists pre, post. rewrite Htrace. vm_compute. reflexivity.
  - destruct (Hfiles _ "/cache/Foo/1.0.0/extras/readme.txt" Hextras)
      as (pre & post & Htrace); [simpl; auto|].
    exists pre, post. rewrite Htrace. vm_compute. reflexivity.
  - vm_compute. reflexivity.
Defined.


Lemma uninstall_variant_sweeps_profile_root_witness :
  (exists v, In v Sample.variants /\
             equalIgnoringCase (packageName v) (getName Sample.loader) = true) /\
  result_of (uninstallMod Sample.variants Sample.loader Sample.profile Sample.disk)
  = None /\
  (exists files swept rest,
      trace_of (uninstallMod Sample.variants Sample.loader Sample.profile Sample.disk) =
        Ev_readdir (getPathOfProfile Sample.profile) (Ok files) :: swept ++ rest /\
      root_swept Sample.profile files swept /\
      quiet_or_mod_folder Sample.profile Sample.loader rest) /\
  runs_from Sample.disk
    (trace_of (uninstallMod Sample.variants Sample.loader Sample.profile Sample.disk))
    (disk_of (uninstallMod Sample.variants Sample.loader Sample.profile Sample.disk)) /\
  lookup "/profile/winhttp.dll" Sample.disk = Some StatFile /\
  lookup "/profile/winhttp.dll"
    (disk_of (uninstallMod Sample.variants Sample.loader Sample.profile Sample.disk))
  = None /\
  lookup "/profile/mods.yml"
    (disk_of (uninstallMod Sample.variants Sample.loader Sample.profile Sample.disk))
  = Some StatFile.
Proof.
  assert (Hvar : exists v, In v Sample.variants /\
                           equalIgnoringCase (packageName v) (getName Sample.loader)
                           = true).
  { exists (mkMapping "bbepis-BepInExPack" "BepInExPack").
    split; [now left | vm_compute; reflexivity]. }
  assert (Hres : result_of (uninstallMod Sample.variants Sample.loader Sample.profile
                              Sample.disk) = None)
    by (vm_compute; reflexivity).
  destruct (uninstall_variant_sweeps_profile_root Sample.variants Sample.loader
              Sample.profile Sample.disk Hvar Hres) as [Hswept Hruns].
  split; [exact Hvar|]. split; [exact Hres|]. split; [exact Hswept|].
  split; [exact Hruns|]. vm_compute. repeat split.
Defined.

(** * The scenarios of the specification, run on the sample profile *)

(** Installing the sample package: the [Plugins] folder is deployed as a
  whole under the mod's name, the [config] folder without it, the patch
  file goes to [monomod], the other loose files to the default path. *)
Example scenario_install :
  let after := disk_of (resolveBepInExTree Sample.rule Sample.profile Sample.cache
                          "1.0.0" Sample.Foo Sample.package Sample.disk) in
  lookup "/profile/BepInEx/plugins/Foo/Foo.dll" after = Some StatFile /\
  lookup "/profile/BepInEx/config/foo.cfg" after = Some StatFile /\
  lookup "/profile/BepInEx/config/Foo" after = None /\
  lookup "/profile/BepInEx/monomod/Foo/Foo.MM.dll" after = Some StatFile /\
  lookup "/profile/BepInEx/plugins/Foo/Foo.MM.dll" after = None /\
  lookup "/profile/BepInEx/plugins/Foo/readme.txt" after = Some StatFile /\
  lookup "/profile/Plugins" after = None.
Proof. vm_compute. repeat split. Qed.

(** Disabling Foo renames its plugin to [Foo.dll.old] and leaves the
  manifest alone; enabling it on the tree scanned afterwards gives the
  plugin its name back. *)
Example scenario_disable_enable :
  let disabled := disk_of (applyModMode Sample.Foo Sample.installed Sample.profile
                             "/profile/BepInEx" DISABLED Sample.disk) in
  let rescanned :=
    mkFileTree "BepInEx" []
      [mkFileTree "plugins" []
         [mkFileTree "Foo" ["/profile/BepInEx/plugins/Foo/manifest.json";
                            "/profile/BepInEx/plugins/Foo/Foo.dll.old"] []]] in
  let enabled := disk_of (applyModMode Sample.Foo rescanned Sample.profile
                            "/profile/BepInEx" ENABLED disabled) in
  lookup "/profile/BepInEx/plugins/Foo/Foo.dll" disabled = None /\
  lookup "/profile/BepInEx/plugins/Foo/Foo.dll.old" disabled = Some StatFile /\
  lookup "/profile/BepInEx/plugins/Foo/manifest.json" disabled = Some StatFile /\
  lookup "/profile/BepInEx/plugins/Foo/Foo.dll" enabled = Some StatFile /\
  lookup "/profile/BepInEx/plugins/Foo/Foo.dll.old" enabled = None /\
  length enabled = length Sample.disk.
Proof. vm_compute. repeat split. Qed.

(** Uninstalling the loader package empties the profile root of its files,
  [mods.yml] apart, and keeps the directories; uninstalling Foo keeps the
  root as it is and removes the mod's folder. *)
Example scenario_uninstall :
  children "/profile"
    (disk_of (uninstallMod Sample.variants Sample.loader Sample.profile Sample.disk))
  = ["mods.yml"; "BepInEx"] /\
  children "/profile"
    (disk_of (uninstallMod Sample.variants Sample.Foo Sample.profile Sample.disk))
  = children "/profile" Sample.disk /\
  children "/profile/BepInEx/plugins"
    (disk_of (uninstallMod Sample.variants Sample.Foo Sample.profile Sample.disk))
  = [].
Proof. vm_compute. repeat split. Qed.

(** * The first pass of [uninstallMod] on the in-memory disk *)

Lemma lookup_remove_other (p q : string) (d : disk) :
  q <> p -> lookup q (remove p d) = lookup q d.
Proof.
  intros Hne. unfold lookup, remove.
  induction d as [|[k st] d IH]; simpl; [reflexivity|].
  destruct (String.eqb_spec k p) as [->|Hkp]; simpl.
  - destruct (String.eqb_spec p q) as [->|_]; [contradiction | exact IH].
  - destruct (String.eqb_spec k q); [reflexivity | exact IH].
Qed.

(** Whatever is no regular file before the pass is still there after it,
  on every disk and whether the pass succeeds or not. *)
Lemma memfs_profileRoot_entry_keeps profile file (d : disk) q st :
  lookup q d = Some st -> st <> StatFile ->
  lookup q (disk_of (uninstallMod_profileRoot_entry profile file d)) = Some st.
Proof.
  intros Hq Hst. unfold uninstallMod_profileRoot_entry.
  set (filePath := path_join [getPathOfProfile profile; file]).
  unfold bindT, bind, lstat, unlink, call, ret, disk_of. simpl.
  unfold mem_lstat. destruct (lookup filePath d) as [st'|] eqn:Efile; simpl; [|exact Hq].
  destruct st'; simpl; try exact Hq.
  destruct (negb _); simpl; [|exact Hq].
  unfold mem_unlink. rewrite Efile. simpl.
  rewrite lookup_remove_other; [exact Hq|].
  intros ->. rewrite Efile in Hq. injection Hq as <-. now apply Hst.
Qed.

Lemma memfs_profileRoot_keeps_directories profile (d : disk) q st :
  lookup q d = Some st -> st <> StatFile ->
  lookup q (disk_of (uninstallMod_profileRoot profile d)) = Some st.
Proof.
  intros Hq Hst. unfold uninstallMod_profileRoot.
  unfold bindT at 1. rewrite bind_disk.
  assert (Hls : disk_of (readdir (getPathOfProfile profile) d) = d).
  { unfold readdir, call, disk_of. simpl. unfold mem_readdir.
    destruct (lookup (getPathOfProfile profile) d) as [[]|]; reflexivity. }
  rewrite Hls. destruct (result_of (readdir (getPathOfProfile profile) d)) as [files|t];
    [|exact Hq].
  clear Hls. revert d Hq. induction files as [|file files IH]; intros d Hq.
  - exact Hq.
  - cbn [forEachT]. unfold bindT at 1. rewrite bind_disk.
    pose proof (memfs_profileRoot_entry_keeps profile file d q st Hq Hst) as Hkeep.
    destruct (result_of (uninstallMod_profileRoot_entry profile file d)).
    + now apply IH.
    + exact Hkeep.
Qed.

(** * The further properties on the sample profile and on the depot *)

Import MemScan.

Lemma resolve_without_rules_flattens_witness :
  rules (mkRule [] "BepInEx/plugins") = [] /\
  result_of (resolveBepInExTree (mkRule [] "BepInEx/plugins") Sample.profile
               Sample.cache "1.0.0" Sample.Foo Sample.package Sample.disk) = None /\
  file_copies
    (trace_of (resolveBepInExTree (mkRule [] "BepInEx/plugins") Sample.profile
                 Sample.cache "1.0.0" Sample.Foo Sample.package Sample.disk))
  = ["/cache/Foo/1.0.0/manifest.json"; "/cache/Foo/1.0.0/Foo.MM.dll";
     "/cache/Foo/1.0.0/Plugins/Foo.dll"; "/cache/Foo/1.0.0/extras/readme.txt";
     "/cache/Foo/1.0.0/extras/config/foo.cfg"] /\
  folder_copies
    (trace_of (resolveBepInExTree (mkRule [] "BepInEx/plugins") Sample.profile
                 Sample.cache "1.0.0" Sample.Foo Sample.package Sample.disk))
  = [].
Proof.
  assert (Hrules : rules (mkRule [] "BepInEx/plugins") = []) by reflexivity.
  assert (Hres : result_of (resolveBepInExTree (mkRule [] "BepInEx/plugins")
                              Sample.profile Sample.cache "1.0.0" Sample.Foo
                              Sample.package Sample.disk) = None)
    by (vm_compute; reflexivity).
  destruct (resolve_without_rules_flattens (mkRule [] "BepInEx/plugins") Sample.profile
              Sample.cache "1.0.0" Sample.Foo Sample.package Sample.disk Hrules Hres)
    as (Hfiles & Hfolders & _).
  split; [exact Hrules|]. split; [exact Hres|]. split.
  - rewrite Hfiles. reflexivity.
  - exact Hfolders.
Defined.

Lemma installModLoader_copies_payload_witness :
  fst (FileTree_buildFromLocation
         "/mods/cache/bbepis-BepInExPack/5.4.2100/BepInExPack" depot)
  = inr (mkFileTree ""
           ["/mods/cache/bbepis-BepInExPack/5.4.2100/BepInExPack/winhttp.dll";
            "/mods/cache/bbepis-BepInExPack/5.4.2100/BepInExPack/doorstop_config.ini"]
           [mkFileTree "BepInEx" []
              [mkFileTree "core"
                 ["/mods/cache/bbepis-BepInExPack/5.4.2100/BepInExPack/BepInEx/core/BepInEx.dll"]
                 []]]) /\
  result_of (installModLoader "/mods/cache/bbepis-BepInExPack/5.4.2100"
               (mkMapping "bbepis-BepInExPack" "BepInExPack") Sample.profile depot)
  = None /\
  trace_of (installModLoader "/mods/cache/bbepis-BepInExPack/5.4.2100"
              (mkMapping "bbepis-BepInExPack" "BepInExPack") Sample.profile depot)
  = [Ev_copyFile "/mods/cache/bbepis-BepInExPack/5.4.2100/BepInExPack/winhttp.dll"
       "/profile/winhttp.dll" (Ok tt);
     Ev_copyFile "/mods/cache/bbepis-BepInExPack/5.4.2100/BepInExPack/doorstop_config.ini"
       "/profile/doorstop_config.ini" (Ok tt);
     Ev_copyFolder "/mods/cache/bbepis-BepInExPack/5.4.2100/BepInExPack/BepInEx"
       "/profile/BepInEx" (Ok tt);
     Ev_copyFile "/mods/cache/bbepis-BepInExPack/5.4.2100/icon.png"
       "/profile/BepInEx/core/icon.png" (Ok tt)].
Proof.
  assert (Hscan :
            fst (FileTree_buildFromLocation
                   (path_join ["/mods/cache/bbepis-BepInExPack/5.4.2100";
                               rootFolder (mkMapping "bbepis-BepInExPack" "BepInExPack")])
                   depot)
            = inr (mkFileTree ""
                     ["/mods/cache/bbepis-BepInExPack/5.4.2100/BepInExPack/winhttp.dll";
                      "/mods/cache/bbepis-BepInExPack/5.4.2100/BepInExPack/doorstop_config.ini"]
                     [mkFileTree "BepInEx" []
                        [mkFileTree "core"
                           ["/mods/cache/bbepis-BepInExPack/5.4.2100/BepInExPack/BepInEx/core/BepInEx.dll"]
                           []]]))
    by (vm_compute; reflexivity).
  assert (Hres : result_of (installModLoader "/mods/cache/bbepis-BepInExPack/5.4.2100"
                              (mkMapping "bbepis-BepInExPack" "BepInExPack")
                              Sample.profile depot) = None)
    by (vm_compute; reflexivity).
  pose proof (installModLoader_copies_payload _ _ _ _ _ Hscan Hres) as Htrace.
  split; [vm_compute; reflexivity|]. split; [exact Hres|].
  rewrite Htrace. vm_compute. reflexivity.
Defined.

Lemma toggle_moves_between_states_witness :
  In (Ev_rename "/profile/BepInEx/plugins/Foo/Foo.dll"
        "/profile/BepInEx/plugins/Foo/Foo.dll.old" (Ok tt))
     (trace_of (applyModMode_file DISABLED "/profile/BepInEx/plugins/Foo/Foo.dll"
                  Sample.disk)) /\
  hasModModeExtension "/profile/BepInEx/plugins/Foo/Foo.dll" /\
  hasDisabledExtension "/profile/BepInEx/plugins/Foo/Foo.dll.old" /\
  ~ hasModModeExtension "/profile/BepInEx/plugins/Foo/Foo.dll.old".
Proof.
  assert (Hin : In (Ev_rename "/profile/BepInEx/plugins/Foo/Foo.dll"
                      "/profile/BepInEx/plugins/Foo/Foo.dll.old" (Ok tt))
                   (trace_of (applyModMode_file DISABLED
                                "/profile/BepInEx/plugins/Foo/Foo.dll" Sample.disk)))
    by (vm_compute; auto).
  destruct (toggle_moves_between_states DISABLED "/profile/BepInEx/plugins/Foo/Foo.dll"
              Sample.disk _ _ _ Hin) as (_ & Hsrc & _ & Hdest & Hnot).
  split; [exact Hin|]. split; [exact Hsrc|]. split; [exact Hdest|exact Hnot].
Defined.

Lemma uninstall_never_unlinks_reserved_witness :
  In (Ev_unlink "/profile/winhttp.dll" (Ok tt))
     (trace_of (uninstallMod Sample.variants Sample.loader Sample.profile Sample.disk)) /\
  exists files file pre post,
    trace_of (uninstallMod Sample.variants Sample.loader Sample.profile Sample.disk) =
    Ev_readdir (getPathOfProfile Sample.profile) (Ok files)
      :: pre ++ Ev_lstat "/profile/winhttp.dll" (Ok StatFile)
             :: Ev_unlink "/profile/winhttp.dll" (Ok tt) :: post /\
    In file files /\
    "/profile/winhttp.dll" = path_join [getPathOfProfile Sample.profile; file] /\
    equalIgnoringCase file "mods.yml" = false.
Proof.
  assert (Hin : In (Ev_unlink "/profile/winhttp.dll" (Ok tt))
                   (trace_of (uninstallMod Sample.variants Sample.loader Sample.profile
                                Sample.disk)))
    by (vm_compute; auto 10).
  split; [exact Hin|].
  destruct (uninstall_never_unlinks_reserved Sample.variants Sample.loader
              Sample.profile Sample.disk _ _ Hin)
    as (files & file & pre & post & Htrace & Hfile & Hp & Hname & _).
  exists files, file, pre, post. now repeat split.
Defined.

Lemma uninstall_second_pass_sweeps_witness :
  result_of (uninstallMod_bepInEx Sample.Foo "/profile/BepInEx" Sample.disk) = Ok tt /\
  exists files tr,
    trace_of (uninstallMod_bepInEx Sample.Foo "/profile/BepInEx" Sample.disk) =
      Ev_readdir "/profile/BepInEx" (Ok files) :: tr /\
    bepInEx_swept Sample.Foo "/profile/BepInEx" files tr.
Proof.
  assert (Hres : result_of (uninstallMod_bepInEx Sample.Foo "/profile/BepInEx"
                              Sample.disk) = Ok tt)
    by (vm_compute; reflexivity).
  split; [exact Hres|].
  exact (uninstall_second_pass_sweeps Sample.Foo "/profile/BepInEx" Sample.disk Hres).
Defined.


Lemma toggle_renames_only_inside_mod_folders_witness :
  In (Ev_rename "/profile/BepInEx/plugins/Foo/Foo.dll"
        "/profile/BepInEx/plugins/Foo/Foo.dll.old" (Ok tt))
     (trace_of (applyModMode Sample.Foo Sample.installed Sample.profile
                  "/profile/BepInEx" DISABLED Sample.disk)) /\
  exists directory,
    In directory (flat_map subtrees (getDirectories Sample.installed)) /\
    getDirectoryName directory = getName Sample.Foo /\
    In "/profile/BepInEx/plugins/Foo/Foo.dll" (getRecursiveFiles directory).
Proof.
  assert (Hin : In (Ev_rename "/profile/BepInEx/plugins/Foo/Foo.dll"
                      "/profile/BepInEx/plugins/Foo/Foo.dll.old" (Ok tt))
                   (trace_of (applyModMode Sample.Foo Sample.installed Sample.profile
                                "/profile/BepInEx" DISABLED Sample.disk)))
    by (vm_compute; auto).
  split; [exact Hin|].
  exact (toggle_renames_only_inside_mod_folders Sample.Foo Sample.installed
           Sample.profile "/profile/BepInEx" DISABLED Sample.disk _ _ _ Hin).
Defined.

Lemma uninstall_without_BepInEx_is_no_error_witness :
  In (Ev_exists "/profile/BepInEx" false)
     (trace_of (uninstallMod Sample.variants Sample.Foo Sample.profile depot)) /\
  result_of (uninstallMod Sample.variants Sample.Foo Sample.profile depot) = None.
Proof.
  assert (Hin : In (Ev_exists "/profile/BepInEx" false)
                   (trace_of (uninstallMod Sample.variants Sample.Foo Sample.profile
                                depot)))
    by (vm_compute; auto).
  split; [exact Hin|].
  exact (proj1 (uninstall_without_BepInEx_is_no_error Sample.variants Sample.Foo
                  Sample.profile depot _ Hin)).
Defined.

Lemma loader_lands_in_profile_root_witness :
  findVariant Sample.variants Sample.loader
  = Some (mkMapping "bbepis-BepInExPack" "BepInExPack") /\
  In (Ev_copyFolder "/mods/cache/bbepis-BepInExPack/5.4.2100/BepInExPack/BepInEx"
        "/profile/BepInEx" (Ok tt))
     (trace_of (installMod Sample.rule Sample.variants Sample.loader Sample.profile
                  depot)) /\
  loader_copy (cachedLocationOfMod Sample.loader)
    (path_join [cachedLocationOfMod Sample.loader; "BepInExPack"]) Sample.profile
    (Ev_copyFolder "/mods/cache/bbepis-BepInExPack/5.4.2100/BepInExPack/BepInEx"
       "/profile/BepInEx" (Ok tt)).
Proof.
  assert (Hvariant : findVariant Sample.variants Sample.loader
                     = Some (mkMapping "bbepis-BepInExPack" "BepInExPack"))
    by (vm_compute; reflexivity).
  assert (Hin : In (Ev_copyFolder
                      "/mods/cache/bbepis-BepInExPack/5.4.2100/BepInExPack/BepInEx"
                      "/profile/BepInEx" (Ok tt))
                   (trace_of (installMod Sample.rule Sample.variants Sample.loader
                                Sample.profile depot)))
    by (vm_compute; auto 10).
  split; [exact Hvariant|]. split; [exact Hin|].
  exact (loader_lands_in_profile_root Sample.variants Sample.rule Sample.loader _
           Sample.profile depot _ Hvariant Hin).
Defined.

Lemma installMod_deploys_scanned_package_witness :
  isAscii (getName Sample.Foo) = true /\
  forallb (fun v => isAscii (packageName v)) Sample.variants = true /\
  isAscii (path_basename (cachedLocationOfMod Sample.Foo)) = true /\
  forallb isAscii (Object_keys (rules Sample.rule)) = true /\
  isAsciiTree
    (mkFileTree ""
       ["/mods/cache/Foo/1.0.0/manifest.json"; "/mods/cache/Foo/1.0.0/Foo.mm.dll"]
       [mkFileTree "plugins" ["/mods/cache/Foo/1.0.0/plugins/Foo.dll"] []]) = true /\
  findVariant Sample.variants Sample.Foo = None /\
  fst (FileTree_buildFromLocation (cachedLocationOfMod Sample.Foo) depot)
  = inr (mkFileTree ""
           ["/mods/cache/Foo/1.0.0/manifest.json"; "/mods/cache/Foo/1.0.0/Foo.mm.dll"]
           [mkFileTree "plugins" ["/mods/cache/Foo/1.0.0/plugins/Foo.dll"] []]) /\
  result_of (installMod Sample.rule Sample.variants Sample.Foo Sample.profile depot)
  = None /\
  trace_of (installMod Sample.rule Sample.variants Sample.Foo Sample.profile depot) =
  [Ev_enter "/mods/cache/Foo/1.0.0" "1.0.0"
     (mkFileTree ""
        ["/mods/cache/Foo/1.0.0/manifest.json"; "/mods/cache/Foo/1.0.0/Foo.mm.dll"]
        [mkFileTree "plugins" ["/mods/cache/Foo/1.0.0/plugins/Foo.dll"] []]);
   Ev_ensureDirectory "/profile/BepInEx/plugins/Foo" (Ok tt);
   Ev_copyFile "/mods/cache/Foo/1.0.0/manifest.json"
     "/profile/BepInEx/plugins/Foo/manifest.json" (Ok tt);
   Ev_ensureDirectory "/profile/BepInEx/monomod/Foo" (Ok tt);
   Ev_copyFile "/mods/cache/Foo/1.0.0/Foo.mm.dll"
     "/profile/BepInEx/monomod/Foo/Foo.mm.dll" (Ok tt);
   Ev_enter "/mods/cache/Foo/1.0.0/plugins" "plugins"
     (mkFileTree "plugins" ["/mods/cache/Foo/1.0.0/plugins/Foo.dll"] []);
   Ev_ensureDirectory "/profile/BepInEx/plugins/Foo" (Ok tt);
   Ev_copyFolder "/mods/cache/Foo/1.0.0/plugins" "/profile/BepInEx/plugins/Foo" (Ok tt)].
Proof.
  assert (Hname : isAscii (getName Sample.Foo) = true) by (vm_compute; reflexivity).
  assert (Hpackages : forallb (fun v => isAscii (packageName v)) Sample.variants = true)
    by (vm_compute; reflexivity).
  assert (Hbase : isAscii (path_basename (cachedLocationOfMod Sample.Foo)) = true)
    by (vm_compute; reflexivity).
  assert (Hkeys : forallb isAscii (Object_keys (rules Sample.rule)) = true)
    by (vm_compute; reflexivity).
  assert (Htree :
            isAsciiTree
              (mkFileTree ""
                 ["/mods/cache/Foo/1.0.0/manifest.json";
                  "/mods/cache/Foo/1.0.0/Foo.mm.dll"]
                 [mkFileTree "plugins" ["/mods/cache/Foo/1.0.0/plugins/Foo.dll"] []])
            = true)
    by (vm_compute; reflexivity).
  assert (Hnone : findVariant Sample.variants Sample.Foo = None)
    by (vm_compute; reflexivity).
  assert (Hscan :
            fst (FileTree_buildFromLocation (cachedLocationOfMod Sample.Foo) depot)
            = inr (mkFileTree ""
                     ["/mods/cache/Foo/1.0.0/manifest.json";
                      "/mods/cache/Foo/1.0.0/Foo.mm.dll"]
                     [mkFileTree "plugins" ["/mods/cache/Foo/1.0.0/plugins/Foo.dll"]
                        []]))
    by (vm_compute; reflexivity).
  assert (Hres : result_of (installMod Sample.rule Sample.variants Sample.Foo
                              Sample.profile depot) = None)
    by (vm_compute; reflexivity).
  destruct (installMod_deploys_scanned_package Sample.variants Sample.rule
              Sample.Foo Sample.profile _ depot Hname Hpackages Hbase Hkeys Htree
              Hnone Hscan Hres) as (Htrace & _).
  split; [exact Hname|]. split; [exact Hpackages|]. split; [exact Hbase|].
  split; [exact Hkeys|]. split; [exact Htree|]. split; [exact Hnone|].
  split; [exact Hscan|]. split; [exact Hres|].
  rewrite Htrace. vm_compute. reflexivity.
Defined.

